(** * crypto-intel-github-bot: the gateway, scheduler and dispatcher core

  A shallow embedding of the shared infrastructure of the bot
  (TTL caches, paced API clients, the cron task runner, the health
  aggregator and the signed-webhook dispatcher) together with the
  properties its specification states about them.

  Conventions.
  - A JavaScript string is the list of its UTF-16 code units ([JS.str]);
    [JS.js] injects an ASCII literal.
  - [Date.now()] readings are integers (milliseconds) in [Z].
  - A JavaScript [Map] is an association list in insertion order
    ([JsMap]); its iteration order is the order of the list.
  - Asynchronous methods are state-passing functions; an exception is the
    [Thrown] result of the [Result] type, and the state reached before the
    throw is kept, as in JavaScript. *)

From Stdlib Require Import ZArith NArith List String Ascii Bool Lia.
From Stdlib Require Import DecimalString.
Import ListNotations.
Local Open Scope Z_scope.

(* ================================================================== *)
(** ** JavaScript strings *)

Module JS.

(** A string is its sequence of UTF-16 code units. *)
Definition str : Type := list N.

(** ASCII literal to string. *)
Definition js (s : string) : str :=
  List.map N_of_ascii (list_ascii_of_string s).

(** [a === b] on strings. *)
Fixpoint streq (a b : str) : bool :=
  match a, b with
  | [], [] => true
  | x :: a', y :: b' => N.eqb x y && streq a' b'
  | _, _ => false
  end.

(** Truthiness of a string value: only the empty string is falsy. *)
Definition truthy_str (s : str) : bool :=
  match s with [] => false | _ => true end.

(** Truthiness of a possibly [undefined] string. *)
Definition truthy_ostr (s : option str) : bool :=
  match s with None => false | Some s => truthy_str s end.

(** Decimal rendering of an integer, as a template literal does. *)
Definition of_Z (z : Z) : str := js (NilZero.string_of_int (Z.to_int z)).

End JS.

Import JS.

(* ================================================================== *)
(** ** Results of calls that may throw *)

(** An [Error] value, reduced to its [message]. *)
Definition Err : Type := str.

Inductive Result (A : Type) : Type :=
| Ok (a : A)
| Thrown (e : Err).
Arguments Ok {A} a.
Arguments Thrown {A} e.

(** State-passing computations that may throw. *)
Definition M (S A : Type) : Type := S -> Result A * S.

Definition ret {S A} (a : A) : M S A := fun s => (Ok a, s).

Definition bind {S A B} (m : M S A) (k : A -> M S B) : M S B :=
  fun s => match m s with
         | (Ok a, s') => k a s'
         | (Thrown e, s') => (Thrown e, s')
         end.

Definition throw {S A} (e : Err) : M S A := fun s => (Thrown e, s).

(** [try { m } catch (e) { h e }]. *)
Definition try_catch {S A} (m : M S A) (h : Err -> M S A) : M S A :=
  fun s => match m s with
         | (Ok a, s') => (Ok a, s')
         | (Thrown e, s') => h e s'
         end.

Definition gets {S A} (f : S -> A) : M S A := fun s => (Ok (f s), s).
Definition modify {S} (f : S -> S) : M S unit := fun s => (Ok tt, f s).

Declare Scope js_scope.
Delimit Scope js_scope with js.
Notation "x <- m ;; k" := (bind m (fun x => k))
  (at level 61, m at next level, right associativity) : js_scope.
Notation "m ;;; k" := (bind m (fun _ => k))
  (at level 61, right associativity) : js_scope.

(* ================================================================== *)
(** ** The JavaScript [Map], in insertion order *)

Module JsMap.
Section JsMap.
Context {V : Type}.

Definition t : Type := list (str * V).

Definition empty : t := [].

Fixpoint get (k : str) (m : t) : option V :=
  match m with
  | [] => None
  | (k', v) :: r => if streq k' k then Some v else get k r
  end.

Definition has (k : str) (m : t) : bool :=
  match get k m with Some _ => true | None => false end.

(** [set] overwrites in place (the key keeps its position) or appends. *)
Fixpoint set (k : str) (v : V) (m : t) : t :=
  match m with
  | [] => [(k, v)]
  | (k', v') :: r =>
      if streq k' k then (k', v) :: r else (k', v') :: set k v r
  end.

Fixpoint delete (k : str) (m : t) : t :=
  match m with
  | [] => []
  | (k', v') :: r =>
      if streq k' k then delete k r else (k', v') :: delete k r
  end.

Definition keys (m : t) : list str := List.map fst m.

Definition size (m : t) : nat := List.length m.

(** Keys of a [Map] are unique. *)
Definition wf (m : t) : Prop := NoDup (keys m).

(** [ks.forEach(key => m.delete(key))]. *)
Definition delete_all (ks : list str) (m : t) : t :=
  fold_left (fun acc k => delete k acc) ks m.

End JsMap.
Arguments t : clear implicits.
End JsMap.

(* ================================================================== *)
(** ** The TTL cache kept by every service *)

Module Cache.
Section Cache.
Context {V : Type}.

(** [{ data, timestamp }] *)
Record CacheEntry : Type := { data : V; timestamp : Z }.

Definition CacheStore : Type := JsMap.t CacheEntry.

(** What [setCachedData] does once the entry is stored: five of the six
    services delete the first [count] keys when the size exceeds
    [ceiling]; [DeFiMonitoringService] has no such step. *)
Inductive TrimPolicy : Type :=
| Trim (ceiling count : nat)
| NoTrim.

(** [getCachedData(key, maxAge)], at the clock reading [now]; the first
    component is the value returned ([None] for [null]). *)
Definition getCachedData (key : str) (maxAge now : Z) (cache : CacheStore)
  : option V * CacheStore :=
  match JsMap.get key cache with
  | None => (None, cache)
  | Some cached =>
      if maxAge <? now - timestamp cached
      then (None, JsMap.delete key cache)
      else (Some (data cached), cache)
  end.

(** [setCachedData(key, data)], at the clock reading [now]. *)
Definition setCachedData (p : TrimPolicy) (key : str) (d : V) (now : Z)
  (cache : CacheStore) : CacheStore :=
  let cache := JsMap.set key {| data := d; timestamp := now |} cache in
  match p with
  | Trim ceiling count =>
      if (ceiling <? JsMap.size cache)%nat
      then
        let oldestKeys := firstn count (JsMap.keys cache) in
        JsMap.delete_all oldestKeys cache
      else cache
  | NoTrim => cache
  end.

(** The operations a client's request path performs on its store. *)
Inductive CacheOp : Type :=
| OpGet (key : str) (maxAge : Z)
| OpSet (key : str) (d : V).

Definition apply_op (p : TrimPolicy) (now : Z) (op : CacheOp)
  (cache : CacheStore) : CacheStore :=
  match op with
  | OpGet key maxAge => snd (getCachedData key maxAge now cache)
  | OpSet key d => setCachedData p key d now cache
  end.

(** A history of operations, each with the clock reading it ran at. *)
Definition run (p : TrimPolicy) (ops : list (Z * CacheOp))
  (cache : CacheStore) : CacheStore :=
  fold_left (fun c top => apply_op p (fst top) (snd top) c) ops cache.

(** The store is within the ceiling of its policy, and a trim removes no
    more entries than the ceiling counts. *)
Definition policy_fits (p : TrimPolicy) (cache : CacheStore) : Prop :=
  match p with
  | Trim ceiling count =>
      (JsMap.size cache <= ceiling)%nat /\ (0 < count <= ceiling)%nat
  | NoTrim => True
  end.

(** The keys [prefix0], [prefix1], ... used to fill a store. *)
Definition numbered_keys (prefix : str) (n : nat) : list str :=
  List.map (fun i => prefix ++ of_Z (Z.of_nat i)) (seq 0 n).

(** [setCachedData(key, d)] for each key in turn, one millisecond apart. *)
Definition fill (p : TrimPolicy) (ks : list str) (d : V) (start : Z)
  (cache : CacheStore) : CacheStore :=
  run p (List.map (fun ik => (start + Z.of_nat (fst ik), OpSet (snd ik) d))
                  (combine (seq 0 (List.length ks)) ks)) cache.

End Cache.
Arguments CacheEntry : clear implicits.
Arguments CacheStore : clear implicits.
Arguments CacheOp : clear implicits.

(** The constants of each service's [setCachedData]. *)
Definition coingecko_policy : TrimPolicy := Trim 100 20.
Definition coindesk_policy : TrimPolicy := Trim 50 10.
Definition arkhamIntel_policy : TrimPolicy := Trim 100 20.
Definition gasEstimation_policy : TrimPolicy := Trim 50 10.
Definition networkMonitoring_policy : TrimPolicy := Trim 100 20.
Definition defiMonitoring_policy : TrimPolicy := NoTrim.

End Cache.

Import Cache.

(* ================================================================== *)
(** ** The world the paced clients run in *)

Module Net.

(** The two clients whose request path is modelled in full. *)
Inductive ServiceName : Type := CoinGecko | CoinDesk.

(** What a GET comes back with and how long it takes (ms). A transport
    failure, a non-2xx status and a timeout are all a thrown error. *)
Record HttpReply (Data : Type) : Type :=
  { latency : N; response_data : Result Data }.
Arguments latency {Data} h.
Arguments response_data {Data} h.

(** Everything outside the process. [Data] is a response body as axios
    hands it over ([response.data]); of it the code only looks at its
    truthiness, at whether a property can be read from it at all, and at
    [bpi.USD.rate]. [http_get] tells what a GET sent by a service at a
    given time to a given endpoint meets. [timer_lateness] is how many
    milliseconds after the requested delay a [setTimeout] armed at the
    given time resolves, as [Date.now()] reads it; it is negative when
    the timer resolves early by that reading, which Node's timers, kept
    on another clock and rounded to the millisecond, can do. *)
Record Env : Type :=
  { Data : Type;
    truthy : Data -> bool;
    nullish : Data -> bool;
    usd_rate : Data -> option str;
    http_get : ServiceName -> Z -> str -> HttpReply Data;
    timer_lateness : Z -> Z;
    coingecko_apiKey : option str }.

Section Net.
Context {E : Env}.

(** The mutable fields of a service object. *)
Record Client : Type :=
  { cache : CacheStore (Data E);
    rateLimitDelay : Z;
    lastRequestTime : Z }.

(** The process: the clock, the two service singletons, and the record of
    every GET that left the process (time sent, sender, endpoint). *)
Record World : Type :=
  { clock : Z;
    coingecko : Client;
    coindesk : Client;
    sent : list (Z * ServiceName * str) }.

Definition client_of (s : ServiceName) (w : World) : Client :=
  match s with CoinGecko => coingecko w | CoinDesk => coindesk w end.

Definition with_client (s : ServiceName) (c : Client) (w : World) : World :=
  match s with
  | CoinGecko => {| clock := clock w; coingecko := c;
                    coindesk := coindesk w; sent := sent w |}
  | CoinDesk => {| clock := clock w; coingecko := coingecko w;
                   coindesk := c; sent := sent w |}
  end.

Definition with_clock (t : Z) (w : World) : World :=
  {| clock := t; coingecko := coingecko w; coindesk := coindesk w;
     sent := sent w |}.

(** [Date.now()] *)
Definition Date_now : M World Z := gets clock.

(** [await new Promise(resolve => setTimeout(resolve, ms))] *)
Definition sleep (ms : Z) : M World unit :=
  modify (fun w =>
    with_clock (clock w + Z.max 0 ms + timer_lateness E (clock w)) w).

(** Time passing between two calls of a caller. *)
Definition idle (ms : N) (w : World) : World :=
  with_clock (clock w + Z.of_N ms) w.

(** [await this.client.get(endpoint, { params })], giving [response.data]. *)
Definition axios_get (s : ServiceName) (endpoint : str) : M World (Data E) :=
  fun w =>
    let r := http_get E s (clock w) endpoint in
    (response_data r,
     {| clock := clock w + Z.of_N (latency r);
        coingecko := coingecko w; coindesk := coindesk w;
        sent := sent w ++ [(clock w, s, endpoint)] |}).

Definition policy_of (s : ServiceName) : TrimPolicy :=
  match s with
  | CoinGecko => coingecko_policy
  | CoinDesk => coindesk_policy
  end.

(** [this.getCachedData(key, maxAge)] *)
Definition getCachedData (s : ServiceName) (key : str) (maxAge : Z)
  : M World (option (Data E)) :=
  fun w =>
    let c := client_of s w in
    let (r, cache') := Cache.getCachedData key maxAge (clock w) (cache c) in
    (Ok r, with_client s {| cache := cache';
                            rateLimitDelay := rateLimitDelay c;
                            lastRequestTime := lastRequestTime c |} w).

(** [this.setCachedData(key, data)] *)
Definition setCachedData (s : ServiceName) (key : str) (d : Data E)
  : M World unit :=
  modify (fun w =>
    let c := client_of s w in
    with_client s
      {| cache := Cache.setCachedData (policy_of s) key d (clock w) (cache c);
         rateLimitDelay := rateLimitDelay c;
         lastRequestTime := lastRequestTime c |} w).

Definition set_lastRequestTime (s : ServiceName) (t : Z) : M World unit :=
  modify (fun w =>
    let c := client_of s w in
    with_client s {| cache := cache c;
                     rateLimitDelay := rateLimitDelay c;
                     lastRequestTime := t |} w).

(** [makeRequest(endpoint, params)] of [CoinGeckoService] and of
    [CoinDeskService], which are the same text. The [logger.error] call of
    the catch block only writes to the log and is left out. *)
Definition makeRequest (s : ServiceName) (endpoint : str)
  : M World (Data E) :=
  (now <- Date_now ;;
   c <- gets (client_of s) ;;
   let timeSinceLastRequest := now - lastRequestTime c in
   (if timeSinceLastRequest <? rateLimitDelay c
    then sleep (rateLimitDelay c - timeSinceLastRequest)
    else ret tt) ;;;
   t <- Date_now ;;
   set_lastRequestTime s t ;;;
   try_catch (axios_get s endpoint) (fun error => throw error))%js.

(** The state the constructors leave: empty caches, no request made. *)
Definition new_client (delay : Z) : Client :=
  {| cache := JsMap.empty; rateLimitDelay := delay; lastRequestTime := 0 |}.

Definition initial_world (start : Z) : World :=
  {| clock := start;
     coingecko :=
       new_client (if truthy_ostr (coingecko_apiKey E) then 100 else 1000);
     coindesk := new_client 1000;
     sent := [] |}.

End Net.
Arguments Client : clear implicits.
Arguments World : clear implicits.
End Net.


(* ================================================================== *)
(** ** Health probes and the aggregate status *)

Module Health.

(** The object a [healthCheck] resolves to. Only [status] is read by the
    aggregator; the other fields are what the two modelled probes add. *)
Record HealthReport : Type :=
  { status : str;
    error : option str;
    responseTime : option Z;
    lastPrice : option str;
    rateLimit : option str }.

Definition report (st : str) : HealthReport :=
  {| status := st; error := None; responseTime := None;
     lastPrice := None; rateLimit := None |}.

(** [{ status: 'error', error: error.message }] *)
Definition error_report (message : Err) : HealthReport :=
  {| status := js "error"; error := Some message; responseTime := None;
     lastPrice := None; rateLimit := None |}.

(** [{ status: 'unknown' }] *)
Definition unknown_report : HealthReport := report (js "unknown").

(** The [TypeError] of reading a property of [null]. *)
Definition type_error (property : string) : Err :=
  js "Cannot read properties of null (reading '" ++ js property ++ js "')".

End Health.

Import Health.

Module CoinGecko.
Section CoinGecko.
Context {E : Net.Env}.

(** [CoinGeckoService.healthCheck]: a GET of [/ping] through
    [makeRequest], without a look at the cache. [logger.apiCall] reads
    [response.status], which throws on a null body. *)
Definition healthCheck : M (Net.World E) HealthReport :=
  try_catch
    (startTime <- Net.Date_now ;;
     response <- Net.makeRequest Net.CoinGecko (js "/ping") ;;
     now <- Net.Date_now ;;
     let duration := now - startTime in
     (if Net.nullish E response then throw (type_error "status") else ret tt) ;;;
     ret {| status := js "healthy";
            error := None;
            responseTime := Some duration;
            lastPrice := None;
            rateLimit := Some (if truthy_ostr (Net.coingecko_apiKey E)
                               then js "pro" else js "free") |})%js
    (fun error => ret (error_report error)).

End CoinGecko.
End CoinGecko.

Module CoinDesk.
Section CoinDesk.
Context {E : Net.Env}.

(** [CoinDeskService.getCurrentBitcoinPrice]. [logger.cryptoEvent] reads
    [data.bpi?.USD?.rate_float], which throws on a null body; the catch
    block logs and rethrows. *)
Definition getCurrentBitcoinPrice : M (Net.World E) (Net.Data E) :=
  (let cacheKey := js "btc-current-price" in
   let fetch :=
     try_catch
       (data <- Net.makeRequest Net.CoinDesk (js "/bpi/currentprice.json") ;;
        Net.setCachedData Net.CoinDesk cacheKey data ;;;
        (if Net.nullish E data then throw (type_error "bpi") else ret tt) ;;;
        ret data)
       (fun error => throw error) in
   cached <- Net.getCachedData Net.CoinDesk cacheKey (60 * 1000) ;;
   match cached with
   | Some hit => if Net.truthy E hit then ret hit else fetch
   | None => fetch
   end)%js.

(** [CoinDeskService.healthCheck]: the probe is a call of
    [getCurrentBitcoinPrice]. *)
Definition healthCheck : M (Net.World E) HealthReport :=
  try_catch
    (startTime <- Net.Date_now ;;
     response <- getCurrentBitcoinPrice ;;
     now <- Net.Date_now ;;
     let duration := now - startTime in
     (if Net.nullish E response then throw (type_error "bpi") else ret tt) ;;;
     ret {| status := js "healthy";
            error := None;
            responseTime := Some duration;
            lastPrice := Net.usd_rate E response;
            rateLimit := None |})%js
    (fun error => ret (error_report error)).

End CoinDesk.
End CoinDesk.

Module ApiServices.
Section ApiServices.
Context {W : Type}.

(** A service object, as far as the aggregator looks at it: it may or may
    not have a [healthCheck] method. *)
Record Service : Type := { healthCheck : option (M W HealthReport) }.

(** The six fields of [ApiServices]. *)
Record Services : Type :=
  { coingecko : Service;
    coindesk : Service;
    arkhamIntel : Service;
    gasEstimation : Service;
    networkMonitoring : Service;
    defiMonitoring : Service }.

(** [Object.entries(services)], in the order of the object literal. *)
Definition entries (api : Services) : list (str * Service) :=
  [ (js "coingecko", coingecko api);
    (js "coindesk", coindesk api);
    (js "arkhamIntel", arkhamIntel api);
    (js "gasEstimation", gasEstimation api);
    (js "networkMonitoring", networkMonitoring api);
    (js "defiMonitoring", defiMonitoring api) ].

(** The object [getOverallStatus] resolves to. [timestamp] is the clock
    reading the ISO string is made from. *)
Record Status : Type :=
  { timestamp : Z;
    services : JsMap.t HealthReport;
    overall : str }.

(** One turn of the loop over the services, on the pair of
    [status.services] and [hasErrors]. *)
Definition probe (name : str) (service : Service)
  (acc : JsMap.t HealthReport * bool) : M W (JsMap.t HealthReport * bool) :=
  try_catch
    (r <- match healthCheck service with
          | Some check => check
          | None => ret unknown_report
          end ;;
     ret (JsMap.set name r (fst acc),
          if streq (status r) (js "error") then true else snd acc))%js
    (fun error => ret (JsMap.set name (error_report error) (fst acc), true)).

Fixpoint probe_all (es : list (str * Service))
  (acc : JsMap.t HealthReport * bool) : M W (JsMap.t HealthReport * bool) :=
  match es with
  | [] => ret acc
  | (name, service) :: rest =>
      (acc' <- probe name service acc ;; probe_all rest acc')%js
  end.

(** [ApiServices.getOverallStatus]; [clock] is the reading [new Date()]
    takes. *)
Definition getOverallStatus (clock : W -> Z) (api : Services) : M W Status :=
  (t <- gets clock ;;
   acc <- probe_all (entries api) (JsMap.empty, false) ;;
   ret {| timestamp := t;
          services := fst acc;
          overall := if snd acc then js "degraded" else js "healthy" |})%js.

(** What one service contributes, told without the loop: the outcome of
    its probe, if it has one. *)
Definition run_probe (service : Service) (w : W)
  : option (Result HealthReport) * W :=
  match healthCheck service with
  | Some check => let (r, w') := check w in (Some r, w')
  | None => (None, w)
  end.

(** The outcomes of the probes, each run once, in order, each in the state
    the one before it left. *)
Fixpoint run_probes (es : list (str * Service)) (w : W)
  : list (str * option (Result HealthReport)) * W :=
  match es with
  | [] => ([], w)
  | (name, service) :: rest =>
      let (o, w1) := run_probe service w in
      let (os, w2) := run_probes rest w1 in
      ((name, o) :: os, w2)
  end.

(** The entry an outcome becomes. *)
Definition entry_of (o : option (Result HealthReport)) : HealthReport :=
  match o with
  | Some (Ok r) => r
  | Some (Thrown message) => error_report message
  | None => unknown_report
  end.

(** The probe reported status ['error'] or threw. *)
Definition failing (o : option (Result HealthReport)) : bool :=
  match o with
  | Some (Ok r) => streq (status r) (js "error")
  | Some (Thrown _) => true
  | None => false
  end.

End ApiServices.
Arguments Service : clear implicits.
Arguments Services : clear implicits.
End ApiServices.


(* ================================================================== *)
(** ** Reading the pacing off a call *)

Module Pacing.
Section Pacing.
Context {E : Net.Env}.

(** The reading [makeRequest] stores in [lastRequestTime], which is the
    moment its GET leaves, for a call entered in the state [w]. *)
Definition issue_time (s : Net.ServiceName) (w : Net.World E) : Z :=
  let c := Net.client_of s w in
  let now := Net.clock w in
  let timeSinceLastRequest := now - Net.lastRequestTime c in
  if timeSinceLastRequest <? Net.rateLimitDelay c
  then now + Z.max 0 (Net.rateLimitDelay c - timeSinceLastRequest)
       + Net.timer_lateness E now
  else now.

(** Two calls of [makeRequest] on one client by one caller, the second
    entered [gap] ms after the first resolved or rejected. *)
Definition two_calls (s : Net.ServiceName) (endpoint1 endpoint2 : str)
  (gap : N) (w : Net.World E) : Net.World E * Net.World E :=
  let w1 := snd (Net.makeRequest s endpoint1 w) in
  let w2 := snd (Net.makeRequest s endpoint2 (Net.idle gap w1)) in
  (w1, w2).

End Pacing.
End Pacing.

(** A world for examples: bodies are integers, of which only zero is
    falsy and none is null; the upstream answers [42000] after 10 ms to
    every GET sent before [down_at], and refuses the connection after
    5 ms from then on; timers are punctual; no CoinGecko key is set. *)
Definition example_env (down_at : Z) : Net.Env :=
  {| Net.Data := Z;
     Net.truthy := fun d => negb (d =? 0);
     Net.nullish := fun _ => false;
     Net.usd_rate := fun d => Some (of_Z d);
     Net.http_get := fun _ t _ =>
       if t <? down_at
       then {| Net.latency := 10; Net.response_data := Ok 42000 |}
       else {| Net.latency := 5;
               Net.response_data := Thrown (js "connect ECONNREFUSED") |};
     Net.timer_lateness := fun _ => 0;
     Net.coingecko_apiKey := None |}.

(** A world with the paid CoinGecko key, replies after 10 ms, and timers
    that resolve one millisecond early by the reading of [Date.now()]. *)
Definition early_timer_env : Net.Env :=
  {| Net.Data := Z;
     Net.truthy := fun d => negb (d =? 0);
     Net.nullish := fun _ => false;
     Net.usd_rate := fun d => Some (of_Z d);
     Net.http_get := fun _ _ _ =>
       {| Net.latency := 10; Net.response_data := Ok 42000 |};
     Net.timer_lateness := fun _ => -1;
     Net.coingecko_apiKey := Some (js "CG-key") |}.


(** The service table with the two modelled probes in place; the probes of
    the other four services are given. *)
Definition services_with {E : Net.Env}
  (arkham gas network defi : ApiServices.Service (Net.World E))
  : ApiServices.Services (Net.World E) :=
  {| ApiServices.coingecko :=
       {| ApiServices.healthCheck := Some CoinGecko.healthCheck |};
     ApiServices.coindesk :=
       {| ApiServices.healthCheck := Some CoinDesk.healthCheck |};
     ApiServices.arkhamIntel := arkham;
     ApiServices.gasEstimation := gas;
     ApiServices.networkMonitoring := network;
     ApiServices.defiMonitoring := defi |}.

(** A probe that reports healthy without doing anything. *)
Definition quiet_probe {W : Type} : ApiServices.Service W :=
  {| ApiServices.healthCheck := Some (ret (report (js "healthy"))) |}.

(** The status call of the examples: the upstream goes down at
    [down_at]; the first call is made at 1000000. *)
Definition example_status (down_at : Z)
  : M (Net.World (example_env down_at)) ApiServices.Status :=
  ApiServices.getOverallStatus Net.clock
    (services_with quiet_probe quiet_probe quiet_probe quiet_probe).


(* ================================================================== *)
(** ** The task runner *)

Module ScheduledTasks.

(** What reaches the logger; metadata objects are left out. *)
Inductive LogEntry : Type :=
| LogInfo (message : str)
| LogWarn (message : str) (detail : option str)
| LogError (message : str) (error : Err)
| LogPerformance (operation : str) (duration : Z).

Section ScheduledTasks.
Context {X : Type}.

(** What a task body can reach: the clock, the logger and the services
    ([X]). The runner's own fields are not among them. *)
Record Outside : Type :=
  { clock : Z;
    log : list LogEntry;
    services : X }.

Definition Date_now : M Outside Z := gets clock.

Definition logger (e : LogEntry) : M Outside unit :=
  modify (fun o => {| clock := clock o; log := log o ++ [e];
                      services := services o |}).

(** A zero-argument async function. *)
Definition TaskFunction : Type := M Outside unit.

(** The task object [cron.schedule] returns (node-cron 3). Its callback
    is always the arrow function of [addTask], kept here as the two
    variables it closes over; [scheduled] tells whether the timer is
    started, and only a started timer fires. *)
Record CronTask : Type :=
  { expression : str;
    name : str;
    taskFunction : TaskFunction;
    scheduled : bool }.

(** [task.stop()] *)
Definition CronTask_stop (task : CronTask) : CronTask :=
  {| expression := expression task; name := name task;
     taskFunction := taskFunction task; scheduled := false |}.

(** [cron.schedule(expression, callback, { scheduled })]: the timer is
    started unless [scheduled] is [false]. The expression is taken to be
    one node-cron accepts; it throws on one it cannot parse, which is
    not modelled. *)
Definition cron_schedule (schedule name : str) (f : TaskFunction)
  (scheduled : bool) : CronTask :=
  {| expression := schedule; name := name; taskFunction := f;
     scheduled := scheduled |}.

(** The fields of the [ScheduledTasks] singleton, and what is outside. *)
Record State : Type :=
  { tasks : JsMap.t CronTask;
    isRunning : bool;
    outside : Outside }.

Definition new_ScheduledTasks (o : Outside) : State :=
  {| tasks := JsMap.empty; isRunning := false; outside := o |}.

Definition log_here (e : LogEntry) (st : State) : State :=
  {| tasks := tasks st; isRunning := isRunning st;
     outside := snd (logger e (outside st)) |}.

(** The arrow function [addTask] hands to [cron.schedule]. *)
Definition firing (name : str) (taskFunction : TaskFunction)
  : M Outside unit :=
  (startTime <- Date_now ;;
   logger (LogInfo (js "Starting scheduled task: " ++ name)) ;;;
   try_catch
     (taskFunction ;;;
      now <- Date_now ;;
      let duration := now - startTime in
      logger (LogPerformance (js "Task " ++ name) duration))
     (fun error =>
        now <- Date_now ;;
        let duration := now - startTime in
        logger (LogError (js "Task " ++ name ++ js " failed after "
                          ++ of_Z duration ++ js "ms:") error)))%js.

(** [addTask(name, schedule, taskFunction)] *)
Definition addTask (name schedule : str) (taskFunction : TaskFunction)
  (st : State) : State :=
  let st :=
    match JsMap.get name (tasks st) with
    | Some old =>
        let st := log_here (LogWarn (js "Task " ++ name
                             ++ js " already exists, replacing...") None) st in
        {| tasks := JsMap.set name (CronTask_stop old) (tasks st);
           isRunning := isRunning st; outside := outside st |}
    | None => st
    end in
  let task := cron_schedule schedule name taskFunction (isRunning st) in
  let st := {| tasks := JsMap.set name task (tasks st);
               isRunning := isRunning st; outside := outside st |} in
  log_here (LogInfo (js "Added scheduled task: " ++ name ++ js " ("
                     ++ schedule ++ js ")")) st.

(** The service methods the five built-in tasks call, and the one
    configuration value [start] reads. [market_updates] is
    [apiServices.coingecko.updateTopCryptos()] and
    [apiServices.coindesk.updateBitcoinData()] together:
    [updateMarketData] calls the second without awaiting the first, so
    their steps interleave; the field gives the outcomes of the two
    promises once both have settled and the state they leave. *)
Record Ops : Type :=
  { updateGasPrices : M Outside unit;
    market_updates : Outside -> (Result unit * Result unit) * Outside;
    updateAllProtocols : M Outside unit;
    scanAllNetworks : M Outside unit;
    getOverallStatus : M Outside ApiServices.Status;
    updateIntervalMinutes : Z }.

(** [updateMarketData]: both updates are started, and
    [await Promise.allSettled(promises)] resolves once both have
    settled, whatever either rejects with. *)
Definition updateMarketData (ops : Ops) : M Outside unit :=
  fun o => let (_, o') := market_updates ops o in (Ok tt, o').

(** The body shared by four of the built-in tasks. *)
Definition guarded (work : M Outside unit) (done failed : string)
  : TaskFunction :=
  try_catch
    (work ;;; logger (LogInfo (js done)))%js
    (fun error => logger (LogError (js failed) error)).

Fixpoint warn_unhealthy (entries : list (str * HealthReport))
  : M Outside unit :=
  match entries with
  | [] => ret tt
  | (name, serviceStatus) :: rest =>
      ((if streq (status serviceStatus) (js "error")
        then logger (LogWarn (js "Service " ++ name ++ js " is unhealthy:")
                             (error serviceStatus))
        else ret tt) ;;;
       warn_unhealthy rest)%js
  end.

Definition health_check_task (ops : Ops) : TaskFunction :=
  try_catch
    (st <- getOverallStatus ops ;;
     logger (LogInfo (js "Health check completed")) ;;;
     warn_unhealthy (ApiServices.services st))%js
    (fun error => logger (LogError (js "Health check failed:") error)).

(** [start()] *)
Definition start (ops : Ops) (st : State) : State :=
  if isRunning st
  then log_here (LogWarn (js "Scheduled tasks already running") None) st
  else
    let st := log_here (LogInfo (js "Starting scheduled tasks...")) st in
    let st := addTask (js "gas-monitoring") (js "*/5 * * * *")
                (guarded (updateGasPrices ops)
                   "Gas price monitoring completed"
                   "Gas price monitoring failed:") st in
    let st := addTask (js "market-data") (js "*/15 * * * *")
                (guarded (updateMarketData ops)
                   "Market data update completed"
                   "Market data update failed:") st in
    let st := addTask (js "defi-monitoring")
                (js "*/" ++ of_Z (updateIntervalMinutes ops) ++ js " * * * *")
                (guarded (updateAllProtocols ops)
                   "DeFi monitoring completed"
                   "DeFi monitoring failed:") st in
    let st := addTask (js "network-monitoring") (js "0 * * * *")
                (guarded (scanAllNetworks ops)
                   "Network monitoring completed"
                   "Network monitoring failed:") st in
    let st := addTask (js "health-check") (js "*/10 * * * *")
                (health_check_task ops) st in
    let st := {| tasks := tasks st; isRunning := true;
                 outside := outside st |} in
    log_here (LogInfo (js "Started "
                       ++ of_Z (Z.of_nat (JsMap.size (tasks st)))
                       ++ js " scheduled tasks")) st.

(** [stop()] *)
Definition stop (st : State) : State :=
  if negb (isRunning st)
  then log_here (LogWarn (js "Scheduled tasks not running") None) st
  else
    let st := log_here (LogInfo (js "Stopping scheduled tasks...")) st in
    let st :=
      fold_left
        (fun st kv =>
           let st := {| tasks := JsMap.set (fst kv) (CronTask_stop (snd kv))
                                   (tasks st);
                        isRunning := isRunning st; outside := outside st |} in
           log_here (LogInfo (js "Stopped task: " ++ fst kv)) st)
        (tasks st) st in
    let st := {| tasks := JsMap.empty; isRunning := false;
                 outside := outside st |} in
    log_here (LogInfo (js "All scheduled tasks stopped")) st.

(** The timer of the task registered under [key] fires: node-cron calls
    the callback of a started timer when its schedule matches. There is
    no firing for a key that is not registered or whose timer is not
    started. *)
Definition fire (key : str) (st : State) : option (Result unit * State) :=
  match JsMap.get key (tasks st) with
  | Some task =>
      if scheduled task
      then
        let (r, o) := firing (name task) (taskFunction task) (outside st) in
        Some (r, {| tasks := tasks st; isRunning := isRunning st;
                    outside := o |})
      else None
  | None => None
  end.

(** Firings one after the other; a key without a started timer is
    skipped. The results of the callbacks are collected. *)
Fixpoint fire_all (keys : list str) (st : State)
  : list (Result unit) * State :=
  match keys with
  | [] => ([], st)
  | key :: rest =>
      match fire key st with
      | Some (r, st') =>
          let (rs, st'') := fire_all rest st' in (r :: rs, st'')
      | None => fire_all rest st
      end
  end.

(** A task body that takes [ms] milliseconds. *)
Definition takes (ms : N) (r : Result unit) : TaskFunction :=
  fun o => (r, {| clock := clock o + Z.of_N ms; log := log o;
                  services := services o |}).

End ScheduledTasks.
Arguments Outside : clear implicits.
Arguments State : clear implicits.
Arguments Ops : clear implicits.
Arguments CronTask : clear implicits.
Arguments TaskFunction : clear implicits.
End ScheduledTasks.


(** Service methods that do nothing, for examples. *)
Definition idle_ops : ScheduledTasks.Ops unit :=
  {| ScheduledTasks.updateGasPrices := ret tt;
     ScheduledTasks.market_updates := fun o => ((Ok tt, Ok tt), o);
     ScheduledTasks.updateAllProtocols := ret tt;
     ScheduledTasks.scanAllNetworks := ret tt;
     ScheduledTasks.getOverallStatus :=
       ret {| ApiServices.timestamp := 0; ApiServices.services := [];
              ApiServices.overall := js "healthy" |};
     ScheduledTasks.updateIntervalMinutes := 30 |}.

(** A fresh process at clock reading [t], with nothing logged. *)
Definition quiet_outside (t : Z) : ScheduledTasks.Outside unit :=
  {| ScheduledTasks.clock := t; ScheduledTasks.log := [];
     ScheduledTasks.services := tt |}.

(** [start()], then [addTask('t1', '* * * * *', fails)], where [fails]
    rejects with [boom] after 25 ms. *)
Definition example_runner : ScheduledTasks.State unit :=
  ScheduledTasks.addTask (js "t1") (js "* * * * *")
    (ScheduledTasks.takes 25 (Thrown (js "boom")))
    (ScheduledTasks.start idle_ops
       (ScheduledTasks.new_ScheduledTasks (quiet_outside 1000000))).


(* ================================================================== *)
(** ** Node's [crypto] and [Buffer], as far as the dispatcher uses them *)

Module Crypto.

(** [Buffer.from(s)]: the UTF-8 bytes of a string; a surrogate without its
    partner is written as U+FFFD. Bytes are integers below 256. *)
Fixpoint utf8 (s : str) : list Z :=
  match s with
  | [] => []
  | c :: r =>
      let u := Z.of_N c in
      if u <? 0x80 then u :: utf8 r
      else if u <? 0x800
      then Z.lor 0xC0 (Z.shiftr u 6) :: Z.lor 0x80 (Z.land u 0x3F) :: utf8 r
      else if (0xD800 <=? u) && (u <? 0xDC00)
      then
        match r with
        | c2 :: r' =>
            let l := Z.of_N c2 in
            if (0xDC00 <=? l) && (l <? 0xE000)
            then
              let cp := 0x10000 + Z.shiftl (u - 0xD800) 10 + (l - 0xDC00) in
              Z.lor 0xF0 (Z.shiftr cp 18)
              :: Z.lor 0x80 (Z.land (Z.shiftr cp 12) 0x3F)
              :: Z.lor 0x80 (Z.land (Z.shiftr cp 6) 0x3F)
              :: Z.lor 0x80 (Z.land cp 0x3F) :: utf8 r'
            else 0xEF :: 0xBF :: 0xBD :: utf8 r
        | [] => [0xEF; 0xBF; 0xBD]
        end
      else if (0xDC00 <=? u) && (u <? 0xE000)
      then 0xEF :: 0xBF :: 0xBD :: utf8 r
      else Z.lor 0xE0 (Z.shiftr u 12)
           :: Z.lor 0x80 (Z.land (Z.shiftr u 6) 0x3F)
           :: Z.lor 0x80 (Z.land u 0x3F) :: utf8 r
  end.

(** *** SHA-256 (FIPS 180-4) on 32-bit words kept in [Z] *)

Definition mask32 : Z := 0xFFFFFFFF.
Definition add32 (x y : Z) : Z := (x + y) mod 2 ^ 32.
Definition rotr (n x : Z) : Z :=
  Z.lor (Z.shiftr x n) (Z.land (Z.shiftl x (32 - n)) mask32).
Definition Ch (x y z : Z) : Z :=
  Z.lxor (Z.land x y) (Z.land (Z.lxor x mask32) z).
Definition Maj (x y z : Z) : Z :=
  Z.lxor (Z.land x y) (Z.lxor (Z.land x z) (Z.land y z)).
Definition bigsigma0 (x : Z) : Z :=
  Z.lxor (rotr 2 x) (Z.lxor (rotr 13 x) (rotr 22 x)).
Definition bigsigma1 (x : Z) : Z :=
  Z.lxor (rotr 6 x) (Z.lxor (rotr 11 x) (rotr 25 x)).
Definition smallsigma0 (x : Z) : Z :=
  Z.lxor (rotr 7 x) (Z.lxor (rotr 18 x) (Z.shiftr x 3)).
Definition smallsigma1 (x : Z) : Z :=
  Z.lxor (rotr 17 x) (Z.lxor (rotr 19 x) (Z.shiftr x 10)).

Definition is_prime (n : Z) : bool :=
  forallb (fun d => negb (n mod d =? 0))
          (List.map Z.of_nat (seq 2 (Z.to_nat n - 2))).

Definition first_primes (count : nat) : list Z :=
  firstn count (List.filter is_prime (List.map Z.of_nat (seq 2 310))).

(** The largest [r] below [2 ^ bits] with [r ^ 3 <= n], found bit by bit
    from a start [r]. *)
Fixpoint cube_root (bits : nat) (n r : Z) : Z :=
  match bits with
  | O => r
  | S b =>
      let r' := r + 2 ^ Z.of_nat b in
      if r' ^ 3 <=? n then cube_root b n r' else cube_root b n r
  end.

(** The round constants: the first 32 bits of the fractional parts of the
    cube roots of the first 64 primes. *)
Definition K : list Z :=
  Eval vm_compute in
    List.map (fun p => cube_root 36 (p * 2 ^ 96) 0 mod 2 ^ 32)
             (first_primes 64).

(** A hash value: eight words. *)
Record Hash : Type :=
  { h0 : Z; h1 : Z; h2 : Z; h3 : Z; h4 : Z; h5 : Z; h6 : Z; h7 : Z }.

(** The initial hash value: the first 32 bits of the fractional parts of
    the square roots of the first 8 primes. *)
Definition H0 : Hash :=
  Eval vm_compute in
    let primes := first_primes 8 in
    let r := fun i => Z.sqrt (nth i primes 0 * 2 ^ 64) mod 2 ^ 32 in
    {| h0 := r 0%nat; h1 := r 1%nat; h2 := r 2%nat; h3 := r 3%nat;
       h4 := r 4%nat; h5 := r 5%nat; h6 := r 6%nat; h7 := r 7%nat |}.

(** The message is padded to a multiple of 64 bytes. *)
Definition be_bytes (width : nat) (x : Z) : list Z :=
  List.map (fun i => Z.shiftr x (8 * Z.of_nat i) mod 256) (rev (seq 0 width)).

Definition pad (msg : list Z) : list Z :=
  let len := Z.of_nat (List.length msg) in
  msg ++ [0x80] ++ repeat 0 (Z.to_nat ((55 - len) mod 64))
      ++ be_bytes 8 (8 * len).

Fixpoint blocks (count : nat) (l : list Z) : list (list Z) :=
  match count with
  | O => []
  | S c => firstn 64 l :: blocks c (skipn 64 l)
  end.

Fixpoint words (count : nat) (l : list Z) : list Z :=
  match count, l with
  | S c, b0 :: b1 :: b2 :: b3 :: r =>
      (b0 * 2 ^ 24 + b1 * 2 ^ 16 + b2 * 2 ^ 8 + b3) :: words c r
  | _, _ => []
  end.

(** The message schedule, latest word first. *)
Fixpoint extend (count : nat) (w : list Z) : list Z :=
  match count with
  | O => w
  | S c =>
      let x := add32 (add32 (smallsigma1 (nth 1 w 0)) (nth 6 w 0))
                     (add32 (smallsigma0 (nth 14 w 0)) (nth 15 w 0)) in
      extend c (x :: w)
  end.

Definition schedule (block : list Z) : list Z :=
  rev (extend 48 (rev (words 16 block))).

Definition round (s : Hash) (kw : Z * Z) : Hash :=
  let t1 := add32 (add32 (add32 (h7 s) (bigsigma1 (h4 s)))
                         (add32 (Ch (h4 s) (h5 s) (h6 s)) (fst kw)))
                  (snd kw) in
  let t2 := add32 (bigsigma0 (h0 s)) (Maj (h0 s) (h1 s) (h2 s)) in
  {| h0 := add32 t1 t2; h1 := h0 s; h2 := h1 s; h3 := h2 s;
     h4 := add32 (h3 s) t1; h5 := h4 s; h6 := h5 s; h7 := h6 s |}.

Definition compress (s : Hash) (block : list Z) : Hash :=
  let r := fold_left round (combine K (schedule block)) s in
  {| h0 := add32 (h0 s) (h0 r); h1 := add32 (h1 s) (h1 r);
     h2 := add32 (h2 s) (h2 r); h3 := add32 (h3 s) (h3 r);
     h4 := add32 (h4 s) (h4 r); h5 := add32 (h5 s) (h5 r);
     h6 := add32 (h6 s) (h6 r); h7 := add32 (h7 s) (h7 r) |}.

Definition sha256 (msg : list Z) : Hash :=
  let padded := pad msg in
  fold_left compress (blocks (List.length padded / 64) padded) H0.

(** The 32 bytes of a hash value. *)
Definition digest_bytes (h : Hash) : list Z :=
  be_bytes 4 (h0 h) ++ be_bytes 4 (h1 h) ++ be_bytes 4 (h2 h)
  ++ be_bytes 4 (h3 h) ++ be_bytes 4 (h4 h) ++ be_bytes 4 (h5 h)
  ++ be_bytes 4 (h6 h) ++ be_bytes 4 (h7 h).

(** *** HMAC (RFC 2104) with SHA-256 *)

Definition hmac_sha256 (key msg : list Z) : Hash :=
  let key := if (64 <? List.length key)%nat
             then digest_bytes (sha256 key) else key in
  let key := key ++ repeat 0 (64 - List.length key) in
  let inner := sha256 (List.map (Z.lxor 0x36) key ++ msg) in
  sha256 (List.map (Z.lxor 0x5c) key ++ digest_bytes inner).

Definition hex_digit (n : Z) : N :=
  nth (Z.to_nat n) (js "0123456789abcdef") 0%N.

Definition hex_byte (b : Z) : str := [hex_digit (b / 16); hex_digit (b mod 16)].

(** [.digest('hex')] *)
Definition digest_hex (h : Hash) : str := flat_map hex_byte (digest_bytes h).

(** [crypto.createHmac('sha256', secret).update(message).digest('hex')],
    on strings. *)
Definition createHmac_sha256_hex (secret message : str) : str :=
  digest_hex (hmac_sha256 (utf8 secret) (utf8 message)).

Fixpoint bytes_eqb (a b : list Z) : bool :=
  match a, b with
  | [], [] => true
  | x :: a', y :: b' => (x =? y) && bytes_eqb a' b'
  | _, _ => false
  end.

(** [crypto.timingSafeEqual(a, b)]: a [RangeError] when the two buffers
    differ in byte length. *)
Definition timingSafeEqual (a b : list Z) : Result bool :=
  if (List.length a =? List.length b)%nat
  then Ok (bytes_eqb a b)
  else Thrown (js "Input buffers must have the same byte length").

End Crypto.


(* ================================================================== *)
(** ** String methods and regular expressions *)

Module Text.

(** [s.startsWith(p)], giving what follows the prefix. *)
Fixpoint strip_prefix (p s : str) : option str :=
  match p, s with
  | [], _ => Some s
  | x :: p', y :: s' => if N.eqb x y then strip_prefix p' s' else None
  | _ :: _, [] => None
  end.

(** [s.includes(sub)] *)
Fixpoint includes (s sub : str) : bool :=
  match strip_prefix sub s with
  | Some _ => true
  | None => match s with [] => false | _ :: r => includes r sub end
  end.

(** [s.split(sep)] for a separator of one code unit. *)
Fixpoint split (sep : N) (s : str) : list str :=
  match s with
  | [] => [[]]
  | c :: r =>
      if N.eqb c sep then [] :: split sep r
      else match split sep r with
           | h :: t => (c :: h) :: t
           | [] => [[c]]
           end
  end.

(** The class [\s]. *)
Definition is_space (c : N) : bool :=
  ((9 <=? c) && (c <=? 13) || (c =? 32) || (c =? 160) || (c =? 5760)
   || (8192 <=? c) && (c <=? 8202) || (c =? 8232) || (c =? 8233)
   || (c =? 8239) || (c =? 8287) || (c =? 12288) || (c =? 65279))%N.

(** The class [\w]. *)
Definition is_word (c : N) : bool :=
  ((48 <=? c) && (c <=? 57) || (65 <=? c) && (c <=? 90) || (c =? 95)
   || (97 <=? c) && (c <=? 122))%N.

(** The class [.]: anything but a line terminator. *)
Definition is_dot (c : N) : bool :=
  negb ((c =? 10) || (c =? 13) || (c =? 8232) || (c =? 8233))%N.

(** The regular expressions the dispatcher needs. *)
Inductive Regex : Type :=
| Lit (s : str)
| Plus (class : N -> bool)
| Cat (r1 r2 : Regex)
| Opt (r : Regex)
| Group (i : nat) (r : Regex).

(** Capture groups that took part in the match. *)
Definition Captures : Type := list (nat * str).

Fixpoint capture (i : nat) (m : Captures) : option str :=
  match m with
  | [] => None
  | (j, s) :: r => if Nat.eqb i j then Some s else capture i r
  end.

Section Matcher.
Context {R : Type}.

(** [class*], greedy: the longest run is tried first, then shorter ones. *)
Fixpoint greedy (class : N -> bool) (s : str) (k : str -> option R)
  : option R :=
  match s with
  | c :: r =>
      if class c
      then match greedy class r k with
           | Some x => Some x
           | None => k s
           end
      else k s
  | [] => k s
  end.

Definition plus (class : N -> bool) (s : str) (k : str -> option R)
  : option R :=
  match s with
  | c :: r => if class c then greedy class r k else None
  | [] => None
  end.

End Matcher.

(** A backtracking matcher: [run re s m k] matches [re] at the start of
    [s] and hands the rest of the string to [k]; when [k] fails the next
    alternative is tried. *)
Fixpoint run (re : Regex) (s : str) (m : Captures)
  (k : str -> Captures -> option Captures) : option Captures :=
  match re with
  | Lit p =>
      match strip_prefix p s with
      | Some r => k r m
      | None => None
      end
  | Plus class => plus class s (fun r => k r m)
  | Cat r1 r2 => run r1 s m (fun s' m' => run r2 s' m' k)
  | Opt r =>
      match run r s m k with
      | Some x => Some x
      | None => k s m
      end
  | Group i r =>
      run r s m
        (fun s' m' =>
           k s' ((i, firstn (List.length s - List.length s') s) :: m'))
  end.

(** [s.match(re)] without the [g] flag: the first position that matches. *)
Fixpoint exec (re : Regex) (s : str) : option Captures :=
  match run re s [] (fun _ m => Some m) with
  | Some m => Some m
  | None => match s with [] => None | _ :: r => exec re r end
  end.

End Text.

(* ================================================================== *)
(** ** The webhook dispatcher *)

Module WebhookHandler.

(** What [this.eventHandlers[event]] can find: one of the seven methods
    registered in [eventHandlers], or, the table being a plain object,
    the member of [Object.prototype] of that name. *)
Inductive HandlerName : Type :=
| handlePush
| handlePullRequest
| handleRepository
| handleInstallation
| handleInstallationRepositories
| handleIssues
| handleIssueComment_
| inherited (name : str).

(** The own properties of [this.eventHandlers]. *)
Definition eventHandlers : list (str * HandlerName) :=
  [ (js "push", handlePush);
    (js "pull_request", handlePullRequest);
    (js "repository", handleRepository);
    (js "installation", handleInstallation);
    (js "installation_repositories", handleInstallationRepositories);
    (js "issues", handleIssues);
    (js "issue_comment", handleIssueComment_) ].

Fixpoint own_property (event : str) (table : list (str * HandlerName))
  : option HandlerName :=
  match table with
  | [] => None
  | (name, h) :: r =>
      if streq name event then Some h else own_property event r
  end.

(** The property names of [Object.prototype]. *)
Definition Object_prototype : list str :=
  [ js "constructor"; js "__defineGetter__"; js "__defineSetter__";
    js "hasOwnProperty"; js "__lookupGetter__"; js "__lookupSetter__";
    js "isPrototypeOf"; js "propertyIsEnumerable"; js "toString";
    js "valueOf"; js "__proto__"; js "toLocaleString" ].

(** [table[event]] on a plain object: the own property of that name, or
    else what the prototype chain has under it. *)
Definition lookup (event : str) (table : list (str * HandlerName))
  : option HandlerName :=
  match own_property event table with
  | Some h => Some h
  | None =>
      if existsb (streq event) Object_prototype
      then Some (inherited event) else None
  end.

(** The fields of an [issue_comment] payload the dispatcher reads. *)
Record IssueCommentPayload : Type :=
  { action : str;
    comment_body : str;
    issue_number : Z;
    owner : str;
    repo : str;
    installation_id : Z }.

(** [{ command, args }] *)
Record BotCommand : Type := { command : str; args : list str }.

Definition mention : str := js "@crypto-intel-bot".

(** [/@crypto-intel-bot\s+(\w+)(?:\s+(.+))?/] *)
Definition mention_re : Text.Regex :=
  Text.Cat (Text.Lit mention)
    (Text.Cat (Text.Plus Text.is_space)
       (Text.Cat (Text.Group 1 (Text.Plus Text.is_word))
          (Text.Opt (Text.Cat (Text.Plus Text.is_space)
                       (Text.Group 2 (Text.Plus Text.is_dot)))))).


(** [parseBotCommands(commentBody)] *)
Definition parseBotCommands (commentBody : str) : list BotCommand :=
  let lines := Text.split 10 commentBody in
  fold_left
    (fun commands line =>
       if Text.includes line mention
       then
         match Text.exec mention_re line with
         | Some m =>
             match Text.capture 1 m with
             | Some word =>
                 commands ++
                 [{| command := word;
                     args := match Text.capture 2 m with
                             | Some rest =>
                                 if truthy_str rest
                                 then Text.split 32 rest else []
                             | None => []
                             end |}]
             | None => commands
             end
         | None => commands
         end
       else commands)
    lines [].

(** What a handler does outside the dispatcher. The other six handlers
    are opaque: each is one call. *)
Inductive Call : Type :=
| analyzeRepository (owner repo : str)
| updateDeployments (owner repo : str)
| getOverallStatus
| getInstallationOctokit (installationId : Z)
| createComment (owner repo : str) (issue_number : Z) (body : str)
| otherHandler (h : HandlerName).

(** [res.status(code).json(body)] *)
Inductive ResponseBody : Type :=
| message_body (message : str)
| error_body (error : str).

Record Response : Type := { code : Z; json : ResponseBody }.

(** Everything outside the dispatcher. [Payload] is the parsed request
    body, [JSON_stringify] its serialisation, [issue_comment] its reading
    as a comment event. [call_result] tells how a call ends given the
    calls made so far; [overall_status] is what [getOverallStatus]
    resolves to (it never rejects) and [stringify_status] is
    [JSON.stringify(status, null, 2)]. *)
Record Env : Type :=
  { Payload : Type;
    JSON_stringify : Payload -> str;
    issue_comment : Payload -> IssueCommentPayload;
    call_result : list Call -> Call -> Result unit;
    overall_status : list Call -> ApiServices.Status;
    stringify_status : ApiServices.Status -> str }.

(** The calls made so far, the responses written so far, and, for the
    statements below, the handlers [handle] has called so far. *)
Record World : Type :=
  { calls : list Call;
    responses : list Response;
    dispatched : list HandlerName }.

Definition new_world : World :=
  {| calls := []; responses := []; dispatched := [] |}.

Section WebhookHandler.
Context {E : Env}.

Definition call (c : Call) : M World unit :=
  fun w => (call_result E (calls w) c,
            {| calls := calls w ++ [c]; responses := responses w;
               dispatched := dispatched w |}).

Definition call_getOverallStatus : M World ApiServices.Status :=
  fun w => (Ok (overall_status E (calls w)),
            {| calls := calls w ++ [getOverallStatus];
               responses := responses w; dispatched := dispatched w |}).

Definition respond (code : Z) (body : ResponseBody) : M World unit :=
  modify (fun w => {| calls := calls w;
                      responses := responses w
                                   ++ [{| code := code; json := body |}];
                      dispatched := dispatched w |}).

Definition note_dispatch (h : HandlerName) : M World unit :=
  modify (fun w => {| calls := calls w; responses := responses w;
                      dispatched := dispatched w ++ [h] |}).

(** [verifySignature(payload, signature, secret)] *)
Definition verifySignature (payload : Payload E)
  (signature secret : option str) : Result bool :=
  match signature, secret with
  | Some signature, Some secret =>
      if negb (truthy_str signature) || negb (truthy_str secret)
      then Ok false
      else
        let digest :=
          js "sha256=" ++
          Crypto.createHmac_sha256_hex secret (JSON_stringify E payload) in
        Crypto.timingSafeEqual (Crypto.utf8 signature) (Crypto.utf8 digest)
  | _, _ => Ok false
  end.

(** [replyToCommand]: a failure to post the comment is logged and
    swallowed. *)
Definition replyToCommand (owner repo : str) (issueNumber : Z)
  (message : str) : M World unit :=
  try_catch (call (createComment owner repo issueNumber message))
            (fun _ => ret tt).

(** The replies of [executeBotCommand]; each begins with an emoji. *)
Definition reply_analyze : str :=
  9989%N :: js " Gas analysis started for this repository.".

Definition reply_monitor : str :=
  9989%N :: js " Network monitoring activated for this repository.".

Definition reply_status (st : ApiServices.Status) : str :=
  [55357; 56522]%N ++ js " **Current Status:**" ++ [10%N]
  ++ stringify_status E st.

Definition reply_unknown (cmd : str) : str :=
  10067%N :: js " Unknown command: `" ++ cmd
  ++ js "`. Available commands: analyze, monitor, status".

Definition reply_failed (error : Err) : str :=
  10060%N :: js " Command failed: " ++ error.

(** [executeBotCommand(command, octokit, owner, repo, issueNumber)] *)
Definition executeBotCommand (c : BotCommand) (owner repo : str)
  (issueNumber : Z) : M World unit :=
  let cmd := command c in
  try_catch
    (if streq cmd (js "analyze") then
       (call (analyzeRepository owner repo) ;;;
        replyToCommand owner repo issueNumber reply_analyze)%js
     else if streq cmd (js "monitor") then
       (call (updateDeployments owner repo) ;;;
        replyToCommand owner repo issueNumber reply_monitor)%js
     else if streq cmd (js "status") then
       (st <- call_getOverallStatus ;;
        replyToCommand owner repo issueNumber (reply_status st))%js
     else
       replyToCommand owner repo issueNumber (reply_unknown cmd))
    (fun error =>
       replyToCommand owner repo issueNumber (reply_failed error)).

(** The dispatch table, told by the calls a command makes given the
    calls made before it: the action of
    [analyze] or [monitor] and then a reply that tells how it ended, the
    aggregate status and then a reply that carries it, or the one reply
    that the word is unknown. *)
Definition command_calls (cmd owner repo : str) (n : Z)
  (before : list Call)
  : list Call :=
  if streq cmd (js "analyze") then
    [analyzeRepository owner repo;
     createComment owner repo n
       match call_result E before (analyzeRepository owner repo) with
       | Ok _ => reply_analyze
       | Thrown error => reply_failed error
       end]
  else if streq cmd (js "monitor") then
    [updateDeployments owner repo;
     createComment owner repo n
       match call_result E before (updateDeployments owner repo) with
       | Ok _ => reply_monitor
       | Thrown error => reply_failed error
       end]
  else if streq cmd (js "status") then
    [getOverallStatus;
     createComment owner repo n (reply_status (overall_status E before))]
  else
    [createComment owner repo n (reply_unknown cmd)].

Fixpoint executeBotCommands (cs : list BotCommand) (owner repo : str)
  (issueNumber : Z) : M World unit :=
  match cs with
  | [] => ret tt
  | c :: rest =>
      (executeBotCommand c owner repo issueNumber ;;;
       executeBotCommands rest owner repo issueNumber)%js
  end.

(** The dispatch table along a list of commands. *)
Fixpoint commands_calls (cs : list BotCommand) (owner repo : str) (n : Z)
  (before : list Call) : list Call :=
  match cs with
  | [] => []
  | c :: rest =>
      let made := command_calls (command c) owner repo n before in
      made ++ commands_calls rest owner repo n (before ++ made)
  end.

(** [handleBotMention(payload, githubApp)] *)
Definition handleBotMention (p : IssueCommentPayload) : M World unit :=
  let commands := parseBotCommands (comment_body p) in
  match commands with
  | [] => ret tt
  | _ :: _ =>
      (call (getInstallationOctokit (installation_id p)) ;;;
       executeBotCommands commands (owner p) (repo p) (issue_number p))%js
  end.

(** [handleIssueComment(payload, githubApp)] *)
Definition handleIssueComment (p : IssueCommentPayload) : M World unit :=
  if streq (action p) (js "created") && Text.includes (comment_body p) mention
  then handleBotMention p
  else ret tt.

(** [handler(req.body, githubApp)] for a value found on
    [Object.prototype]. It is called with [this] undefined and an object
    as first argument: [toString] and [constructor] return; [__proto__]
    is the prototype object, not a function, and the nine other members
    convert [this] to an object; both throw a [TypeError], whose
    message, which only reaches the log, is given here as V8 words it
    for [valueOf]. None of them reaches a service. *)
Definition call_inherited (name : str) : M World unit :=
  if streq name (js "toString") || streq name (js "constructor")
  then ret tt
  else if streq name (js "__proto__")
       then throw (js "handler is not a function")
       else throw (js "Cannot convert undefined or null to object").

Definition run_handler (h : HandlerName) (payload : Payload E)
  : M World unit :=
  match h with
  | handleIssueComment_ => handleIssueComment (issue_comment E payload)
  | inherited name => call_inherited name
  | other => call (otherHandler other)
  end.

(** The request, as [handle] reads it: three headers, each possibly
    missing, and the parsed body. *)
Record Request : Type :=
  { x_hub_signature_256 : option str;
    x_github_event : option str;
    x_github_delivery : option str;
    body : Payload E }.

(** [handle(req, res, githubApp)]; [secret] is
    [githubApp.webhooks.secret]. The logger calls are left out. *)
Definition handle (req : Request) (secret : option str) : M World unit :=
  let signature := x_hub_signature_256 req in
  let event := x_github_event req in
  match verifySignature (body req) signature secret with
  | Thrown error => throw error
  | Ok false => respond 401 (error_body (js "Invalid signature"))
  | Ok true =>
      try_catch
        (match match event with
               | Some event => lookup event eventHandlers
               | None => None
               end with
         | Some handler =>
             (note_dispatch handler ;;;
              run_handler handler (body req) ;;;
              respond 200 (message_body (js "Webhook processed successfully")))%js
         | None =>
             respond 200
               (message_body (js "Event acknowledged but not processed"))
         end)
        (fun _ => respond 500 (error_body (js "Internal server error")))
  end.

(** The route [POST /webhooks/github] of [setupWebhooks]. *)
Definition post_webhooks_github (req : Request) (secret : option str)
  : M World unit :=
  try_catch (handle req secret)
            (fun _ => respond 500 (error_body (js "Internal server error"))).

End WebhookHandler.
Arguments Request : clear implicits.
Arguments call : clear implicits.
Arguments call_getOverallStatus : clear implicits.
Arguments replyToCommand : clear implicits.
Arguments reply_status : clear implicits.
Arguments command_calls : clear implicits.
Arguments commands_calls : clear implicits.
Arguments executeBotCommand : clear implicits.
Arguments executeBotCommands : clear implicits.
Arguments handleBotMention : clear implicits.
Arguments handleIssueComment : clear implicits.
End WebhookHandler.


(** An environment for examples: the body is a comment event, serialised
    as a small JSON text; every call succeeds; the aggregate status is the
    one given. *)
Definition quoted (s : str) : str := [34%N] ++ s ++ [34%N].

Definition example_stringify (p : WebhookHandler.IssueCommentPayload) : str :=
  js "{" ++ quoted (js "action") ++ js ":"
  ++ quoted (WebhookHandler.action p) ++ js ","
  ++ quoted (js "comment") ++ js ":{" ++ quoted (js "body") ++ js ":"
  ++ quoted (WebhookHandler.comment_body p) ++ js "}}".

Definition example_webhook_env (st : ApiServices.Status)
  : WebhookHandler.Env :=
  {| WebhookHandler.Payload := WebhookHandler.IssueCommentPayload;
     WebhookHandler.JSON_stringify := example_stringify;
     WebhookHandler.issue_comment := fun p => p;
     WebhookHandler.call_result := fun _ _ => Ok tt;
     WebhookHandler.overall_status := fun _ => st;
     WebhookHandler.stringify_status :=
       fun st => quoted (ApiServices.overall st) |}.

Definition example_status_value : ApiServices.Status :=
  {| ApiServices.timestamp := 1000000; ApiServices.services := [];
     ApiServices.overall := js "healthy" |}.

(** A comment that asks the bot for [text], on issue 7 of [acme/vault]. *)
Definition example_comment (text : str) : WebhookHandler.IssueCommentPayload :=
  {| WebhookHandler.action := js "created";
     WebhookHandler.comment_body := text;
     WebhookHandler.issue_number := 7;
     WebhookHandler.owner := js "acme";
     WebhookHandler.repo := js "vault";
     WebhookHandler.installation_id := 42 |}.

(** The delivery of that comment under the signature header given. *)
Definition example_request (signature : option str) (text : str)
  : WebhookHandler.Request (example_webhook_env example_status_value) :=
  @WebhookHandler.Build_Request (example_webhook_env example_status_value)
    signature (Some (js "issue_comment")) (Some (js "d-1"))
    (example_comment text).

(** The header GitHub computes for a delivery: the HMAC of the body under
    the shared secret. *)
Definition sign (secret body : str) : str :=
  js "sha256=" ++ Crypto.createHmac_sha256_hex secret body.


(** Three task bodies for examples: two that return after 5 ms and 8 ms
    and one that rejects with [boom] after 25 ms, registered on a running
    runner under the names [first], [second] and [third]. *)
Definition three_tasks : ScheduledTasks.State unit :=
  ScheduledTasks.addTask (js "third") (js "* * * * *")
    (ScheduledTasks.takes 8 (Ok tt))
    (ScheduledTasks.addTask (js "second") (js "* * * * *")
       (ScheduledTasks.takes 25 (Thrown (js "boom")))
       (ScheduledTasks.addTask (js "first") (js "* * * * *")
          (ScheduledTasks.takes 5 (Ok tt))
          (ScheduledTasks.start idle_ops
             (ScheduledTasks.new_ScheduledTasks (quiet_outside 1000000))))).

(** The entries of the log that tell how a firing ended. *)
Definition outcomes_logged (l : list ScheduledTasks.LogEntry)
  : list ScheduledTasks.LogEntry :=
  List.filter (fun e => match e with
                        | ScheduledTasks.LogError _ _ => true
                        | ScheduledTasks.LogPerformance _ _ => true
                        | _ => false
                        end) l.

(** A probe that rejects, and one that resolves to an error report. *)
Definition throwing_probe {W : Type} (message : str)
  : ApiServices.Service W :=
  {| ApiServices.healthCheck := Some (throw message) |}.

Definition erring_probe {W : Type} (message : str) : ApiServices.Service W :=
  {| ApiServices.healthCheck := Some (ret (error_report message)) |}.

(** A service table where the second probe rejects; the others are
    quiet. *)
Definition one_throwing_probe : ApiServices.Services Z :=
  {| ApiServices.coingecko := quiet_probe;
     ApiServices.coindesk := throwing_probe (js "socket hang up");
     ApiServices.arkhamIntel := quiet_probe;
     ApiServices.gasEstimation := quiet_probe;
     ApiServices.networkMonitoring := quiet_probe;
     ApiServices.defiMonitoring := quiet_probe |}.


(* ================================================================== *)
(** ** The push handler *)

Module WebhookPush.

(** [s.endsWith(suffix)] *)
Definition endsWith (s suffix : str) : bool :=
  match Text.strip_prefix (rev suffix) (rev s) with
  | Some _ => true
  | None => false
  end.

(** A commit of a push payload: its [added] and [modified] file lists,
    each possibly missing. *)
Record Commit : Type :=
  { added : option (list str);
    modified : option (list str) }.

(** [l || []] *)
Definition or_empty (l : option (list str)) : list str :=
  match l with Some l => l | None => [] end.

(** The test [findContractFiles] filters with. *)
Definition is_contract_file (file : str) : bool :=
  endsWith file (js ".sol") || endsWith file (js ".vy")
  || Text.includes file (js "contract") || Text.includes file (js "Contract").

(** [[...new Set(l)]]: the values in the order they first occur. *)
Definition Set_values (l : list str) : list str :=
  fold_left (fun seen x => if existsb (streq x) seen then seen else seen ++ [x])
            l [].

(** [findContractFiles(commits)] *)
Definition findContractFiles (commits : list Commit) : list str :=
  let contractFiles :=
    fold_left
      (fun contractFiles commit =>
         let files := or_empty (added commit) ++ or_empty (modified commit) in
         contractFiles ++ List.filter is_contract_file files)
      commits [] in
  Set_values contractFiles.

(** The fields of a [push] payload the handler reads. *)
Record PushPayload : Type :=
  { owner : str;
    repo : str;
    pusher_name : str;
    ref : str;
    commits : list Commit }.

Section WebhookPush.
Context {E : WebhookHandler.Env}.

(** [handlePush(payload, githubApp)]; the logger calls are left out. *)
Definition handlePush (p : PushPayload) : M WebhookHandler.World unit :=
  let contractFiles := findContractFiles (commits p) in
  match contractFiles with
  | [] => ret tt
  | _ :: _ =>
      (try_catch
         (WebhookHandler.call E
            (WebhookHandler.analyzeRepository (owner p) (repo p)))
         (fun _ => ret tt) ;;;
       try_catch
         (WebhookHandler.call E
            (WebhookHandler.updateDeployments (owner p) (repo p)))
         (fun _ => ret tt))%js
  end.

End WebhookPush.
Arguments handlePush : clear implicits.
End WebhookPush.

(** An environment in which the installation client cannot be obtained
    and every service call fails. *)
Definition failing_webhook_env : WebhookHandler.Env :=
  {| WebhookHandler.Payload := WebhookHandler.IssueCommentPayload;
     WebhookHandler.JSON_stringify := example_stringify;
     WebhookHandler.issue_comment := fun p => p;
     WebhookHandler.call_result := fun _ _ => Thrown (js "Bad credentials");
     WebhookHandler.overall_status := fun _ => example_status_value;
     WebhookHandler.stringify_status :=
       fun st => quoted (ApiServices.overall st) |}.


(** The shape of a parsed command. *)
Definition well_formed_command (c : WebhookHandler.BotCommand) : Prop :=
  WebhookHandler.command c <> []
  /\ Forall (fun ch => Text.is_word ch = true) (WebhookHandler.command c)
  /\ Forall (fun arg => Forall (fun ch => Text.is_dot ch = true /\ ch <> 32%N) arg)
            (WebhookHandler.args c).

(* ================================================================== *)
(** ** The other methods of the two paced clients *)

Module Getters.
Section Getters.
Context {E : Net.Env}.

(** The body the cached getters share, which differ in the cache key, the
    freshness window and the endpoint: look the key up, return a truthy
    hit, otherwise request, store and return; the catch block logs and
    rethrows. *)
Definition cachedRequest (s : Net.ServiceName) (cacheKey : str)
  (maxAge : Z) (endpoint : str) : M (Net.World E) (Net.Data E) :=
  (let fetch :=
     try_catch
       (data <- Net.makeRequest s endpoint ;;
        Net.setCachedData s cacheKey data ;;;
        ret data)
       (fun error => throw error) in
   cached <- Net.getCachedData s cacheKey maxAge ;;
   match cached with
   | Some hit => if Net.truthy E hit then ret hit else fetch
   | None => fetch
   end)%js.

(** [CoinGeckoService.getCoinData(coinId)]; its request parameters are
    constants. *)
Definition getCoinData (coinId : str) : M (Net.World E) (Net.Data E) :=
  cachedRequest Net.CoinGecko (js "coin-" ++ coinId) (2 * 60 * 1000)
    (js "/coins/" ++ coinId).

(** [CoinGeckoService.getTrendingCoins()] *)
Definition getTrendingCoins : M (Net.World E) (Net.Data E) :=
  cachedRequest Net.CoinGecko (js "trending-coins") (10 * 60 * 1000)
    (js "/search/trending").

(** [CoinGeckoService.getGlobalMarketData()] *)
Definition getGlobalMarketData : M (Net.World E) (Net.Data E) :=
  cachedRequest Net.CoinGecko (js "global-market") (5 * 60 * 1000)
    (js "/global").

(** [CoinGeckoService.getDefiData()] *)
Definition getDefiData : M (Net.World E) (Net.Data E) :=
  cachedRequest Net.CoinGecko (js "defi-data") (10 * 60 * 1000)
    (js "/global/decentralized_finance_defi").

(** [CoinDeskService.getBitcoinPriceIndex()] *)
Definition getBitcoinPriceIndex : M (Net.World E) (Net.Data E) :=
  cachedRequest Net.CoinDesk (js "btc-price-index") (5 * 60 * 1000)
    (js "/bpi/currentprice.json").

(** [CoinDeskService.getBitcoinPriceForDate(date)] *)
Definition getBitcoinPriceForDate (date : str) : M (Net.World E) (Net.Data E) :=
  try_catch
    (Net.makeRequest Net.CoinDesk
       (js "/bpi/historical/close/" ++ date ++ js ".json"))
    (fun error => throw error).

(** [initialize()] of a service, given its [healthCheck]. *)
Definition initialize (healthCheck : M (Net.World E) HealthReport)
  : M (Net.World E) unit :=
  try_catch (healthCheck ;;; ret tt)%js (fun error => throw error).

(** [CoinGeckoService.initialize()] and [CoinDeskService.initialize()] *)
Definition CoinGecko_initialize : M (Net.World E) unit :=
  initialize CoinGecko.healthCheck.

Definition CoinDesk_initialize : M (Net.World E) unit :=
  initialize CoinDesk.healthCheck.

(** What a cached getter [g] does in a state [w], in full. When the
    lookup of its key gives a truthy value, that value is returned and
    nothing changes. Otherwise one request leaves at the paced moment,
    its outcome is the outcome of [g], and the store is the one the
    lookup left, with the answer stored under the key when there is
    one. *)
Definition cache_aside (g : M (Net.World E) (Net.Data E))
  (s : Net.ServiceName) (cacheKey : str) (maxAge : Z) (endpoint : str)
  : Prop :=
  forall w : Net.World E,
    let looked :=
      Cache.getCachedData cacheKey maxAge (Net.clock w)
        (Net.cache (Net.client_of s w)) in
    let t := Pacing.issue_time s w in
    let r := Net.http_get E s t endpoint in
    let fetched :=
      fst (g w) = Net.response_data r
      /\ Net.sent (snd (g w)) = Net.sent w ++ [(t, s, endpoint)]
      /\ Net.clock (snd (g w)) = t + Z.of_N (Net.latency r)
      /\ Net.cache (Net.client_of s (snd (g w)))
         = match Net.response_data r with
           | Ok d =>
               Cache.setCachedData (Net.policy_of s) cacheKey d
                 (t + Z.of_N (Net.latency r)) (snd looked)
           | Thrown _ => snd looked
           end in
    match fst looked with
    | Some hit => if Net.truthy E hit then g w = (Ok hit, w) else fetched
    | None => fetched
    end.

(** Requests made one after the other by one caller, on either client:
    each is entered [gap] ms after the one before it came back. *)
Definition run_requests (reqs : list (N * Net.ServiceName * str))
  (w : Net.World E) : Net.World E :=
  fold_left
    (fun w req =>
       snd (Net.makeRequest (snd (fst req)) (snd req)
              (Net.idle (fst (fst req)) w)))
    reqs w.

End Getters.

Definition same_service (a b : Net.ServiceName) : bool :=
  match a, b with
  | Net.CoinGecko, Net.CoinGecko => true
  | Net.CoinDesk, Net.CoinDesk => true
  | _, _ => false
  end.

(** The moments the requests of one client left, in order. *)
Definition times_of (s : Net.ServiceName)
  (sent : list (Z * Net.ServiceName * str)) : list Z :=
  List.map (fun e => fst (fst e))
    (List.filter (fun e => same_service (snd (fst e)) s) sent).

(** Consecutive moments are at least [delay] apart. *)
Fixpoint spaced (delay : Z) (ts : list Z) : Prop :=
  match ts with
  | t1 :: rest =>
      match rest with
      | t2 :: _ => t2 - t1 >= delay
      | [] => True
      end /\ spaced delay rest
  | [] => True
  end.

End Getters.



(** What every state reached by requests keeps, per client, when timers
    resolve at most [early] ms early: the requests of the client left at
    least its delay less [early] apart, the delay is the one it started
    with, and [lastRequestTime] is the moment the last of them left. *)
Definition paced_state {E : Net.Env} (s : Net.ServiceName) (delay early : Z)
  (w : Net.World E) : Prop :=
  Getters.spaced (delay - early) (Getters.times_of s (Net.sent w))
  /\ Net.rateLimitDelay (Net.client_of s w) = delay
  /\ (Getters.times_of s (Net.sent w) = []
      \/ last (Getters.times_of s (Net.sent w)) 0
         = Net.lastRequestTime (Net.client_of s w)).



(** ** The status endpoint of the application *)

Module CryptoIntelBot.
Section CryptoIntelBot.
Context {W : Type}.

(** [apiServices[service]]: the exported object carries the six fields
    of the [ApiServices] instance under their names. *)
Definition lookup (api : ApiServices.Services W) (service : str)
  : option (ApiServices.Service W) :=
  JsMap.get service (ApiServices.entries api).

(** The array [services] of [getApiStatus]. *)
Definition service_names : list str :=
  [ js "coingecko"; js "coindesk"; js "arkhamIntel"; js "gasEstimation";
    js "networkMonitoring"; js "defiMonitoring" ].

(** The object [getApiStatus] resolves to. *)
Record ApiStatus : Type :=
  { timestamp : Z;
    services : JsMap.t HealthReport }.

(** One turn of the loop of [getApiStatus], on [status.services]. *)
Definition probe (api : ApiServices.Services W) (service : str)
  (acc : JsMap.t HealthReport) : M W (JsMap.t HealthReport) :=
  try_catch
    (r <- match lookup api service with
          | Some found =>
              match ApiServices.healthCheck found with
              | Some check => check
              | None => ret unknown_report
              end
          | None => ret unknown_report
          end ;;
     ret (JsMap.set service r acc))%js
    (fun error => ret (JsMap.set service (error_report error) acc)).

Fixpoint probe_all (api : ApiServices.Services W) (names : list str)
  (acc : JsMap.t HealthReport) : M W (JsMap.t HealthReport) :=
  match names with
  | [] => ret acc
  | service :: rest =>
      (acc' <- probe api service acc ;; probe_all api rest acc')%js
  end.

(** [CryptoIntelBot.getApiStatus]; [clock] is the reading [new Date()]
    takes. *)
Definition getApiStatus (clock : W -> Z) (api : ApiServices.Services W)
  : M W ApiStatus :=
  (t <- gets clock ;;
   acc <- probe_all api service_names JsMap.empty ;;
   ret {| timestamp := t; services := acc |})%js.

End CryptoIntelBot.
End CryptoIntelBot.


(** ** The application object *)

Module GithubApp.

(** The object [new App({ appId, privateKey, webhooks: { secret } })] of
    [@octokit/app] 14, as far as [handle] reads it. Its [webhooks]
    property is the event emitter of [@octokit/webhooks], with the
    members [sign], [verify], [on], [onAny], [onError], [removeListener],
    [receive] and [verifyAndReceive]; it keeps the secret it was built
    with to itself and has no property [secret]. [webhooks_secret] is
    the value of [githubApp.webhooks.secret]. *)
Record App : Type := { webhooks_secret : option str }.

(** The constructor call of [CryptoIntelBot], given
    [config.github.webhookSecret]. *)
Definition new_App (webhookSecret : option str) : App :=
  {| webhooks_secret := None |}.

(** The route [POST /webhooks/github] as the application registers it:
    [setupWebhooks] hands [handle] the object its constructor built. *)
Definition webhooks_github {E : WebhookHandler.Env}
  (webhookSecret : option str) (req : WebhookHandler.Request E)
  : M WebhookHandler.World unit :=
  WebhookHandler.post_webhooks_github req
    (webhooks_secret (new_App webhookSecret)).

End GithubApp.


(** Whether some [setCachedData] of a history runs the trim: the store
    exceeds the ceiling once the entry is stored. *)
Fixpoint trims {V : Type} (p : TrimPolicy) (ops : list (Z * CacheOp V))
  (cache : CacheStore V) : bool :=
  match ops with
  | [] => false
  | (t, op) :: rest =>
      match op, p with
      | OpSet key d, Trim ceiling _ =>
          (ceiling <? JsMap.size
                        (JsMap.set key {| data := d; timestamp := t |} cache))%nat
      | _, _ => false
      end
      || trims p rest (Cache.apply_op p t op cache)
  end.


(** ** The DeFi monitoring service *)

Module DeFi.

(** What is outside the service: [Data] is [response.data.data] of the
    subgraph query, of which the code looks at the truthiness only, and
    [post_subgraph] tells what the POST sent at a given time meets: how
    long it takes and that value, or what is thrown instead (by the
    transport, or by reading [data] of a missing body). *)
Record Env : Type :=
  { Data : Type;
    truthy : Data -> bool;
    post_subgraph : Z -> Net.HttpReply Data }.

Section DeFi.
Context {E : Env}.

(** What [getProtocolData] hands back and stores: the subgraph's answer,
    or the placeholder object of [getAaveData] or of [getCompoundData]. *)
Inductive ProtocolData : Type :=
| Uniswap (d : Data E)
| Aave
| Compound.

(** [if (cached)]: the placeholders are objects. *)
Definition is_truthy (x : ProtocolData) : bool :=
  match x with
  | Uniswap d => truthy E d
  | Aave | Compound => true
  end.

(** The clock, [this.cache], and the times at which a POST left. *)
Record World : Type :=
  { clock : Z;
    cache : CacheStore ProtocolData;
    posts : list Z }.

Definition new_DeFiMonitoringService (start : Z) : World :=
  {| clock := start; cache := JsMap.empty; posts := [] |}.

(** [this.getCachedData(key, maxAge)] *)
Definition getCachedData (key : str) (maxAge : Z)
  : M World (option ProtocolData) :=
  fun w =>
    let (r, cache') := Cache.getCachedData key maxAge (clock w) (cache w) in
    (Ok r, {| clock := clock w; cache := cache'; posts := posts w |}).

(** [this.setCachedData(key, data)]: the copy without a trim. *)
Definition setCachedData (key : str) (d : ProtocolData) : M World unit :=
  modify (fun w =>
    {| clock := clock w;
       cache := Cache.setCachedData defiMonitoring_policy key d (clock w)
                  (cache w);
       posts := posts w |}).

(** [getUniswapData()] *)
Definition getUniswapData : M World ProtocolData :=
  fun w =>
    let r := post_subgraph E (clock w) in
    (match Net.response_data r with
     | Ok d => Ok (Uniswap d)
     | Thrown error => Thrown error
     end,
     {| clock := clock w + Z.of_N (Net.latency r);
        cache := cache w;
        posts := posts w ++ [clock w] |}).

(** [getProtocolData(protocolName)] *)
Definition getProtocolData (protocolName : str) : M World ProtocolData :=
  (let cacheKey := js "protocol-" ++ protocolName in
   let fetch :=
     try_catch
       (data <- (if streq protocolName (js "uniswap") then getUniswapData
                 else if streq protocolName (js "aave") then ret Aave
                 else if streq protocolName (js "compound") then ret Compound
                 else throw (js "Unknown protocol: " ++ protocolName)) ;;
        setCachedData cacheKey data ;;;
        ret data)
       (fun error => throw error) in
   cached <- getCachedData cacheKey (5 * 60 * 1000) ;;
   match cached with
   | Some hit => if is_truthy hit then ret hit else fetch
   | None => fetch
   end)%js.

(** [Object.keys(this.protocols)], from the configuration. *)
Definition protocols : list str :=
  [js "uniswap"; js "aave"; js "compound"].

(** The keys under which the three protocols are cached. *)
Definition protocol_keys : list str :=
  List.map (fun protocol => js "protocol-" ++ protocol) protocols.

(** Calls of [getProtocolData] one after the other, for any names, each
    entered [gap] ms after the one before settled. *)
Definition run_calls (calls : list (N * str)) (w : World) : World :=
  fold_left
    (fun w call =>
       snd (getProtocolData (snd call)
              {| clock := clock w + Z.of_N (fst call);
                 cache := cache w; posts := posts w |}))
    calls w.

End DeFi.

Arguments ProtocolData : clear implicits.
Arguments World : clear implicits.

End DeFi.


(** A subgraph that answers every query with the value 1 after 10 ms. *)
Definition example_defi_env : DeFi.Env :=
  {| DeFi.Data := Z;
     DeFi.truthy := fun d => negb (d =? 0);
     DeFi.post_subgraph := fun _ =>
       {| Net.latency := 10; Net.response_data := Ok 1 |} |}.

(* ################################################################## *)
(** * Properties *)

(** ** Strings *)

Lemma streq_eq (a b : str) : streq a b = true <-> a = b.
Proof.
    revert b; induction a as [|x a IH]; intros [|y b]; simpl;
      try (split; [discriminate | congruence]); try tauto.
    rewrite andb_true_iff, N.eqb_eq, IH. split.
    - intros [-> ->]; reflexivity.
    - intros H; inversion H; auto.
Qed.

Lemma streq_refl (a : str) : streq a a = true.
Proof. apply streq_eq; reflexivity. Qed.

Lemma streq_neq (a b : str) : streq a b = false <-> a <> b.
Proof.
    rewrite <- streq_eq. destruct (streq a b); split; congruence.
Qed.

Lemma streq_sym (a b : str) : streq a b = streq b a.
Proof.
    destruct (streq a b) eqn:E.
    - apply streq_eq in E; subst; symmetry; apply streq_refl.
    - symmetry; apply streq_neq; apply streq_neq in E; congruence.
Qed.


(** ** The insertion-ordered map *)

Section JsMapFacts.
Context {V : Type}.
Implicit Types (m : JsMap.t V) (k : str) (v : V).

Lemma get_set_same k v m : JsMap.get k (JsMap.set k v m) = Some v.
Proof.
  induction m as [|[k' v'] r IH]; simpl.
  - now rewrite streq_refl.
  - destruct (streq k' k) eqn:E; simpl; rewrite E; auto.
Qed.

Lemma get_set_other k k' v m :
  k' <> k -> JsMap.get k' (JsMap.set k v m) = JsMap.get k' m.
Proof.
  intros Hne. induction m as [|[k0 v0] r IH]; simpl.
  - assert (streq k k' = false) as -> by (apply streq_neq; congruence).
    reflexivity.
  - destruct (streq k0 k) eqn:E; simpl.
    + apply streq_eq in E; subst k0.
      assert (streq k k' = false) as -> by (apply streq_neq; congruence).
      reflexivity.
    + now rewrite IH.
Qed.

Lemma get_delete_same k m : JsMap.get k (JsMap.delete k m) = None.
Proof.
  induction m as [|[k' v'] r IH]; simpl; auto.
  destruct (streq k' k) eqn:E; simpl; [|rewrite E]; auto.
Qed.

Lemma get_delete_other k k' m :
  k' <> k -> JsMap.get k' (JsMap.delete k m) = JsMap.get k' m.
Proof.
  intros Hne. induction m as [|[k0 v0] r IH]; simpl; auto.
  destruct (streq k0 k) eqn:E; simpl.
  - apply streq_eq in E; subst k0.
    assert (streq k k' = false) as -> by (apply streq_neq; congruence).
    exact IH.
  - now rewrite IH.
Qed.

(** Deleting keys never brings a key back nor changes what it maps to. *)
Lemma get_delete_cases k k' m :
  JsMap.get k' (JsMap.delete k m) = None \/
  JsMap.get k' (JsMap.delete k m) = JsMap.get k' m.
Proof.
  destruct (streq k' k) eqn:E.
  - apply streq_eq in E; subst. left. apply get_delete_same.
  - right. apply get_delete_other. now apply streq_neq.
Qed.

Lemma get_delete_all_cases ks k' m :
  JsMap.get k' (JsMap.delete_all ks m) = None \/
  JsMap.get k' (JsMap.delete_all ks m) = JsMap.get k' m.
Proof.
  revert m; induction ks as [|k ks IH]; intros m; simpl; auto.
  destruct (IH (JsMap.delete k m)) as [H|H]; auto.
  rewrite H. apply get_delete_cases.
Qed.

Lemma get_In_keys k m :
  JsMap.get k m <> None <-> In k (JsMap.keys m).
Proof.
  induction m as [|[k' v'] r IH]; simpl.
  - tauto.
  - destruct (streq k' k) eqn:E.
    + apply streq_eq in E. split; [auto | congruence].
    + apply streq_neq in E. rewrite IH. tauto.
Qed.

Lemma has_In_keys k m : JsMap.has k m = true <-> In k (JsMap.keys m).
Proof.
  rewrite <- get_In_keys. unfold JsMap.has.
  destruct (JsMap.get k m); split; congruence.
Qed.

Lemma has_false_not_In k m :
  JsMap.has k m = false <-> ~ In k (JsMap.keys m).
Proof.
  rewrite <- has_In_keys. destruct (JsMap.has k m); split; congruence.
Qed.

Lemma delete_not_In k m : ~ In k (JsMap.keys m) -> JsMap.delete k m = m.
Proof.
  induction m as [|[k' v'] r IH]; simpl; auto.
  intros H. destruct (streq k' k) eqn:E.
  - apply streq_eq in E. tauto.
  - f_equal. apply IH. tauto.
Qed.

Lemma size_delete_le k m : (JsMap.size (JsMap.delete k m) <= JsMap.size m)%nat.
Proof.
  induction m as [|[k' v'] r IH]; simpl; auto.
  destruct (streq k' k); simpl; unfold JsMap.size in *; lia.
Qed.

Lemma size_delete_all_le ks m :
  (JsMap.size (JsMap.delete_all ks m) <= JsMap.size m)%nat.
Proof.
  revert m; induction ks as [|k ks IH]; intros m; simpl; auto.
  etransitivity; [apply IH | apply size_delete_le].
Qed.

(** [set] on a present key keeps the keys and their order; on a new key
    it appends the key. *)
Lemma keys_set k v m :
  JsMap.keys (JsMap.set k v m) =
  if JsMap.has k m then JsMap.keys m else JsMap.keys m ++ [k].
Proof.
  unfold JsMap.has.
  induction m as [|[k' v'] r IH]; simpl; auto.
  destruct (streq k' k) eqn:E; simpl; auto.
  rewrite IH. destruct (JsMap.get k r); reflexivity.
Qed.

Lemma size_set k v m :
  JsMap.size (JsMap.set k v m) =
  if JsMap.has k m then JsMap.size m else S (JsMap.size m).
Proof.
  unfold JsMap.size. rewrite <- !(length_map fst).
  change (List.map fst (JsMap.set k v m)) with (JsMap.keys (JsMap.set k v m)).
  rewrite keys_set. destruct (JsMap.has k m); auto.
  rewrite length_app; simpl. unfold JsMap.keys. lia.
Qed.

Lemma wf_set k v m : JsMap.wf m -> JsMap.wf (JsMap.set k v m).
Proof.
  unfold JsMap.wf. rewrite keys_set.
  destruct (JsMap.has k m) eqn:E; auto.
  intros H. apply has_false_not_In in E.
  apply NoDup_app; auto.
  - repeat constructor; simpl; tauto.
  - intros x Hx [<-|[]]. tauto.
Qed.

Lemma keys_delete_incl k m x :
  In x (JsMap.keys (JsMap.delete k m)) -> In x (JsMap.keys m).
Proof.
  induction m as [|[k' v'] r IH]; simpl; auto.
  destruct (streq k' k); simpl; tauto.
Qed.

Lemma wf_delete k m : JsMap.wf m -> JsMap.wf (JsMap.delete k m).
Proof.
  unfold JsMap.wf.
  induction m as [|[k' v'] r IH]; simpl; auto.
  intros H; inversion H; subst.
  destruct (streq k' k); simpl; auto.
  constructor; auto. intros Hin. apply keys_delete_incl in Hin. tauto.
Qed.

Lemma wf_delete_all ks m : JsMap.wf m -> JsMap.wf (JsMap.delete_all ks m).
Proof.
  revert m; induction ks as [|k ks IH]; intros m H; simpl; auto.
  apply IH, wf_delete, H.
Qed.

(** On a map with unique keys, deleting its first [n] keys drops its first
    [n] entries and nothing else. *)
Lemma delete_all_firstn n m :
  JsMap.wf m ->
  JsMap.delete_all (firstn n (JsMap.keys m)) m = skipn n m.
Proof.
  unfold JsMap.wf.
  revert m; induction n as [|n IH]; intros m H; simpl; auto.
  destruct m as [|[k v] r]; simpl; auto.
  simpl in H; inversion H; subst.
  rewrite streq_refl. rewrite delete_not_In by assumption.
  apply IH; assumption.
Qed.

(** Deleting the first key of a non-empty map makes it smaller. *)
Lemma size_delete_all_firstn_lt n m :
  (0 < n)%nat -> (0 < JsMap.size m)%nat ->
  (JsMap.size (JsMap.delete_all (firstn n (JsMap.keys m)) m) < JsMap.size m)%nat.
Proof.
  intros Hn Hm. destruct n as [|n]; [lia|].
  destruct m as [|[k v] r]; simpl in *; [lia|].
  rewrite streq_refl.
  pose proof (size_delete_all_le (firstn n (JsMap.keys r)) (JsMap.delete k r)).
  pose proof (size_delete_le k r). unfold JsMap.size in *. lia.
Qed.

End JsMapFacts.

(** ** The TTL cache *)

Section CacheFacts.
Context {V : Type}.
Implicit Types (c : CacheStore V) (k key : str) (v d : V) (p : TrimPolicy).

Lemma get_delete_all_notin ks k c :
  ~ In k ks -> JsMap.get k (JsMap.delete_all ks c) = JsMap.get k c.
Proof.
  revert c; induction ks as [|k0 ks IH]; intros c H; simpl; auto.
  rewrite IH by (simpl in H; tauto).
  apply get_delete_other. simpl in H. intros ->. tauto.
Qed.

(** Right after [setCachedData(k, v)] the store maps [k] to [v], stamped
    with the time of the call: the trim never removes the key just set. *)
Lemma get_setCachedData_same p k v now c :
  policy_fits p c ->
  JsMap.get k (setCachedData p k v now c) =
  Some {| data := v; timestamp := now |}.
Proof.
  intros Hfit. unfold setCachedData.
  destruct p as [ceiling count|]; [|apply get_set_same].
  destruct Hfit as [Hsz Hcnt].
  destruct (ceiling <? _)%nat eqn:E; [|apply get_set_same].
  apply Nat.ltb_lt in E. rewrite size_set in E.
  rewrite get_delete_all_notin; [apply get_set_same|].
  rewrite keys_set.
  destruct (JsMap.has k c) eqn:Hhas; [lia|].
  rewrite firstn_app.
  assert (count - List.length (JsMap.keys c) = 0)%nat as ->.
  { unfold JsMap.keys. rewrite length_map. unfold JsMap.size in *. lia. }
  simpl. rewrite app_nil_r. intros Hin.
  apply has_false_not_In in Hhas. apply Hhas.
  rewrite <- (firstn_skipn count (JsMap.keys c)).
  apply in_or_app; left; exact Hin.
Qed.

(** After [setCachedData] a store that was within its ceiling still is. *)
Lemma setCachedData_size_le_ceiling ceiling count k v now c :
  (0 < count)%nat -> (JsMap.size c <= ceiling)%nat ->
  (JsMap.size (setCachedData (Trim ceiling count) k v now c) <= ceiling)%nat.
Proof.
  intros Hcnt Hsz. unfold setCachedData.
  set (c' := JsMap.set k _ c).
  assert (JsMap.size c' <= S ceiling)%nat as Hc'.
  { unfold c'. rewrite size_set. destruct (JsMap.has k c); lia. }
  destruct (ceiling <? JsMap.size c')%nat eqn:E.
  - apply Nat.ltb_lt in E.
    pose proof (size_delete_all_firstn_lt count c' Hcnt). lia.
  - apply Nat.ltb_ge in E. exact E.
Qed.

Lemma getCachedData_size_le k w now c :
  (JsMap.size (snd (getCachedData k w now c)) <= JsMap.size c)%nat.
Proof.
  unfold getCachedData. destruct (JsMap.get k c) as [e|]; simpl; auto.
  destruct (w <? now - timestamp e); simpl; auto using size_delete_le.
Qed.

(** The ceiling is an invariant of every history of reads and writes. *)
Lemma run_size_le_ceiling ceiling count ops c :
  (0 < count)%nat -> (JsMap.size c <= ceiling)%nat ->
  (JsMap.size (run (Trim ceiling count) ops c) <= ceiling)%nat.
Proof.
  intros Hcnt. revert c. unfold run.
  induction ops as [|[t op] ops IH]; intros c Hsz; simpl; auto.
  apply IH. destruct op as [k w|k d]; simpl.
  - etransitivity; [apply getCachedData_size_le | exact Hsz].
  - now apply setCachedData_size_le_ceiling.
Qed.

Lemma setCachedData_wf p k v now c :
  JsMap.wf c -> JsMap.wf (setCachedData p k v now c).
Proof.
  intros H. unfold setCachedData.
  destruct p as [ceiling count|]; [|now apply wf_set].
  destruct (ceiling <? _)%nat; [apply wf_delete_all|]; now apply wf_set.
Qed.

(** On overflow the entries removed are the first [count] in insertion
    order, whatever was read or rewritten since: first in, first out. *)
Lemma setCachedData_evicts_oldest ceiling count k v now c :
  JsMap.wf c ->
  let stored := JsMap.set k {| data := v; timestamp := now |} c in
  (ceiling < JsMap.size stored)%nat ->
  setCachedData (Trim ceiling count) k v now c = skipn count stored.
Proof.
  intros Hwf stored Hov. unfold setCachedData. fold stored.
  apply Nat.ltb_lt in Hov. rewrite Hov.
  apply delete_all_firstn. now apply wf_set.
Qed.

(** Without a set for [k], a step leaves [k] as it was or removes it. *)
Lemma apply_op_get_cases p now op k c :
  (forall d, op <> OpSet k d) ->
  JsMap.get k (apply_op p now op c) = None \/
  JsMap.get k (apply_op p now op c) = JsMap.get k c.
Proof.
  intros Hop. destruct op as [k' w|k' d]; simpl.
  - unfold getCachedData. destruct (JsMap.get k' c) as [e|]; simpl; auto.
    destruct (w <? now - timestamp e); simpl; auto using get_delete_cases.
  - assert (k <> k') as Hne by (intros ->; eapply Hop; eauto).
    unfold setCachedData.
    set (c' := JsMap.set k' _ c).
    assert (JsMap.get k c' = JsMap.get k c) as Hc'
        by (apply get_set_other; congruence).
    destruct p as [ceiling count|]; auto.
    destruct (ceiling <? _)%nat; auto.
    rewrite <- Hc'. apply get_delete_all_cases.
Qed.

Lemma run_get_cases p ops k c :
  (forall t k' d, In (t, OpSet k' d) ops -> k' <> k) ->
  JsMap.get k (run p ops c) = None \/
  JsMap.get k (run p ops c) = JsMap.get k c.
Proof.
  revert c. unfold run.
  induction ops as [|[t op] ops IH]; intros c Hops; simpl; auto.
  destruct (IH (apply_op p t op c)) as [H|H].
  - intros t' k' d Hin. eapply Hops; right; eauto.
  - auto.
  - rewrite H. apply apply_op_get_cases.
    intros d ->. eapply Hops; [left; reflexivity | reflexivity].
Qed.

End CacheFacts.

(** An entry stays where it is through a history without a set for its
    key, unless a read of the key comes later than that read's own
    window after the entry was stored, or a set runs the trim. *)
Lemma run_keeps_or_evicts {V : Type} (p : TrimPolicy)
  (ops : list (Z * CacheOp V)) (k : str) (e : CacheEntry V)
  (c : CacheStore V) :
  JsMap.get k c = Some e ->
  (forall t k' d, In (t, OpSet k' d) ops -> k' <> k) ->
  JsMap.get k (Cache.run p ops c) = Some e
  \/ (exists t w', In (t, OpGet k w') ops /\ t - timestamp e > w')
  \/ trims p ops c = true.
Proof.
  revert c. unfold Cache.run.
  induction ops as [|[t op] ops IH]; intros c Hget Hsets; [left; exact Hget|].
  assert (forall c',
            JsMap.get k c' = Some e ->
            c' = Cache.apply_op p t op c ->
            JsMap.get k (fold_left
                           (fun c top => Cache.apply_op p (fst top) (snd top) c)
                           ops c') = Some e
            \/ (exists t0 w', In (t0, OpGet k w') ((t, op) :: ops)
                              /\ t0 - timestamp e > w')
            \/ trims p ((t, op) :: ops) c = true) as Hrest.
  { intros c' Hget' ->.
    destruct (IH (Cache.apply_op p t op c) Hget') as [H|[(t0 & w' & Hin & Hlate)|H]].
    - intros t0 k' d Hin. apply (Hsets t0 k' d). right. exact Hin.
    - left. exact H.
    - right. left. exists t0, w'. split; [right; exact Hin | exact Hlate].
    - right. right. cbn [trims]. rewrite H. apply orb_true_r. }
  cbn [fold_left fst snd].
  destruct op as [k' w'|k' d].
  - cbn [Cache.apply_op] in *. unfold Cache.getCachedData in *.
    destruct (streq k' k) eqn:Hk.
    + apply streq_eq in Hk. subst k'. rewrite Hget in *.
      destruct (w' <? t - timestamp e) eqn:Hlate.
      * right. left. exists t, w'. split; [left; reflexivity|].
        apply Z.ltb_lt in Hlate. lia.
      * apply (Hrest c Hget). reflexivity.
    + apply streq_neq in Hk.
      destruct (JsMap.get k' c) as [e'|] eqn:Hget'.
      * destruct (w' <? t - timestamp e').
        -- apply Hrest; [|reflexivity]. cbn [snd].
           rewrite get_delete_other; [exact Hget | congruence].
        -- apply (Hrest c Hget). reflexivity.
      * apply (Hrest c Hget). reflexivity.
  - assert (k' <> k) as Hk by (apply (Hsets t k' d); left; reflexivity).
    cbn [Cache.apply_op] in *. unfold Cache.setCachedData in *.
    destruct p as [ceiling count|].
    + destruct (ceiling <? _)%nat eqn:Hover.
      * right. right. cbn [trims]. rewrite Hover. reflexivity.
      * apply Hrest; [|reflexivity].
        rewrite get_set_other; [exact Hget | congruence].
    + apply Hrest; [|reflexivity].
      rewrite get_set_other; [exact Hget | congruence].
Qed.

(** C5 (as amended). On a store within its ceiling, a [get(k, w)] issued at
    most [w] ms after [set(k, v)], with no set for [k] in between,
    returns [v] exactly when [k] is still in the store and absent when an
    operation in between evicted it. Only two operations evict it: a
    [get] of [k] issued later than its own window after the set, and a
    [set] that makes the store exceed its ceiling and runs the trim. With
    neither in between, whatever else is read or written, [k] is still
    in the store and the [get] returns [v]; so it does with nothing in
    between. Issued more than [w] ms after, the [get] returns absent and
    [k] is not in the store afterwards. *)
Theorem cache_get_after_set {V : Type} (p : TrimPolicy) (c : CacheStore V)
  (k : str) (v : V) (w t0 t1 : Z) (ops : list (Z * CacheOp V)) :
  policy_fits p c ->
  (forall t k' d, In (t, OpSet k' d) ops -> k' <> k) ->
  let c1 := setCachedData p k v t0 c in
  let c2 := run p ops c1 in
  (t1 - t0 <= w ->
     fst (getCachedData k w t1 c2) = (if JsMap.has k c2 then Some v else None))
  /\ (t1 - t0 <= w -> ops = [] -> fst (getCachedData k w t1 c2) = Some v)
  /\ (t1 - t0 <= w ->
      (forall t w', In (t, OpGet k w') ops -> t - t0 <= w') ->
      trims p ops c1 = false ->
      JsMap.has k c2 = true /\ fst (getCachedData k w t1 c2) = Some v)
  /\ (JsMap.has k c2 = false ->
      (exists t w', In (t, OpGet k w') ops /\ t - t0 > w')
      \/ trims p ops c1 = true)
  /\ (t1 - t0 > w ->
        fst (getCachedData k w t1 c2) = None /\
        JsMap.has k (snd (getCachedData k w t1 c2)) = false).
Proof.
  intros Hfit Hops c1 c2.
  pose proof (get_setCachedData_same p k v t0 c Hfit) as Hset.
  fold c1 in Hset.
  pose proof (run_keeps_or_evicts p ops k _ c1 Hset Hops) as Hkeep.
  fold c2 in Hkeep. cbn [timestamp] in Hkeep.
  assert (JsMap.get k c2 = None \/
          JsMap.get k c2 = Some {| data := v; timestamp := t0 |}) as Hc2.
  { destruct (run_get_cases p ops k c1 Hops) as [H|H];
      [left | right; rewrite <- Hset]; exact H. }
  assert (forall c', JsMap.get k c' = Some {| data := v; timestamp := t0 |} ->
                     t1 - t0 <= w -> fst (getCachedData k w t1 c') = Some v)
    as Hfresh.
  { intros c' Hc' Hle. unfold getCachedData. rewrite Hc'. simpl.
    destruct (w <? t1 - t0) eqn:Hlt; [apply Z.ltb_lt in Hlt; lia | reflexivity]. }
  split; [|split; [|split; [|split]]].
  - intros Hle. unfold JsMap.has. destruct Hc2 as [H|H].
    + unfold getCachedData. rewrite H. reflexivity.
    + rewrite H. now apply Hfresh.
  - intros Hle ->. apply Hfresh; [exact Hset | exact Hle].
  - intros Hle Hreads Htrim.
    destruct Hkeep as [H|[(t & w' & Hin & Hlate)|H]].
    + split; [unfold JsMap.has; now rewrite H | now apply Hfresh].
    + specialize (Hreads t w' Hin). lia.
    + congruence.
  - intros Hhas. destruct Hkeep as [H|[H|H]]; [|left; exact H|right; exact H].
    unfold JsMap.has in Hhas. rewrite H in Hhas. discriminate.
  - intros Hgt. unfold getCachedData, JsMap.has.
    destruct Hc2 as [H|H]; rewrite H; simpl.
    + now rewrite H.
    + destruct (w <? t1 - t0) eqn:Hlt; [|apply Z.ltb_ge in Hlt; lia].
      simpl. now rewrite get_delete_same.
Qed.

(** The scenario of the specification, with reads and writes in
    between: [get("x", 5000)] issued 4000 ms after [set("x", 7)] returns
    7 although ["x"] was read twice within the windows of those reads
    and another key was written and expired meanwhile; issued 6000 ms
    after the set it returns absent and ["x"] is gone from the key
    set. *)
Lemma cache_get_after_set_witness :
  let ops := [(10, OpGet (js "x") 5000); (20, OpSet (js "y") 1);
              (30, OpGet (js "y") 5); (3000, OpGet (js "x") 3000)] in
  let c2 := run coindesk_policy ops
              (setCachedData coindesk_policy (js "x") 7 0 JsMap.empty) in
  fst (getCachedData (js "x") 5000 4000 c2) = Some 7
  /\ fst (getCachedData (js "x") 5000 6000 c2) = None
  /\ JsMap.has (js "x") (snd (getCachedData (js "x") 5000 6000 c2)) = false.
Proof.
  intros ops c2.
  assert (policy_fits coindesk_policy (@JsMap.empty (CacheEntry Z))) as Hfit
    by (simpl; lia).
  assert (forall (t : Z) k' (d : Z), In (t, OpSet k' d) ops -> k' <> js "x")
    as Hops.
  { intros t k' d [H|[H|[H|[H|[]]]]]; inversion H; subst; discriminate. }
  split; [|].
  - destruct (cache_get_after_set coindesk_policy JsMap.empty (js "x") 7 5000
                0 4000 ops Hfit Hops) as (_ & _ & H & _).
    apply H.
    + lia.
    + intros t w' [Hin|[Hin|[Hin|[Hin|[]]]]]; inversion Hin; subst; lia.
    + reflexivity.
  - apply (cache_get_after_set coindesk_policy JsMap.empty (js "x") 7 5000 0
             6000 ops Hfit Hops). lia.
Defined.

(** C5 as stated fails: a read of [k] with a smaller window, issued after
    that window has passed, evicts the entry, and a later read within the
    larger window finds nothing although no set for [k] came in between. *)
Lemma cache_get_after_set_counterexample :
  ~ (forall (p : TrimPolicy) (c : CacheStore Z) (k : str) (v : Z)
            (w t0 t1 : Z) (ops : list (Z * CacheOp Z)),
        policy_fits p c ->
        (forall t k' d, In (t, OpSet k' d) ops -> k' <> k) ->
        t1 - t0 <= w ->
        fst (getCachedData k w t1 (run p ops (setCachedData p k v t0 c)))
        = Some v).
Proof.
  intros H.
  assert (fst (getCachedData (js "x") 5000 20
                 (run coingecko_policy [(10, OpGet (js "x") 5)]
                    (setCachedData coingecko_policy (js "x") 7 0 JsMap.empty)))
          = Some 7) as Hget.
  { apply H.
    - simpl. lia.
    - intros t k' d [Heq|[]]. discriminate Heq.
    - lia. }
  vm_compute in Hget. discriminate Hget.
Qed.

(** The same failure through the overflow trim alone: [k] is set, one
    hundred other keys are set within the window, the hundredth overflows
    the store and [k], the oldest entry, is trimmed away. *)
Lemma cache_get_after_set_trimmed :
  let ops := List.map (fun ik => (1 + Z.of_nat (fst ik), OpSet (snd ik) 0))
               (combine (seq 0 100) (numbered_keys (js "k") 100)) in
  let c2 := run coingecko_policy ops
              (setCachedData coingecko_policy (js "x") 7 0 JsMap.empty) in
  (forall t k' d, In (t, OpSet k' d) ops -> k' <> js "x")
  /\ JsMap.size c2 = 81%nat
  /\ fst (getCachedData (js "x") 5000 200 c2) = None.
Proof.
  intros ops c2. split; [|split].
  - intros t k' d Hin. unfold ops in Hin.
    apply in_map_iff in Hin. destruct Hin as [[i key] [Heq Hin]].
    inversion Heq; subst. apply in_combine_r in Hin.
    unfold numbered_keys in Hin. apply in_map_iff in Hin.
    destruct Hin as [j [<- _]]. discriminate.
  - vm_compute. reflexivity.
  - vm_compute. reflexivity.
Qed.

(** The copy of [setCachedData] in [DeFiMonitoringService], called on
    its own: one hundred and one distinct keys leave one hundred and one
    entries, where the same writes leave eighty-one in a store that
    trims at one hundred. *)
Example defi_setCachedData_no_ceiling :
  JsMap.size (fill defiMonitoring_policy (numbered_keys (js "k") 101) 0 0
                JsMap.empty) = 101%nat
  /\ JsMap.size (fill coingecko_policy (numbered_keys (js "k") 101) 0 0
                   JsMap.empty) = 81%nat.
Proof. split; vm_compute; reflexivity. Qed.

(** That copy has no trim: every new key makes the store one entry
    larger. *)
Lemma defi_setCachedData_grows {V : Type} (c : CacheStore V) (k : str)
  (d : V) (now : Z) :
  JsMap.has k c = false ->
  JsMap.size (setCachedData defiMonitoring_policy k d now c)
  = S (JsMap.size c).
Proof. intros H. simpl. rewrite size_set, H. reflexivity. Qed.

(** ** The aggregate health status *)

Section HealthFacts.
Context {W : Type}.
Implicit Types (w : W) (api : ApiServices.Services W).

Lemma probe_run_probe name (service : ApiServices.Service W) acc w :
  ApiServices.probe name service acc w =
  (Ok (JsMap.set name
         (ApiServices.entry_of (fst (ApiServices.run_probe service w)))
         (fst acc),
       if ApiServices.failing (fst (ApiServices.run_probe service w))
       then true else snd acc),
   snd (ApiServices.run_probe service w)).
Proof.
  unfold ApiServices.probe, ApiServices.run_probe, try_catch, bind, ret.
  destruct (ApiServices.healthCheck service) as [check|]; simpl.
  - destruct (check w) as [[r|e] w']; reflexivity.
  - reflexivity.
Qed.

(** The loop never throws; it stores one entry per probe outcome and
    raises [hasErrors] exactly on a failing outcome. *)
Lemma probe_all_run_probes es acc w :
  ApiServices.probe_all es acc w =
  (Ok (fold_left
         (fun m no => JsMap.set (fst no) (ApiServices.entry_of (snd no)) m)
         (fst (ApiServices.run_probes es w)) (fst acc),
       snd acc ||
       existsb (fun no => ApiServices.failing (snd no))
               (fst (ApiServices.run_probes es w))),
   snd (ApiServices.run_probes es w)).
Proof.
  revert acc w; induction es as [|[name service] rest IH]; intros acc w.
  - simpl. unfold ret. now rewrite orb_false_r, <- surjective_pairing.
  - simpl. unfold bind. rewrite probe_run_probe, IH. simpl.
    destruct (ApiServices.run_probe service w) as [o w1]; simpl.
    destruct (ApiServices.run_probes rest w1) as [os w2]; simpl.
    destruct (ApiServices.failing o), (snd acc); reflexivity.
Qed.

Lemma run_probes_names es w :
  List.map fst (fst (ApiServices.run_probes es w)) = List.map fst es.
Proof.
  revert w; induction es as [|[name service] rest IH]; intros w; simpl; auto.
  destruct (ApiServices.run_probe service w) as [o w1].
  specialize (IH w1).
  destruct (ApiServices.run_probes rest w1) as [os w2]; simpl in *.
  now rewrite IH.
Qed.

End HealthFacts.

(** Assigning properties under fresh, distinct names lists them in the
    order they were assigned. *)
Lemma fold_set_fresh {A B : Type} (f : A -> B) (outs : list (str * A))
  (m : JsMap.t B) :
  NoDup (JsMap.keys m ++ List.map fst outs) ->
  fold_left (fun m no => JsMap.set (fst no) (f (snd no)) m) outs m =
  m ++ List.map (fun no => (fst no, f (snd no))) outs.
Proof.
  revert m; induction outs as [|[n o] outs IH]; intros m Hnd; simpl.
  - now rewrite app_nil_r.
  - assert (JsMap.set n (f o) m = m ++ [(n, f o)]) as Hset.
    { assert (~ In n (JsMap.keys m)) as Hn.
      { intros Hin. apply NoDup_remove_2 in Hnd. apply Hnd.
        apply in_or_app; left; exact Hin. }
      clear - Hn. induction m as [|[k v] r IHr]; simpl; auto.
      simpl in Hn. destruct (streq k n) eqn:E.
      - apply streq_eq in E. tauto.
      - f_equal. apply IHr. tauto. }
    simpl in Hnd. rewrite Hset, IH.
    + now rewrite <- app_assoc.
    + unfold JsMap.keys. rewrite map_app; simpl.
      rewrite <- app_assoc; simpl.
      unfold JsMap.keys in Hnd. exact Hnd.
Qed.

Lemma entries_names_NoDup {W : Type} (api : ApiServices.Services W) :
  NoDup (List.map fst (ApiServices.entries api)).
Proof.
  simpl. repeat constructor; simpl; intuition discriminate.
Qed.

(** C7. [getOverallStatus] runs the probe of every service once, in order,
    and completes whatever the probes do; a probe that throws becomes the
    entry [{ status: 'error', error: message }] of its service, with the
    message of what it threw, a probe that returns becomes its own
    report, and a service without a probe gets [{ status: 'unknown' }];
    [overall] is ['degraded'] when some probe reported status ['error']
    or threw, and ['healthy'] otherwise. *)
Theorem getOverallStatus_isolates_probes {W : Type} (clock : W -> Z)
  (api : ApiServices.Services W) (w : W) :
  let outcomes := fst (ApiServices.run_probes (ApiServices.entries api) w) in
  let entry := fun o : option (Result HealthReport) =>
    match o with
    | Some (Ok r) => r
    | Some (Thrown message) =>
        {| status := js "error"; error := Some message;
           responseTime := None; lastPrice := None; rateLimit := None |}
    | None =>
        {| status := js "unknown"; error := None;
           responseTime := None; lastPrice := None; rateLimit := None |}
    end in
  let failed := fun o : option (Result HealthReport) =>
    match o with
    | Some (Ok r) => streq (status r) (js "error")
    | Some (Thrown _) => true
    | None => false
    end in
  ApiServices.getOverallStatus clock api w =
  (Ok {| ApiServices.timestamp := clock w;
         ApiServices.services :=
           List.map (fun no => (fst no, entry (snd no))) outcomes;
         ApiServices.overall :=
           if existsb (fun no => failed (snd no)) outcomes
           then js "degraded" else js "healthy" |},
   snd (ApiServices.run_probes (ApiServices.entries api) w))
  /\ List.map fst outcomes =
     [js "coingecko"; js "coindesk"; js "arkhamIntel"; js "gasEstimation";
      js "networkMonitoring"; js "defiMonitoring"]
  /\ (forall name message, In (name, Some (Thrown message)) outcomes ->
        JsMap.get name
          (List.map (fun no => (fst no, entry (snd no))) outcomes)
        = Some {| status := js "error"; error := Some message;
                  responseTime := None; lastPrice := None;
                  rateLimit := None |}).
Proof.
  intros outcomes entry failed.
  assert (List.map fst outcomes = List.map fst (ApiServices.entries api))
    as Hnames by apply run_probes_names.
  assert (NoDup (List.map fst outcomes)) as Hnd
    by (rewrite Hnames; apply entries_names_NoDup).
  split; [|split].
  - unfold ApiServices.getOverallStatus, bind, gets, ret.
    rewrite probe_all_run_probes. fold outcomes. simpl.
    rewrite (fold_set_fresh ApiServices.entry_of outcomes JsMap.empty)
      by exact Hnd.
    reflexivity.
  - exact Hnames.
  - intros name message Hin. clear Hnames.
    induction outcomes as [|[n o] os IH]; simpl in *; [tauto|].
    inversion Hnd; subst.
    destruct Hin as [Heq|Hin].
    + inversion Heq; subst. now rewrite streq_refl.
    + destruct (streq n name) eqn:Hn.
      * apply streq_eq in Hn; subst n. exfalso. apply H1.
        change name with (fst (name, Some (@Thrown HealthReport message))).
        now apply in_map.
      * now apply IH.
Qed.

(** Six probes of which the second throws [socket hang up]: the call
    completes, the five others are reported healthy, the entry of the
    second carries the message, and [overall] is ['degraded']. *)
Lemma getOverallStatus_isolates_probes_witness :
  exists st,
    ApiServices.getOverallStatus (fun w => w) one_throwing_probe 1000000
    = (Ok st, 1000000)
    /\ List.map (fun kv => status (snd kv)) (ApiServices.services st)
       = [js "healthy"; js "error"; js "healthy"; js "healthy"; js "healthy";
          js "healthy"]
    /\ JsMap.get (js "coindesk") (ApiServices.services st)
       = Some {| status := js "error"; error := Some (js "socket hang up");
                 responseTime := None; lastPrice := None;
                 rateLimit := None |}
    /\ ApiServices.overall st = js "degraded".
Proof.
  destruct (getOverallStatus_isolates_probes (fun w => w) one_throwing_probe
              1000000) as (Hrun & _ & Hthrown).
  eexists. split; [exact Hrun|]. split; [reflexivity|].
  split; [|reflexivity].
  apply Hthrown. right; left; reflexivity.
Defined.

(** ** Pacing of outbound requests *)

Section PacingFacts.
Context {E : Net.Env}.
Implicit Types (w : Net.World E) (s : Net.ServiceName).

Lemma client_of_with_client s c w :
  Net.client_of s (Net.with_client s c w) = c.
Proof. destruct s; reflexivity. Qed.

(** What a call of [makeRequest] does: it leaves at [issue_time], records
    that reading, and comes back when the reply does. *)
Lemma makeRequest_run s endpoint w :
  let t := Pacing.issue_time s w in
  let r := Net.http_get E s t endpoint in
  fst (Net.makeRequest s endpoint w) = Net.response_data r
  /\ Net.sent (snd (Net.makeRequest s endpoint w))
     = Net.sent w ++ [(t, s, endpoint)]
  /\ Net.clock (snd (Net.makeRequest s endpoint w)) = t + Z.of_N (Net.latency r)
  /\ Net.lastRequestTime (Net.client_of s (snd (Net.makeRequest s endpoint w)))
     = t
  /\ Net.rateLimitDelay (Net.client_of s (snd (Net.makeRequest s endpoint w)))
     = Net.rateLimitDelay (Net.client_of s w)
  /\ Net.cache (Net.client_of s (snd (Net.makeRequest s endpoint w)))
     = Net.cache (Net.client_of s w).
Proof.
  unfold Pacing.issue_time, Net.makeRequest, Net.Date_now, Net.sleep,
    Net.set_lastRequestTime, Net.axios_get, bind, gets, modify, ret,
    try_catch, throw.
  simpl.
  destruct s; simpl; destruct (_ <? _); simpl;
    match goal with
    | |- context [Net.response_data ?r] =>
        destruct (Net.response_data r) eqn:Hr
    end; simpl; repeat split; reflexivity.
Qed.

End PacingFacts.

(** C4 (as amended). Two sequential calls of [makeRequest] on one client
    send their requests at least the client's [rateLimitDelay] apart,
    less the time by which the timer of the second call's wait resolves
    early as [Date.now()] reads it: the second call waits inside
    [makeRequest] for what is missing and stores the clock reading it
    finds afterwards, without comparing it again. With a timer that does
    not resolve early the requests are at least [rateLimitDelay] apart. *)
Theorem makeRequest_paces_requests {E : Net.Env} (s : Net.ServiceName)
  (endpoint1 endpoint2 : str) (gap : N) (w : Net.World E) :
  let (w1, w2) := Pacing.two_calls s endpoint1 endpoint2 gap w in
  let t1 := Net.lastRequestTime (Net.client_of s w1) in
  let t2 := Net.lastRequestTime (Net.client_of s w2) in
  let lateness := Net.timer_lateness E (Net.clock (Net.idle gap w1)) in
  Net.sent w2 = Net.sent w ++ [(t1, s, endpoint1); (t2, s, endpoint2)]
  /\ t2 - t1 >= Net.rateLimitDelay (Net.client_of s w) + Z.min 0 lateness
  /\ (0 <= lateness -> t2 - t1 >= Net.rateLimitDelay (Net.client_of s w))
  /\ (Net.clock (Net.idle gap w1) - t1 < Net.rateLimitDelay (Net.client_of s w)
      -> t2 - t1 = Net.rateLimitDelay (Net.client_of s w) + lateness).
Proof.
  unfold Pacing.two_calls.
  destruct (makeRequest_run s endpoint1 w) as (_ & Hs1 & Hc1 & Hl1 & Hd1 & _).
  set (w1 := snd (Net.makeRequest s endpoint1 w)) in *.
  destruct (makeRequest_run s endpoint2 (Net.idle gap w1))
    as (_ & Hs2 & _ & Hl2 & _ & _).
  set (w2 := snd (Net.makeRequest s endpoint2 (Net.idle gap w1))) in *.
  cbv zeta. rewrite Hl2.
  assert (Net.client_of s (Net.idle gap w1) = Net.client_of s w1) as Hidle
    by (destruct s; reflexivity).
  split; [|split; [|split]].
  - rewrite Hs2. change (Net.sent (Net.idle gap w1)) with (Net.sent w1).
    rewrite Hs1, Hl1, <- app_assoc. reflexivity.
  - unfold Pacing.issue_time at 1. rewrite Hidle, Hd1.
    destruct (_ <? _) eqn:Elt; [apply Z.ltb_lt in Elt | apply Z.ltb_ge in Elt];
      lia.
  - intros Hlate. unfold Pacing.issue_time at 1. rewrite Hidle, Hd1.
    destruct (_ <? _) eqn:Elt; [apply Z.ltb_lt in Elt | apply Z.ltb_ge in Elt];
      lia.
  - intros Hwait. unfold Pacing.issue_time at 1. rewrite Hidle, Hd1.
    destruct (_ <? _) eqn:Elt; [apply Z.ltb_lt in Elt | apply Z.ltb_ge in Elt];
      lia.
Qed.

(** On the free tier, with a timer that is on time: a second call
    entered 10 ms after the first request sends its own 1000 ms after
    it. *)
Lemma makeRequest_paces_requests_witness :
  let E := example_env 2000000 in
  let w := @Net.initial_world E 1000000 in
  let (w1, w2) := Pacing.two_calls Net.CoinDesk (js "/a") (js "/b") 0 w in
  Net.lastRequestTime (Net.coindesk w2) - Net.lastRequestTime (Net.coindesk w1)
  >= 1000.
Proof.
  pose proof (makeRequest_paces_requests (E := example_env 2000000)
                Net.CoinDesk (js "/a") (js "/b") 0
                (Net.initial_world 1000000)) as H.
  cbv zeta in *.
  destruct (Pacing.two_calls Net.CoinDesk (js "/a") (js "/b") 0
              (@Net.initial_world (example_env 2000000) 1000000))
    as [w1 w2].
  destruct H as (_ & _ & H & _). apply H. vm_compute. discriminate.
Defined.

(** With the paid key the delay is 100 ms; a timer that resolves 1 ms
    early lets the second request leave 99 ms after the first. *)
Example makeRequest_early_timer :
  let E := early_timer_env in
  let w := @Net.initial_world E 1000000 in
  let (w1, w2) := Pacing.two_calls Net.CoinGecko (js "/a") (js "/b") 0 w in
  Net.rateLimitDelay (Net.coingecko w) = 100
  /\ Net.sent w2 = [(1000000, Net.CoinGecko, js "/a");
                    (1000099, Net.CoinGecko, js "/b")].
Proof. vm_compute. split; reflexivity. Qed.

(** C4 as stated fails: the first call on a fresh client does not wait,
    and a reply that takes 10 ms lets the second call start 10 ms after
    the first, not 1000 ms; the second request still leaves 1000 ms after
    the first one. *)
Lemma makeRequest_call_starts_counterexample :
  let E := example_env 2000000 in
  let w := @Net.initial_world E 1000000 in
  let (w1, w2) :=
    Pacing.two_calls Net.CoinDesk (js "/a") (js "/b") 0 w in
  Net.rateLimitDelay (Net.coindesk w) = 1000
  /\ Net.clock w = 1000000
  /\ Net.clock (Net.idle 0 w1) = 1000010
  /\ ~ (Net.clock (Net.idle 0 w1) - Net.clock w
        >= Net.rateLimitDelay (Net.coindesk w))
  /\ Net.sent w2 = [(1000000, Net.CoinDesk, js "/a");
                    (1001000, Net.CoinDesk, js "/b")].
Proof.
  vm_compute. repeat split; try reflexivity. intros H; apply H; reflexivity.
Qed.

(** ** Health probes and the cache *)

Lemma with_client_same {E : Net.Env} (s : Net.ServiceName) (w : Net.World E) :
  Net.with_client s
    {| Net.cache := Net.cache (Net.client_of s w);
       Net.rateLimitDelay := Net.rateLimitDelay (Net.client_of s w);
       Net.lastRequestTime := Net.lastRequestTime (Net.client_of s w) |} w
  = w.
Proof. destruct w as [t [? ? ?] [? ? ?] l], s; reflexivity. Qed.

(** A read that finds a fresh entry changes nothing and sends nothing. *)
Lemma getCachedData_fresh {E : Net.Env} (s : Net.ServiceName) (key : str)
  (maxAge : Z) (w : Net.World E) (d : Net.Data E) (ts : Z) :
  JsMap.get key (Net.cache (Net.client_of s w))
  = Some {| data := d; timestamp := ts |} ->
  Net.clock w - ts <= maxAge ->
  Net.getCachedData s key maxAge w = (Ok (Some d), w).
Proof.
  intros Hget Hage. unfold Net.getCachedData, Cache.getCachedData.
  rewrite Hget. simpl.
  destruct (maxAge <? Net.clock w - ts) eqn:Elt;
    [apply Z.ltb_lt in Elt; lia|].
  now rewrite with_client_same.
Qed.

(** C8 at its failing input. When the CoinDesk client holds a price
    fetched at most 60 s ago, its probe reports healthy from that entry:
    no request leaves and the state is untouched, whatever the upstream
    would answer now. *)
Theorem coindesk_healthCheck_served_from_cache {E : Net.Env}
  (w : Net.World E) (d : Net.Data E) (ts : Z) :
  JsMap.get (js "btc-current-price") (Net.cache (Net.coindesk w))
  = Some {| data := d; timestamp := ts |} ->
  Net.clock w - ts <= 60 * 1000 ->
  Net.truthy E d = true ->
  Net.nullish E d = false ->
  CoinDesk.healthCheck w =
  (Ok {| status := js "healthy"; error := None; responseTime := Some 0;
         lastPrice := Net.usd_rate E d; rateLimit := None |}, w).
Proof.
  intros Hget Hage Htruthy Hnull.
  unfold CoinDesk.healthCheck, CoinDesk.getCurrentBitcoinPrice.
  unfold try_catch at 1. unfold bind at 1. unfold Net.Date_now at 1.
  unfold gets at 1. unfold bind at 1. unfold bind at 1.
  rewrite (getCachedData_fresh Net.CoinDesk _ _ w d ts Hget Hage).
  rewrite Htruthy. unfold ret at 1. unfold bind, Net.Date_now, gets, ret.
  rewrite Hnull. rewrite Z.sub_diag. reflexivity.
Qed.

(** The upstream is reachable at the first status call and down from
    100 ms later on; half a minute later the CoinDesk probe still reports
    healthy. *)
Lemma coindesk_healthCheck_served_from_cache_witness :
  let w := Net.idle 30000 (snd (example_status 1000100
                                  (Net.initial_world 1000000))) in
  Net.clock w = 1030020
  /\ Net.response_data
       (Net.http_get (example_env 1000100) Net.CoinDesk (Net.clock w)
          (js "/bpi/currentprice.json"))
     = Thrown (js "connect ECONNREFUSED")
  /\ CoinDesk.healthCheck w =
     (Ok {| status := js "healthy"; error := None; responseTime := Some 0;
            lastPrice := Some (js "42000"); rateLimit := None |}, w).
Proof.
  intros w. split; [reflexivity | split; [reflexivity|]].
  apply (coindesk_healthCheck_served_from_cache
           (E := example_env 1000100) w 42000 1000020).
  - reflexivity.
  - vm_compute. discriminate.
  - reflexivity.
  - reflexivity.
Defined.

(** The same half minute later, through the aggregate: the live CoinGecko
    probe meets the outage and reports an error, the CoinDesk probe
    reports healthy, and the only request that leaves is the CoinGecko
    ping. *)
Lemma getOverallStatus_serves_cached_coindesk :
  let w1 := snd (example_status 1000100 (Net.initial_world 1000000)) in
  let w := Net.idle 30000 w1 in
  let (r, w2) := example_status 1000100 w in
  exists st,
    r = Ok st
    /\ option_map status (JsMap.get (js "coingecko") (ApiServices.services st))
       = Some (js "error")
    /\ option_map status (JsMap.get (js "coindesk") (ApiServices.services st))
       = Some (js "healthy")
    /\ Net.sent w2 = Net.sent w ++ [(1030020, Net.CoinGecko, js "/ping")].
Proof.
  vm_compute. eexists. repeat split.
Qed.

(** ** The task runner *)

Section SchedulerFacts.
Context {X : Type}.
Import ScheduledTasks.
Implicit Types (st : State X) (key : str) (task : CronTask X).

Lemma get_In_pair {V : Type} key (v : V) (m : JsMap.t V) :
  JsMap.get key m = Some v -> exists k, In (k, v) m.
Proof.
  induction m as [|[k' v'] r IH]; simpl; [discriminate|].
  destruct (streq k' key).
  - intros [= ->]. eauto.
  - intros H. destruct (IH H) as [k Hk]. eauto.
Qed.

(** The callback of [addTask] always completes: what the task body throws
    is caught and logged. *)
Lemma firing_completes name (f : TaskFunction X) (o : Outside X) :
  fst (firing name f o) = Ok tt.
Proof.
  unfold firing, bind, try_catch, Date_now, gets, logger, modify.
  simpl. destruct (f _) as [[[]|e] o1]; reflexivity.
Qed.

Lemma fire_keeps_runner key st r st' :
  fire key st = Some (r, st') ->
  r = Ok tt /\ tasks st' = tasks st /\ isRunning st' = isRunning st.
Proof.
  unfold fire. destruct (JsMap.get key (tasks st)) as [task|]; [|discriminate].
  destruct (scheduled task); [|discriminate].
  pose proof (firing_completes (name task) (taskFunction task) (outside st)).
  destruct (firing _ _ _) as [r' o]. simpl in H.
  intros [= <- <-]. auto.
Qed.

Lemma fire_all_keeps_runner keys st :
  Forall (fun r => r = Ok tt) (fst (fire_all keys st))
  /\ tasks (snd (fire_all keys st)) = tasks st
  /\ isRunning (snd (fire_all keys st)) = isRunning st.
Proof.
  revert st; induction keys as [|key rest IH]; intros st; simpl; auto.
  destruct (fire key st) as [[r st']|] eqn:Hf; [|apply IH].
  apply fire_keeps_runner in Hf. destruct Hf as (-> & Ht & Hr).
  destruct (IH st') as (Hall & Ht' & Hr').
  destruct (fire_all rest st') as [rs st'']; simpl in *.
  repeat split; [constructor; auto | congruence | congruence].
Qed.

End SchedulerFacts.

(** C2 at its failing input. [start()] on a fresh runner sets [isRunning]
    and registers the five built-in tasks, but each timer is created with
    [scheduled: this.isRunning] while [isRunning] is still [false], and
    nothing starts it afterwards: no timer is active and no task fires. *)
Theorem start_leaves_timers_stopped {X : Type} (ops : ScheduledTasks.Ops X)
  (o : ScheduledTasks.Outside X) :
  let st := ScheduledTasks.start ops (ScheduledTasks.new_ScheduledTasks o) in
  ScheduledTasks.isRunning st = true
  /\ JsMap.keys (ScheduledTasks.tasks st) =
     [js "gas-monitoring"; js "market-data"; js "defi-monitoring";
      js "network-monitoring"; js "health-check"]
  /\ (forall key task,
        JsMap.get key (ScheduledTasks.tasks st) = Some task ->
        ScheduledTasks.scheduled task = false)
  /\ (forall key, ScheduledTasks.fire key st = None).
Proof.
  intros st.
  assert (Forall (fun kv => ScheduledTasks.scheduled (snd kv) = false)
                 (ScheduledTasks.tasks st)) as Hall
    by (repeat constructor).
  assert (forall key task,
            JsMap.get key (ScheduledTasks.tasks st) = Some task ->
            ScheduledTasks.scheduled task = false) as Hstopped.
  { intros key task Hget. apply get_In_pair in Hget. destruct Hget as [k Hin].
    rewrite Forall_forall in Hall. exact (Hall _ Hin). }
  repeat split; auto.
  intros key. unfold ScheduledTasks.fire.
  destruct (JsMap.get key (ScheduledTasks.tasks st)) as [task|] eqn:Hget; auto.
  now rewrite (Hstopped _ _ Hget).
Qed.

(** C3. When the timer of a registered task fires and the task body
    throws, the callback still completes normally: the error is logged
    with the elapsed time, and the registry, every timer in it and
    [isRunning] are as before; so it is after any run of firings. *)
Theorem firing_isolates_failure {X : Type} (st : ScheduledTasks.State X)
  (key : str) (task : ScheduledTasks.CronTask X) (error : Err)
  (o1 : ScheduledTasks.Outside X) :
  JsMap.get key (ScheduledTasks.tasks st) = Some task ->
  ScheduledTasks.scheduled task = true ->
  ScheduledTasks.taskFunction task
    (snd (ScheduledTasks.logger
            (ScheduledTasks.LogInfo
               (js "Starting scheduled task: " ++ ScheduledTasks.name task))
            (ScheduledTasks.outside st)))
  = (Thrown error, o1) ->
  let duration :=
    ScheduledTasks.clock o1 - ScheduledTasks.clock (ScheduledTasks.outside st)
  in
  ScheduledTasks.fire key st =
  Some (Ok tt,
        {| ScheduledTasks.tasks := ScheduledTasks.tasks st;
           ScheduledTasks.isRunning := ScheduledTasks.isRunning st;
           ScheduledTasks.outside :=
             {| ScheduledTasks.clock := ScheduledTasks.clock o1;
                ScheduledTasks.log :=
                  ScheduledTasks.log o1 ++
                  [ScheduledTasks.LogError
                     (js "Task " ++ ScheduledTasks.name task
                      ++ js " failed after " ++ of_Z duration ++ js "ms:")
                     error];
                ScheduledTasks.services := ScheduledTasks.services o1 |} |})
  /\ (forall keys,
        let after := ScheduledTasks.fire_all keys st in
        Forall (fun r => r = Ok tt) (fst after)
        /\ ScheduledTasks.tasks (snd after) = ScheduledTasks.tasks st
        /\ ScheduledTasks.isRunning (snd after) = ScheduledTasks.isRunning st).
Proof.
  intros Hget Hsched Hthrows duration. split.
  - unfold ScheduledTasks.fire. rewrite Hget, Hsched.
    unfold ScheduledTasks.firing, bind, try_catch, ScheduledTasks.Date_now,
      gets.
    unfold ScheduledTasks.logger at 1.
    unfold ScheduledTasks.logger, modify in Hthrows. simpl in Hthrows.
    unfold modify at 1. simpl. rewrite Hthrows. reflexivity.
  - intros keys. apply fire_all_keeps_runner.
Qed.

(** The scenario of the specification on a running runner: the task [t1]
    always fails; after two firings it is still registered, [isRunning]
    is still set, and two failures are logged with their durations. *)
Lemma firing_isolates_failure_witness :
  let st := example_runner in
  let after := ScheduledTasks.fire_all [js "t1"; js "t1"] st in
  (exists st1, ScheduledTasks.fire (js "t1") st = Some (Ok tt, st1))
  /\ fst after = [Ok tt; Ok tt]
  /\ JsMap.has (js "t1") (ScheduledTasks.tasks (snd after)) = true
  /\ ScheduledTasks.isRunning (snd after) = true
  /\ List.filter
       (fun e => match e with ScheduledTasks.LogError _ _ => true
                            | _ => false end)
       (ScheduledTasks.log (ScheduledTasks.outside (snd after)))
     = [ScheduledTasks.LogError (js "Task t1 failed after 25ms:") (js "boom");
        ScheduledTasks.LogError (js "Task t1 failed after 25ms:") (js "boom")].
Proof.
  intros st after.
  assert (exists task, JsMap.get (js "t1") (ScheduledTasks.tasks st) = Some task
                       /\ ScheduledTasks.scheduled task = true
                       /\ exists o1,
                            ScheduledTasks.taskFunction task
                              (snd (ScheduledTasks.logger
                                 (ScheduledTasks.LogInfo
                                    (js "Starting scheduled task: "
                                     ++ ScheduledTasks.name task))
                                 (ScheduledTasks.outside st)))
                            = (Thrown (js "boom"), o1))
    as (task & Hget & Hsched & o1 & Hthrows).
  { eexists. split; [vm_compute; reflexivity|].
    split; [reflexivity|]. eexists. vm_compute. reflexivity. }
  destruct (firing_isolates_failure st (js "t1") task (js "boom") o1
              Hget Hsched Hthrows) as [Hfire Hall].
  split; [eexists; exact Hfire|].
  split; [vm_compute; reflexivity|].
  destruct (Hall [js "t1"; js "t1"]) as (_ & Htasks & Hrun).
  fold after in Htasks, Hrun.
  split; [rewrite Htasks; vm_compute; reflexivity|].
  split; [rewrite Hrun; reflexivity|].
  vm_compute. reflexivity.
Defined.

(** ** Hashing *)

(** The model against the published vectors: SHA-256 of ["abc"]
    (FIPS 180-4) and the HMAC-SHA-256 of the pangram under the key
    ["key"]. *)
Example sha256_abc :
  Crypto.digest_hex (Crypto.sha256 (Crypto.utf8 (js "abc")))
  = js "ba7816bf8f01cfea414140de5dae2223b00361a396177a9cb410ff61f20015ad".
Proof. vm_compute. reflexivity. Qed.

Example hmac_sha256_pangram :
  Crypto.createHmac_sha256_hex (js "key")
    (js "The quick brown fox jumps over the lazy dog")
  = js "f7bc83f430538424b13298e6aa6fb143ef4d59a14946175997479dbc2d1a3cd8".
Proof. vm_compute. reflexivity. Qed.

(** ** Signatures *)

Lemma utf8_ascii (s : str) :
  Forall (fun c => (c < 128)%N) s ->
  Crypto.utf8 s = List.map Z.of_N s.
Proof.
  induction s as [|c r IH]; intros H; [reflexivity|].
  inversion H; subst. cbn [Crypto.utf8 List.map]. cbv zeta.
  destruct (Z.of_N c <? 128) eqn:Elt; [|apply Z.ltb_ge in Elt; lia].
  now rewrite IH.
Qed.

Lemma hex_digit_ascii (n : Z) : (Crypto.hex_digit n < 128)%N.
Proof.
  unfold Crypto.hex_digit. generalize (Z.to_nat n) as i. intros i.
  do 16 (destruct i as [|i]; [reflexivity|]).
  destruct i; reflexivity.
Qed.

Lemma digest_hex_ascii (h : Crypto.Hash) :
  Forall (fun c => (c < 128)%N) (Crypto.digest_hex h).
Proof.
  unfold Crypto.digest_hex.
  induction (Crypto.digest_bytes h) as [|b r IH]; simpl; auto.
  repeat constructor; auto using hex_digit_ascii.
Qed.

Lemma digest_hex_length (h : Crypto.Hash) :
  List.length (Crypto.digest_hex h) = 64%nat.
Proof.
  unfold Crypto.digest_hex.
  assert (forall l, List.length (flat_map Crypto.hex_byte l)
                    = (2 * List.length l)%nat) as Hlen.
  { induction l as [|b r IH]; simpl; auto. rewrite IH. lia. }
  rewrite Hlen. destruct h; reflexivity.
Qed.

(** The digest string the dispatcher compares against, [sha256=] and 64
    hexadecimal digits, is 71 bytes long. *)
Lemma digest_string_length (secret message : str) :
  List.length
    (Crypto.utf8 (js "sha256=" ++ Crypto.createHmac_sha256_hex secret message))
  = 71%nat.
Proof.
  rewrite utf8_ascii.
  - rewrite length_map, length_app.
    unfold Crypto.createHmac_sha256_hex. rewrite digest_hex_length.
    reflexivity.
  - apply Forall_app. split.
    + simpl. repeat constructor; lia.
    + apply digest_hex_ascii.
Qed.

Section DispatcherFacts.
Context {E : WebhookHandler.Env}.
Import WebhookHandler.
Implicit Types (req : Request E) (w : World).

(** A request whose signature check answers [false] gets 401 and nothing
    else happens: no handler is called and no call is made. *)
Lemma handle_rejects req secret w :
  verifySignature (body req) (x_hub_signature_256 req) secret = Ok false ->
  post_webhooks_github req secret w =
  (Ok tt,
   {| calls := calls w;
      responses := responses w
                   ++ [{| code := 401;
                          json := error_body (js "Invalid signature") |}];
      dispatched := dispatched w |}).
Proof.
  intros H. unfold post_webhooks_github, handle, try_catch. rewrite H.
  reflexivity.
Qed.

(** The check answers [false] when the header or the secret is missing or
    empty, and when the header has the length of the digest string but is
    not the digest string. *)
Lemma verifySignature_false (payload : Payload E) signature secret :
  truthy_ostr signature = false \/ truthy_ostr secret = false \/
  (exists sig sec,
     signature = Some sig /\ secret = Some sec /\
     List.length (Crypto.utf8 sig) = 71%nat /\
     Crypto.bytes_eqb (Crypto.utf8 sig)
       (Crypto.utf8 (js "sha256=" ++
          Crypto.createHmac_sha256_hex sec (JSON_stringify E payload)))
     = false) ->
  verifySignature payload signature secret = Ok false.
Proof.
  unfold verifySignature, truthy_ostr.
  intros [H|[H|(sig & sec & -> & -> & Hlen & Hne)]].
  - destruct signature as [sig|]; [|reflexivity].
    destruct secret as [sec|]; [|reflexivity]. now rewrite H.
  - destruct signature as [sig|]; [|reflexivity].
    destruct secret as [sec|]; [|reflexivity].
    rewrite H. now rewrite orb_true_r.
  - destruct (negb (truthy_str sig) || negb (truthy_str sec)); auto.
    unfold Crypto.timingSafeEqual.
    rewrite digest_string_length, Hlen, Hne. reflexivity.
Qed.

End DispatcherFacts.

(** C10 (as amended). For a non-empty signature header that is not 71
    bytes long, the length of the digest string, and a non-empty secret,
    the comparison in [verifySignature] throws instead of returning
    [false]; [handle] does not catch it and writes no response, and a
    route that hands [handle] that secret answers 500 from its own
    catch, with no 401 written and no handler called. An empty header is
    answered [false] by the guard. The endpoint as built, in which
    [handle] is handed [githubApp.webhooks.secret], answers 401, whatever
    secret is configured. *)
Theorem verifySignature_length_mismatch_throws {E : WebhookHandler.Env}
  (req : WebhookHandler.Request E) (signature secret : str)
  (w : WebhookHandler.World) :
  WebhookHandler.x_hub_signature_256 req = Some signature ->
  truthy_str signature = true ->
  truthy_str secret = true ->
  List.length (Crypto.utf8 signature) <> 71%nat ->
  let rangeError := js "Input buffers must have the same byte length" in
  let answered := fun code error =>
    (@Ok unit tt,
     {| WebhookHandler.calls := WebhookHandler.calls w;
        WebhookHandler.responses :=
          WebhookHandler.responses w
          ++ [{| WebhookHandler.code := code;
                 WebhookHandler.json := WebhookHandler.error_body error |}];
        WebhookHandler.dispatched := WebhookHandler.dispatched w |}) in
  List.length
    (Crypto.utf8 (js "sha256=" ++
       Crypto.createHmac_sha256_hex secret
         (WebhookHandler.JSON_stringify E (WebhookHandler.body req))))
  = 71%nat
  /\ WebhookHandler.verifySignature (WebhookHandler.body req)
       (Some signature) (Some secret)
     = Thrown rangeError
  /\ WebhookHandler.handle req (Some secret) w = (Thrown rangeError, w)
  /\ WebhookHandler.post_webhooks_github req (Some secret) w
     = answered 500 (js "Internal server error")
  /\ WebhookHandler.verifySignature (WebhookHandler.body req)
       (Some []) (Some secret)
     = Ok false
  /\ GithubApp.webhooks_github (Some secret) req w
     = answered 401 (js "Invalid signature").
Proof.
  intros Hsig Htsig Htsec Hlen rangeError answered.
  assert (WebhookHandler.verifySignature (WebhookHandler.body req)
            (Some signature) (Some secret)
          = Thrown rangeError)
    as Hthrow.
  { unfold WebhookHandler.verifySignature. rewrite Htsig, Htsec. simpl negb.
    simpl orb. unfold Crypto.timingSafeEqual.
    rewrite digest_string_length.
    destruct (Nat.eqb_spec (List.length (Crypto.utf8 signature)) 71);
      [contradiction | reflexivity]. }
  split; [apply digest_string_length | split; [exact Hthrow|]].
  split; [|split; [|split]].
  - unfold WebhookHandler.handle. rewrite Hsig, Hthrow. reflexivity.
  - unfold WebhookHandler.post_webhooks_github, WebhookHandler.handle,
      try_catch.
    rewrite Hsig, Hthrow. reflexivity.
  - reflexivity.
  - unfold GithubApp.webhooks_github. apply handle_rejects.
    unfold WebhookHandler.verifySignature.
    destruct (WebhookHandler.x_hub_signature_256 req); reflexivity.
Qed.

(** A delivery whose signature header is the ten bytes [sha256=abc]. *)
Lemma verifySignature_length_mismatch_throws_witness :
  let req := example_request (Some (js "sha256=abc"))
                             (js "@crypto-intel-bot status") in
  WebhookHandler.handle req (Some (js "s3cret")) WebhookHandler.new_world
  = (Thrown (js "Input buffers must have the same byte length"),
     WebhookHandler.new_world)
  /\ WebhookHandler.responses
       (snd (WebhookHandler.post_webhooks_github req (Some (js "s3cret"))
               WebhookHandler.new_world))
     = [{| WebhookHandler.code := 500;
           WebhookHandler.json :=
             WebhookHandler.error_body (js "Internal server error") |}]
  /\ WebhookHandler.responses
       (snd (GithubApp.webhooks_github (Some (js "s3cret")) req
               WebhookHandler.new_world))
     = [{| WebhookHandler.code := 401;
           WebhookHandler.json :=
             WebhookHandler.error_body (js "Invalid signature") |}].
Proof.
  intros req.
  destruct (verifySignature_length_mismatch_throws req
              (js "sha256=abc") (js "s3cret") WebhookHandler.new_world)
    as (_ & _ & Hhandle & Hroute & _ & Hbuilt).
  - reflexivity.
  - reflexivity.
  - reflexivity.
  - vm_compute. discriminate.
  - split; [exact Hhandle|]. split.
    + rewrite Hroute. reflexivity.
    + rewrite Hbuilt. reflexivity.
Defined.

(** C10 as stated fails at the endpoint and for an empty header. With
    the secret [s3cret] configured, the delivery with the ten-byte header
    [sha256=abc] is answered 401 by the endpoint, not 500; and for a
    header that is present but empty the check returns [false] and does
    not throw. *)
Lemma endpoint_length_mismatch_counterexample :
  let req := example_request (Some (js "sha256=abc"))
                             (js "@crypto-intel-bot status") in
  WebhookHandler.x_hub_signature_256 req = Some (js "sha256=abc")
  /\ List.length (Crypto.utf8 (js "sha256=abc")) = 10%nat
  /\ List.map WebhookHandler.code
       (WebhookHandler.responses
          (snd (GithubApp.webhooks_github (Some (js "s3cret")) req
                  WebhookHandler.new_world)))
     = [401]
  /\ List.length (Crypto.utf8 []) = 0%nat
  /\ WebhookHandler.verifySignature (WebhookHandler.body req) (Some [])
       (Some (js "s3cret"))
     = Ok false.
Proof. vm_compute. repeat split. Qed.

(** A route that hands [handle] a secret it can read. Three deliveries
    of one comment under the secret [s3cret]: without a signature header
    and with a header of the right length that is not the digest, the
    answer is 401; with the header [sha256=abc], which does not match
    the digest either, the answer is 500. In none of them a handler is
    called. The header GitHub would send is accepted and the handler
    runs. *)
Example handle_with_visible_secret :
  let text := js "@crypto-intel-bot status" in
  let secret := Some (js "s3cret") in
  let answer := fun signature =>
    let w := snd (WebhookHandler.post_webhooks_github
                    (example_request signature text) secret
                    WebhookHandler.new_world) in
    (List.map WebhookHandler.code (WebhookHandler.responses w),
     WebhookHandler.dispatched w) in
  answer None = ([401], [])
  /\ answer (Some (js "sha256=" ++ repeat 48%N 64)) = ([401], [])
  /\ answer (Some (js "sha256=abc")) = ([500], [])
  /\ answer (Some (sign (js "s3cret")
                     (example_stringify (example_comment text))))
     = ([200], [WebhookHandler.handleIssueComment_]).
Proof. vm_compute. repeat split. Qed.

(** ** Bot commands *)

Lemma strip_prefix_app (p x : str) : Text.strip_prefix p (p ++ x) = Some x.
Proof.
  induction p as [|c p IH]; simpl; [now destruct x|].
  now rewrite N.eqb_refl.
Qed.

Lemma includes_prefix (p x : str) : Text.includes (p ++ x) p = true.
Proof.
  destruct p as [|c p]; [now destruct x|].
  simpl. now rewrite N.eqb_refl, strip_prefix_app.
Qed.







Lemma firstn_app_length_diff (word tail : str) :
  firstn (List.length (word ++ tail) - List.length tail) (word ++ tail) = word.
Proof.
  rewrite length_app, Nat.add_sub, firstn_app, Nat.sub_diag, firstn_all.
  simpl. apply app_nil_r.
Qed.




Section CommandFacts.
Context {E : WebhookHandler.Env}.
Import WebhookHandler.
Implicit Types (w : World) (owner repo cmd : str).

(** [executeBotCommand] never throws and makes exactly the calls of the
    dispatch table. *)
Lemma executeBotCommand_calls cmd (arguments : list str) owner repo n w :
  executeBotCommand E {| command := cmd; args := arguments |} owner repo n w =
  (Ok tt,
   {| calls := calls w ++ command_calls E cmd owner repo n (calls w);
      responses := responses w;
      dispatched := dispatched w |}).
Proof.
  unfold executeBotCommand, command_calls, replyToCommand, try_catch, bind,
    call, call_getOverallStatus, ret.
  cbn [command calls responses dispatched].
  destruct (streq cmd (js "analyze")).
  { destruct (call_result E (calls w) (analyzeRepository owner repo))
      as [[]|error];
      cbn [calls responses dispatched];
      match goal with
      | |- context [call_result E ?h ?c] =>
          destruct (call_result E h c) as [[]|?]
      end; rewrite <- app_assoc; reflexivity. }
  destruct (streq cmd (js "monitor")).
  { destruct (call_result E (calls w) (updateDeployments owner repo))
      as [[]|error];
      cbn [calls responses dispatched];
      match goal with
      | |- context [call_result E ?h ?c] =>
          destruct (call_result E h c) as [[]|?]
      end; rewrite <- app_assoc; reflexivity. }
  destruct (streq cmd (js "status")).
  { cbn [calls responses dispatched].
    match goal with
    | |- context [call_result E ?h ?c] =>
          destruct (call_result E h c) as [[]|?]
    end; rewrite <- app_assoc; reflexivity. }
  match goal with
  | |- context [call_result E ?h ?c] =>
          destruct (call_result E h c) as [[]|?]
  end; reflexivity.
Qed.

Lemma executeBotCommands_calls (cs : list BotCommand) owner repo n w :
  executeBotCommands E cs owner repo n w =
  (Ok tt,
   {| calls := calls w ++ commands_calls E cs owner repo n (calls w);
      responses := responses w;
      dispatched := dispatched w |}).
Proof.
  revert w; induction cs as [|[cmd arguments] cs IH]; intros w.
  - cbn [executeBotCommands commands_calls]. rewrite app_nil_r.
    now destruct w.
  - cbn [executeBotCommands commands_calls command]. unfold bind.
    rewrite executeBotCommand_calls, IH.
    cbn [calls responses dispatched]. now rewrite app_assoc.
Qed.

End CommandFacts.



(** The same comment end to end: delivered under the signature GitHub
    computes, it is accepted, dispatched to the comment handler and
    answered 200 after the status reply has been posted. *)
Example status_comment_end_to_end :
  let E := example_webhook_env example_status_value in
  let text := js "@crypto-intel-bot status" in
  let signature := sign (js "s3cret") (example_stringify (example_comment text)) in
  WebhookHandler.post_webhooks_github
    (example_request (Some signature) text) (Some (js "s3cret"))
    WebhookHandler.new_world
  = (Ok tt,
     {| WebhookHandler.calls :=
          [WebhookHandler.getInstallationOctokit 42;
           WebhookHandler.getOverallStatus;
           WebhookHandler.createComment (js "acme") (js "vault") 7
             (WebhookHandler.reply_status E example_status_value)];
        WebhookHandler.responses :=
          [{| WebhookHandler.code := 200;
              WebhookHandler.json :=
                WebhookHandler.message_body
                  (js "Webhook processed successfully") |}];
        WebhookHandler.dispatched := [WebhookHandler.handleIssueComment_] |}).
Proof. vm_compute. reflexivity. Qed.

(** Comments off the canonical form, as the expression reads them: the
    first mention on a line that is followed by a word counts, one
    command per line; a word ends at the first character that is not a
    letter, a digit or an underscore; trailing blanks become empty
    arguments. *)
Example parseBotCommands_examples :
  WebhookHandler.parseBotCommands
    (js "@crypto-intel-bot! @crypto-intel-bot monitor x" ++ [10%N]
     ++ js "@crypto-intel-bot" ++ [10%N]
     ++ js "thanks @crypto-intel-bot   foo-bar baz")
  = [{| WebhookHandler.command := js "monitor";
        WebhookHandler.args := [js "x"] |};
     {| WebhookHandler.command := js "foo"; WebhookHandler.args := [] |}]
  /\ WebhookHandler.parseBotCommands (js "@crypto-intel-bot status  ")
     = [{| WebhookHandler.command := js "status";
           WebhookHandler.args := [js ""; js ""] |}]
  /\ WebhookHandler.parseBotCommands (js "@crypto-intel-bot status " ++ [13%N])
     = [{| WebhookHandler.command := js "status";
           WebhookHandler.args := [] |}].
Proof. vm_compute. repeat split. Qed.

(** ** Further checks of the model *)

(** A hash over two blocks, at the padding boundary, and an HMAC under a
    key longer than a block and under a key and a message outside
    ASCII. *)
Example sha256_padding_boundary :
  Crypto.digest_hex (Crypto.sha256 (repeat 97 55))
  = js "9f4390f8d30c2dd92ec9f095b65e2b9ae9b0a925a5258e241c9f1e910f734318"
  /\ Crypto.digest_hex (Crypto.sha256 (repeat 97 56))
     = js "b35439a4ac6f0948b6d6f9e3c6af0f5f590ce20f1bde7090ef7970686ec6738a"
  /\ Crypto.digest_hex (Crypto.sha256 (repeat 97 64))
     = js "ffe054fe7ae0cb6dc65c3af9b61d5209f439851db43d0ba5997337df154668eb".
Proof. vm_compute. repeat split. Qed.

Example hmac_sha256_long_key :
  Crypto.createHmac_sha256_hex (repeat 107%N 100)
    (js "{" ++ quoted (js "zen") ++ js ":" ++ quoted (repeat 120%N 150)
     ++ js "," ++ quoted (js "hook_id") ++ js ":42}")
  = js "a115e14c6cc10e653d81ca094d9c7fd629a3513a629a0d29e1267a4b1fa72d90".
Proof. vm_compute. reflexivity. Qed.

Example hmac_sha256_unicode :
  Crypto.createHmac_sha256_hex [115; 8364; 99; 114; 101; 116]%N
    [233; 8364; 55357; 56522]%N
  = js "7ee2eecc64af4f3ee64c6fcbd51bad4955595d191083afc7d24690376203e617".
Proof. vm_compute. reflexivity. Qed.

(** The DeFi monitoring store outgrows any ceiling. *)
Lemma defi_store_unbounded (ceiling : nat) :
  exists ks : list str,
    (ceiling <
     JsMap.size (fill defiMonitoring_policy ks 0%Z 0%Z
                   (@JsMap.empty (CacheEntry Z))))%nat.
Proof.
  exists (List.map (fun i => repeat 97%N i) (seq 0 (S ceiling))).
  unfold fill. rewrite length_map, length_seq.
  assert (forall n start (c : CacheStore Z),
            (forall k, In k (JsMap.keys c) -> (List.length k < start)%nat) ->
            JsMap.size
              (run defiMonitoring_policy
                 (List.map (fun ik => (0 + Z.of_nat (fst ik), OpSet (snd ik) 0))
                    (combine (seq start n)
                       (List.map (fun i => repeat 97%N i) (seq start n)))) c)
            = (JsMap.size c + n)%nat) as Hgrow.
  { induction n as [|n IH]; intros start c Hc; [simpl; lia|].
    cbn [seq List.map combine]. unfold run in *. cbn [fold_left fst snd].
    cbn [apply_op].
    rewrite IH.
    - rewrite defi_setCachedData_grows; [lia|].
      apply has_false_not_In. intros Hin. apply Hc in Hin.
      rewrite repeat_length in Hin. lia.
    - intros k Hin. unfold setCachedData, defiMonitoring_policy in Hin.
      rewrite keys_set in Hin.
      destruct (JsMap.has _ c).
      + apply Hc in Hin. lia.
      + apply in_app_or in Hin. destruct Hin as [Hin|[<-|[]]].
        * apply Hc in Hin. lia.
        * rewrite repeat_length. lia. }
  apply Nat.lt_le_trans with (m := S ceiling); [lia|].
  apply Nat.eq_le_incl. symmetry.
  apply (Hgrow (S ceiling) 0%nat JsMap.empty). intros k [].
Qed.

(** Task isolation on three tasks: the second always fails; after one
    firing of each, the first and the third are logged as done, the
    second as failed, all three are still registered and started, and
    the runner is still running. *)
Example three_tasks_second_fails :
  let after :=
    ScheduledTasks.fire_all [js "first"; js "second"; js "third"] three_tasks in
  fst after = [Ok tt; Ok tt; Ok tt]
  /\ outcomes_logged
       (ScheduledTasks.log (ScheduledTasks.outside (snd after)))
     = [ScheduledTasks.LogPerformance (js "Task first") 5;
        ScheduledTasks.LogError (js "Task second failed after 25ms:")
          (js "boom");
        ScheduledTasks.LogPerformance (js "Task third") 8]
  /\ ScheduledTasks.isRunning (snd after) = true
  /\ List.map (fun kv => ScheduledTasks.scheduled (snd kv))
       (List.filter
          (fun kv => existsb (streq (fst kv))
                       [js "first"; js "second"; js "third"])
          (ScheduledTasks.tasks (snd after)))
     = [true; true; true].
Proof. vm_compute. repeat split. Qed.

(* ################################################################## *)
(** * Further properties of the code *)

(** ** Signatures, both ways *)

Lemma bytes_eqb_eq (a b : list Z) : Crypto.bytes_eqb a b = true <-> a = b.
Proof.
  revert b; induction a as [|x a IH]; intros [|y b]; simpl;
    try (split; [discriminate | congruence]); try tauto.
  rewrite andb_true_iff, Z.eqb_eq, IH. split.
  - intros [-> ->]; reflexivity.
  - intros H; inversion H; auto.
Qed.

Lemma ascii_bit7 (c : N) : (c < 128)%N -> Z.testbit (Z.of_N c) 7 = false.
Proof.
  intros H. destruct (Z.eq_dec (Z.of_N c) 0) as [->|Hne]; [reflexivity|].
  apply Z.bits_above_log2; [lia|].
  apply Z.log2_lt_pow2; lia.
Qed.

Lemma lor_high_bit7 (m x : Z) :
  Z.testbit m 7 = true -> Z.testbit (Z.lor m x) 7 = true.
Proof. intros H. now rewrite Z.lor_spec, H. Qed.

(** Only the string itself has the UTF-8 bytes of an ASCII string. *)
Lemma utf8_eq_ascii (s d : str) :
  Forall (fun c => (c < 128)%N) d ->
  Crypto.utf8 s = List.map Z.of_N d -> s = d.
Proof.
  revert d. induction s as [|c r IH]; intros d Hd Heq.
  - destruct d; [reflexivity | discriminate].
  - cbn [Crypto.utf8] in Heq. cbv zeta in Heq.
    assert (forall b rest, Z.testbit b 7 = true ->
                           b :: rest = List.map Z.of_N d -> False) as Hhigh.
    { intros b rest Hb Hbr. destruct d as [|d0 d]; [discriminate|].
      inversion Hd; subst. simpl in Hbr. inversion Hbr; subst.
      rewrite ascii_bit7 in Hb by assumption. discriminate. }
    destruct (Z.of_N c <? 128) eqn:E1.
    { destruct d as [|d0 d]; [discriminate|]. inversion Hd; subst.
      simpl in Heq. inversion Heq. f_equal; [lia | now apply IH]. }
    exfalso.
    destruct (Z.of_N c <? 2048).
    { eapply Hhigh; [|exact Heq]. now apply lor_high_bit7. }
    destruct ((55296 <=? Z.of_N c) && (Z.of_N c <? 56320)).
    { destruct r as [|c2 r'].
      - eapply Hhigh; [|exact Heq]. reflexivity.
      - destruct ((56320 <=? Z.of_N c2) && (Z.of_N c2 <? 57344)).
        + eapply Hhigh; [|exact Heq]. now apply lor_high_bit7.
        + eapply Hhigh; [|exact Heq]. reflexivity. }
    destruct ((56320 <=? Z.of_N c) && (Z.of_N c <? 57344)).
    { eapply Hhigh; [|exact Heq]. reflexivity. }
    eapply Hhigh; [|exact Heq]. now apply lor_high_bit7.
Qed.

Lemma sign_ascii (secret message : str) :
  Forall (fun c => (c < 128)%N) (sign secret message).
Proof.
  unfold sign. apply Forall_app. split.
  - simpl. repeat constructor; lia.
  - apply digest_hex_ascii.
Qed.

(** X1. The header GitHub computes for a delivery, the HMAC of the
    serialised body under a non-empty shared secret, passes the check. *)
Theorem verifySignature_accepts_signed {E : WebhookHandler.Env}
  (payload : WebhookHandler.Payload E) (secret : str) :
  truthy_str secret = true ->
  WebhookHandler.verifySignature payload
    (Some (sign secret (WebhookHandler.JSON_stringify E payload)))
    (Some secret)
  = Ok true.
Proof.
  intros Hsec. unfold WebhookHandler.verifySignature. rewrite Hsec.
  change (truthy_str (sign secret (WebhookHandler.JSON_stringify E payload)))
    with true.
  cbn [negb orb]. unfold Crypto.timingSafeEqual. fold (sign secret
    (WebhookHandler.JSON_stringify E payload)).
  rewrite Nat.eqb_refl. f_equal. now apply bytes_eqb_eq.
Qed.

Lemma verifySignature_accepts_signed_witness :
  WebhookHandler.verifySignature
    (E := example_webhook_env example_status_value)
    (example_comment (js "@crypto-intel-bot status"))
    (Some (sign (js "s3cret")
             (example_stringify (example_comment (js "@crypto-intel-bot status")))))
    (Some (js "s3cret"))
  = Ok true.
Proof.
  apply (verifySignature_accepts_signed
           (E := example_webhook_env example_status_value)
           (example_comment (js "@crypto-intel-bot status")) (js "s3cret")).
  reflexivity.
Defined.

(** X2. The check answers [true] for no header but the digest string
    itself: [sha256=] followed by the hexadecimal HMAC of the serialised
    body under the configured secret. *)
Theorem verifySignature_true_only_digest {E : WebhookHandler.Env}
  (payload : WebhookHandler.Payload E) (signature secret : option str) :
  WebhookHandler.verifySignature payload signature secret = Ok true ->
  exists key,
    secret = Some key /\ truthy_str key = true /\
    signature = Some (sign key (WebhookHandler.JSON_stringify E payload)).
Proof.
  unfold WebhookHandler.verifySignature.
  destruct signature as [sig|]; [|discriminate].
  destruct secret as [key|]; [|discriminate].
  destruct (truthy_str sig) eqn:Hsig; [|discriminate].
  destruct (truthy_str key) eqn:Hkey; [|discriminate].
  cbn [negb orb]. unfold Crypto.timingSafeEqual.
  fold (sign key (WebhookHandler.JSON_stringify E payload)).
  destruct (_ =? _)%nat; [|discriminate].
  assert (forall a b : bool, @Ok bool a = Ok b -> a = b) as Hinj
    by (intros a b Hab; now inversion Hab).
  intros Heq. apply Hinj in Heq. apply bytes_eqb_eq in Heq.
  exists key. split; [reflexivity|]. split; [exact Hkey|]. f_equal.
  apply utf8_eq_ascii; [apply sign_ascii|].
  rewrite Heq. apply utf8_ascii, sign_ascii.
Qed.

Lemma verifySignature_true_only_digest_witness :
  exists key,
    Some (js "s3cret") = Some key /\ truthy_str key = true /\
    Some (sign (js "s3cret")
            (example_stringify (example_comment (js "@crypto-intel-bot status"))))
    = Some (sign key
              (example_stringify (example_comment (js "@crypto-intel-bot status")))).
Proof.
  apply (verifySignature_true_only_digest
           (E := example_webhook_env example_status_value)
           (example_comment (js "@crypto-intel-bot status"))).
  vm_compute. reflexivity.
Defined.


(** ** One response per request *)

Section RouteFacts.
Context {E : WebhookHandler.Env}.
Import WebhookHandler.
Implicit Types (req : Request E) (w : World).

(** No handler writes a response or calls another handler. *)
Lemma run_handler_keeps_responses (h : HandlerName) (payload : Payload E) w :
  responses (snd (run_handler h payload w)) = responses w
  /\ dispatched (snd (run_handler h payload w)) = dispatched w.
Proof.
  destruct h; try (split; reflexivity);
    [|cbn [run_handler]; unfold call_inherited;
      destruct (_ || _); [split; reflexivity|];
      destruct (streq _ _); split; reflexivity].
  cbn [run_handler]. unfold handleIssueComment.
  destruct (_ && _); [|split; reflexivity].
  unfold handleBotMention.
  destruct (parseBotCommands _) as [|c cs]; [split; reflexivity|].
  unfold bind, call.
  destruct (call_result E _ _) as [[]|e]; [|split; reflexivity].
  rewrite executeBotCommands_calls. split; reflexivity.
Qed.

End RouteFacts.

(** X3. The route answers every request exactly once and never throws:
    whatever the headers, the secret, the body and the handlers do, one
    response is written, and its code is 401, 200 or 500. *)
Theorem post_webhooks_github_one_response {E : WebhookHandler.Env}
  (req : WebhookHandler.Request E) (secret : option str)
  (w : WebhookHandler.World) :
  exists code body,
    fst (WebhookHandler.post_webhooks_github req secret w) = Ok tt
    /\ WebhookHandler.responses
         (snd (WebhookHandler.post_webhooks_github req secret w))
       = WebhookHandler.responses w
         ++ [{| WebhookHandler.code := code; WebhookHandler.json := body |}]
    /\ (code = 401 \/ code = 200 \/ code = 500).
Proof.
  unfold WebhookHandler.post_webhooks_github, WebhookHandler.handle.
  destruct (WebhookHandler.verifySignature _ _ _) as [[|]|e].
  - unfold try_catch at 1. unfold try_catch.
    destruct (match WebhookHandler.x_github_event req with
              | Some event =>
                  WebhookHandler.lookup event WebhookHandler.eventHandlers
              | None => None
              end) as [handler|].
    + unfold bind, WebhookHandler.note_dispatch, modify. cbn [fst snd].
      match goal with
      | |- context [WebhookHandler.run_handler handler ?b ?w1] =>
          destruct (run_handler_keeps_responses handler b w1) as [Hr _];
          destruct (WebhookHandler.run_handler handler b w1) as [[[]|e] w2]
      end; cbn [snd WebhookHandler.responses] in Hr;
        do 2 eexists; cbn; rewrite Hr; repeat split; auto.
    + do 2 eexists. cbn. repeat split; auto.
  - do 2 eexists. cbn. repeat split; auto.
  - do 2 eexists. cbn. repeat split; auto.
Qed.

(** X4. A failure after authentication is told apart from a failure of
    authentication: when the signature is right and the comment carries
    a command but the installation client cannot be obtained, the
    request is answered 500, not 401, and no command is executed. *)
Theorem authenticated_failure_is_500 {E : WebhookHandler.Env}
  (req : WebhookHandler.Request E) (secret : option str)
  (w : WebhookHandler.World) (error : Err) :
  let p := WebhookHandler.issue_comment E (WebhookHandler.body req) in
  WebhookHandler.verifySignature (WebhookHandler.body req)
    (WebhookHandler.x_hub_signature_256 req) secret = Ok true ->
  WebhookHandler.x_github_event req = Some (js "issue_comment") ->
  WebhookHandler.action p = js "created" ->
  Text.includes (WebhookHandler.comment_body p) WebhookHandler.mention = true ->
  WebhookHandler.parseBotCommands (WebhookHandler.comment_body p) <> [] ->
  WebhookHandler.call_result E (WebhookHandler.calls w)
    (WebhookHandler.getInstallationOctokit (WebhookHandler.installation_id p))
  = Thrown error ->
  WebhookHandler.post_webhooks_github req secret w =
  (Ok tt,
   {| WebhookHandler.calls :=
        WebhookHandler.calls w ++
        [WebhookHandler.getInstallationOctokit
           (WebhookHandler.installation_id p)];
      WebhookHandler.responses :=
        WebhookHandler.responses w
        ++ [{| WebhookHandler.code := 500;
               WebhookHandler.json :=
                 WebhookHandler.error_body (js "Internal server error") |}];
      WebhookHandler.dispatched :=
        WebhookHandler.dispatched w ++ [WebhookHandler.handleIssueComment_] |}).
Proof.
  intros p Hsig Hevent Haction Hinc Hparse Hoctokit.
  unfold WebhookHandler.post_webhooks_github, WebhookHandler.handle.
  rewrite Hsig, Hevent.
  change (WebhookHandler.lookup (js "issue_comment")
            WebhookHandler.eventHandlers)
    with (Some WebhookHandler.handleIssueComment_).
  unfold try_catch, bind, WebhookHandler.note_dispatch, modify.
  cbn [WebhookHandler.run_handler]. fold p.
  unfold WebhookHandler.handleIssueComment.
  rewrite Haction, streq_refl, Hinc. cbn [andb].
  unfold WebhookHandler.handleBotMention.
  destruct (WebhookHandler.parseBotCommands (WebhookHandler.comment_body p))
    as [|c cs]; [congruence|].
  unfold bind, WebhookHandler.call.
  cbn [WebhookHandler.calls]. rewrite Hoctokit. reflexivity.
Qed.

Lemma authenticated_failure_is_500_witness :
  let text := js "@crypto-intel-bot analyze" in
  let req :=
    @WebhookHandler.Build_Request failing_webhook_env
      (Some (sign (js "s3cret") (example_stringify (example_comment text))))
      (Some (js "issue_comment")) (Some (js "d-2")) (example_comment text) in
  List.map WebhookHandler.code
    (WebhookHandler.responses
       (snd (WebhookHandler.post_webhooks_github req (Some (js "s3cret"))
               WebhookHandler.new_world)))
  = [500]
  /\ WebhookHandler.calls
       (snd (WebhookHandler.post_webhooks_github req (Some (js "s3cret"))
               WebhookHandler.new_world))
     = [WebhookHandler.getInstallationOctokit 42].
Proof.
  intros text req.
  rewrite (authenticated_failure_is_500 (E := failing_webhook_env) req
             (Some (js "s3cret")) WebhookHandler.new_world
             (js "Bad credentials")).
  - split; reflexivity.
  - vm_compute. reflexivity.
  - reflexivity.
  - reflexivity.
  - reflexivity.
  - vm_compute. discriminate.
  - reflexivity.
Defined.


(** ** What the command parser returns *)

Lemma greedy_inv {R : Type} (class : N -> bool) (s : str)
  (k : str -> option R) (r : R) :
  Text.greedy class s k = Some r ->
  exists xs s', s = xs ++ s' /\ Forall (fun c => class c = true) xs
                /\ k s' = Some r.
Proof.
  induction s as [|c s IH]; simpl.
  - intros H. exists [], []. auto.
  - destruct (class c) eqn:Hc.
    + destruct (Text.greedy class s k) as [x|] eqn:Hg.
      * intros [= ->]. destruct (IH eq_refl) as (xs & s' & -> & Hxs & Hk).
        exists (c :: xs), s'. auto.
      * intros H. exists [], (c :: s). auto.
    + intros H. exists [], (c :: s). auto.
Qed.

Lemma plus_inv {R : Type} (class : N -> bool) (s : str)
  (k : str -> option R) (r : R) :
  Text.plus class s k = Some r ->
  exists xs s', s = xs ++ s' /\ xs <> [] /\ Forall (fun c => class c = true) xs
                /\ k s' = Some r.
Proof.
  destruct s as [|c s]; simpl; [discriminate|].
  destruct (class c) eqn:Hc; [|discriminate].
  intros H. apply greedy_inv in H. destruct H as (xs & s' & -> & Hxs & Hk).
  exists (c :: xs), s'. repeat split; auto. discriminate.
Qed.

(** Whatever the mention expression matches, its first group is a
    non-empty run of word characters and its second group, when it took
    part, a non-empty run without line terminators. *)
Lemma run_mention_re_captures (s : str) (m : Text.Captures) :
  Text.run WebhookHandler.mention_re s [] (fun _ m => Some m) = Some m ->
  exists word,
    Text.capture 1 m = Some word /\ word <> []
    /\ Forall (fun c => Text.is_word c = true) word
    /\ (Text.capture 2 m = None \/
        exists rest, Text.capture 2 m = Some rest /\ rest <> []
                     /\ Forall (fun c => Text.is_dot c = true) rest).
Proof.
  unfold WebhookHandler.mention_re. cbn [Text.run].
  destruct (Text.strip_prefix WebhookHandler.mention s) as [s0|]; [|discriminate].
  intros H. apply plus_inv in H. destruct H as (_ & s1 & _ & _ & _ & H).
  apply plus_inv in H. destruct H as (word & s2 & -> & Hne & Hword & H).
  rewrite firstn_app_length_diff in H.
  exists word.
  match type of H with
  | match ?inner with Some _ => _ | None => _ end = _ =>
      destruct inner as [m'|] eqn:Hinner
  end.
  - injection H as ->.
    apply plus_inv in Hinner. destruct Hinner as (_ & s3 & _ & _ & _ & H).
    apply plus_inv in H. destruct H as (rest & s4 & -> & Hne' & Hrest & H).
    rewrite firstn_app_length_diff in H. injection H as <-.
    repeat split; auto. right. exists rest. auto.
  - injection H as <-. repeat split; auto.
Qed.

Lemma exec_inv (re : Text.Regex) (s : str) (m : Text.Captures) :
  Text.exec re s = Some m ->
  exists s', Text.run re s' [] (fun _ m => Some m) = Some m.
Proof.
  induction s as [|c s IH]; simpl.
  - destruct (Text.run re [] [] _) as [m'|] eqn:Hrun; [|discriminate].
    intros [= <-]. eauto.
  - destruct (Text.run re (c :: s) [] _) as [m'|] eqn:Hrun.
    + intros [= <-]. eauto.
    + exact IH.
Qed.

(** The pieces of [s.split(sep)] are free of the separator. *)
Lemma split_parts (sep : N) (Q : N -> Prop) (s : str) :
  Forall Q s ->
  Forall (fun part => Forall (fun c => Q c /\ c <> sep) part)
         (Text.split sep s).
Proof.
  induction s as [|c r IH]; intros H; simpl; [repeat constructor|].
  inversion H; subst. specialize (IH H3).
  destruct (N.eqb_spec c sep).
  - constructor; auto.
  - destruct (Text.split sep r) as [|h t]; [repeat constructor; auto|].
    inversion IH; subst. constructor; auto.
Qed.

(** X5. Every command the parser returns has a non-empty command word
    made of letters, digits and underscores only, none of its arguments
    contains a space or a line terminator, and there is at most one
    command per line of the comment. *)
Theorem parseBotCommands_well_formed (commentBody : str) :
  Forall well_formed_command (WebhookHandler.parseBotCommands commentBody)
  /\ (List.length (WebhookHandler.parseBotCommands commentBody)
      <= List.length (Text.split 10 commentBody))%nat.
Proof.
  unfold WebhookHandler.parseBotCommands.
  generalize (Text.split 10 commentBody) as lines. intros lines.
  assert (forall (acc : list WebhookHandler.BotCommand),
            Forall well_formed_command acc ->
            let out :=
              fold_left
                (fun commands line =>
                   if Text.includes line WebhookHandler.mention
                   then
                     match Text.exec WebhookHandler.mention_re line with
                     | Some m =>
                         match Text.capture 1 m with
                         | Some word =>
                             commands ++
                             [{| WebhookHandler.command := word;
                                 WebhookHandler.args :=
                                   match Text.capture 2 m with
                                   | Some rest =>
                                       if truthy_str rest
                                       then Text.split 32 rest else []
                                   | None => []
                                   end |}]
                         | None => commands
                         end
                     | None => commands
                     end
                   else commands) lines acc in
            Forall well_formed_command out
            /\ (List.length out <= List.length acc + List.length lines)%nat)
    as Hfold.
  { induction lines as [|line lines IH]; intros acc Hacc; cbn [fold_left].
    - split; [exact Hacc | simpl; lia].
    - cbn [List.length].
      destruct (Text.includes line WebhookHandler.mention);
        [|destruct (IH acc Hacc); split; [assumption | lia]].
      destruct (Text.exec WebhookHandler.mention_re line) as [m|] eqn:Hexec;
        [|destruct (IH acc Hacc); split; [assumption | lia]].
      apply exec_inv in Hexec. destruct Hexec as [s' Hrun].
      apply run_mention_re_captures in Hrun.
      destruct Hrun as (word & H1 & Hne & Hword & H2). rewrite H1.
      match goal with
      | |- context [fold_left _ lines (acc ++ [?c])] =>
          destruct (IH (acc ++ [c])) as [Hwf Hlen]
      end.
      + apply Forall_app. split; [exact Hacc|]. constructor; [|constructor].
        unfold well_formed_command. cbn. repeat split; auto.
        destruct H2 as [->|(rest & -> & Hne' & Hrest)]; [constructor|].
        destruct (truthy_str rest); [|constructor].
        apply (split_parts 32 (fun ch => Text.is_dot ch = true)), Hrest.
      + rewrite length_app in Hlen. simpl in Hlen. split; [assumption | lia]. }
  destruct (Hfold [] (Forall_nil _)) as [Hwf Hlen]. split; [exact Hwf|].
  simpl in Hlen. exact Hlen.
Qed.

Lemma strip_prefix_Some (p s r : str) :
  Text.strip_prefix p s = Some r -> s = p ++ r.
Proof.
  revert s; induction p as [|x p IH]; intros s; simpl.
  - destruct s; intros [= <-]; reflexivity.
  - destruct s as [|y s]; [discriminate|].
    destruct (N.eqb_spec x y); [|discriminate].
    intros H. apply IH in H. subst. reflexivity.
Qed.

Lemma includes_unfold (s sub : str) :
  Text.includes s sub =
  match Text.strip_prefix sub s with
  | Some _ => true
  | None => match s with [] => false | _ :: r => Text.includes r sub end
  end.
Proof. destruct s; reflexivity. Qed.

(** [s.includes(sub)] tells whether [sub] occurs in [s]. *)
Lemma includes_iff (s sub : str) :
  Text.includes s sub = true <-> exists pre post, s = pre ++ sub ++ post.
Proof.
  split.
  - induction s as [|c s IH]; rewrite includes_unfold.
    + destruct (Text.strip_prefix sub []) as [r|] eqn:H; [|discriminate].
      apply strip_prefix_Some in H. intros _. exists [], r. exact H.
    + destruct (Text.strip_prefix sub (c :: s)) as [r|] eqn:H.
      * apply strip_prefix_Some in H. intros _. exists [], r. exact H.
      * intros Hin. destruct (IH Hin) as (pre & post & ->).
        exists (c :: pre), post. reflexivity.
  - intros (pre & post & ->). induction pre as [|c pre IH].
    + simpl app. apply includes_prefix.
    + rewrite includes_unfold. simpl app.
      destruct (Text.strip_prefix sub (c :: pre ++ sub ++ post)); auto.
Qed.

Lemma split_head (sep : N) (s h : str) (t : list str) :
  Text.split sep s = h :: t -> exists post, s = h ++ post.
Proof.
  revert h t; induction s as [|c r IH]; intros h t; simpl.
  - intros [= <- <-]. exists []. reflexivity.
  - destruct (N.eqb c sep).
    + intros [= <- <-]. exists (c :: r). reflexivity.
    + destruct (Text.split sep r) as [|h' t'] eqn:Hs.
      * intros [= <- <-]. exists r. reflexivity.
      * intros [= <- <-]. destruct (IH h' t' eq_refl) as [post ->].
        exists post. reflexivity.
Qed.

Lemma split_In (sep : N) (s line : str) :
  In line (Text.split sep s) -> exists pre post, s = pre ++ line ++ post.
Proof.
  revert line; induction s as [|c r IH]; intros line; simpl.
  - intros [<-|[]]. exists [], []. reflexivity.
  - destruct (N.eqb c sep).
    + intros [<-|Hin].
      * exists [], (c :: r). reflexivity.
      * destruct (IH _ Hin) as (pre & post & ->).
        exists (c :: pre), post. reflexivity.
    + destruct (Text.split sep r) as [|h t] eqn:Hs.
      * intros [<-|[]]. exists [], r. reflexivity.
      * intros [<-|Hin].
        -- destruct (split_head sep r h t Hs) as [post ->].
           exists [], post. reflexivity.
        -- destruct (IH line (or_intror Hin)) as (pre & post & ->).
           exists (c :: pre), post. reflexivity.
Qed.


(** X6. A comment that does not contain the mention yields no command,
    and the comment handler does nothing for it: no call, no reply,
    whatever its action. *)
Theorem comment_without_mention_ignored {E : WebhookHandler.Env}
  (p : WebhookHandler.IssueCommentPayload) (w : WebhookHandler.World) :
  Text.includes (WebhookHandler.comment_body p) WebhookHandler.mention = false ->
  WebhookHandler.parseBotCommands (WebhookHandler.comment_body p) = []
  /\ WebhookHandler.handleIssueComment E p w = (Ok tt, w).
Proof.
  intros Hno. split.
  - unfold WebhookHandler.parseBotCommands.
    assert (forall line,
              In line (Text.split 10 (WebhookHandler.comment_body p)) ->
              Text.includes line WebhookHandler.mention = false) as Hlines.
    { intros line Hin. apply not_true_is_false. intros Hinc.
      apply includes_iff in Hinc. destruct Hinc as (pre & post & ->).
      apply split_In in Hin. destruct Hin as (pre' & post' & Hbody).
      assert (Text.includes (WebhookHandler.comment_body p)
                WebhookHandler.mention = true) as Hyes.
      { apply includes_iff. exists (pre' ++ pre), (post ++ post').
        rewrite Hbody. now rewrite <- !app_assoc. }
      congruence. }
    match goal with
    | |- fold_left ?F _ [] = [] =>
        assert (forall lines acc,
                  (forall line, In line lines ->
                     Text.includes line WebhookHandler.mention = false) ->
                  fold_left F lines acc = acc) as Hfold
    end.
    { induction lines as [|line lines IH]; intros acc Hl;
        cbn [fold_left]; [reflexivity|].
      rewrite (Hl line) by (left; reflexivity).
      apply IH. intros l Hin. apply Hl. right; exact Hin. }
    apply Hfold, Hlines.
  - unfold WebhookHandler.handleIssueComment. rewrite Hno.
    now rewrite andb_false_r.
Qed.

Lemma comment_without_mention_ignored_witness :
  WebhookHandler.parseBotCommands (js "thanks, status looks fine") = []
  /\ WebhookHandler.handleIssueComment
       (example_webhook_env example_status_value)
       (example_comment (js "thanks, status looks fine"))
       WebhookHandler.new_world
     = (Ok tt, WebhookHandler.new_world).
Proof.
  apply (comment_without_mention_ignored
           (E := example_webhook_env example_status_value)
           (example_comment (js "thanks, status looks fine"))
           WebhookHandler.new_world).
  reflexivity.
Defined.

(** ** Pushes *)

Lemma existsb_streq_In (x : str) (l : list str) :
  existsb (streq x) l = true <-> In x l.
Proof.
  rewrite existsb_exists. split.
  - intros (y & Hin & Heq). apply streq_eq in Heq. now subst.
  - intros Hin. exists x. split; [assumption | apply streq_refl].
Qed.

Lemma Set_values_fold (l seen : list str) :
  NoDup seen ->
  let out := fold_left (fun seen x => if existsb (streq x) seen
                                      then seen else seen ++ [x]) l seen in
  NoDup out /\ (forall x, In x out <-> In x seen \/ In x l).
Proof.
  revert seen; induction l as [|y l IH]; intros seen Hnd; cbn [fold_left].
  - split; [assumption | intros x; simpl; tauto].
  - destruct (existsb (streq y) seen) eqn:Hy.
    + destruct (IH seen Hnd) as [Hnd' Hin]. split; [assumption|].
      intros x. rewrite Hin. simpl. apply existsb_streq_In in Hy.
      split; [tauto|]. intros [H|[<-|H]]; auto.
    + assert (~ In y seen) as Hny.
      { intros H. apply existsb_streq_In in H. congruence. }
      destruct (IH (seen ++ [y])) as [Hnd' Hin].
      * apply NoDup_app; auto.
        -- repeat constructor. simpl. tauto.
        -- intros x Hx [<-|[]]. contradiction.
      * split; [assumption|]. intros x. rewrite Hin, in_app_iff. simpl. tauto.
Qed.

Lemma contract_files_fold (commits : list WebhookPush.Commit)
  (acc : list str) (f : str) :
  In f (fold_left
          (fun contractFiles commit =>
             let files := WebhookPush.or_empty (WebhookPush.added commit)
                          ++ WebhookPush.or_empty (WebhookPush.modified commit) in
             contractFiles ++ List.filter WebhookPush.is_contract_file files)
          commits acc)
  <-> In f acc \/
      exists commit,
        In commit commits
        /\ (In f (WebhookPush.or_empty (WebhookPush.added commit)) \/
            In f (WebhookPush.or_empty (WebhookPush.modified commit)))
        /\ WebhookPush.is_contract_file f = true.
Proof.
  revert acc; induction commits as [|c commits IH]; intros acc;
    cbn [fold_left].
  - split; [auto | intros [H|(c & [] & _)]; exact H].
  - cbv zeta. rewrite IH, in_app_iff, filter_In, in_app_iff. split.
    + intros [[H|[H1 H2]]|(c' & Hc' & H)]; auto.
      * right. exists c. simpl. auto.
      * right. exists c'. simpl. tauto.
    + intros [H|(c' & [<-|Hc'] & H1 & H2)]; auto.
      right. exists c'. auto.
Qed.

Lemma endsWith_iff (s suffix : str) :
  WebhookPush.endsWith s suffix = true <-> exists pre, s = pre ++ suffix.
Proof.
  unfold WebhookPush.endsWith. split.
  - destruct (Text.strip_prefix (rev suffix) (rev s)) as [r|] eqn:H;
      [|discriminate].
    intros _. apply strip_prefix_Some in H. exists (rev r).
    rewrite <- (rev_involutive s), H, rev_app_distr, rev_involutive.
    reflexivity.
  - intros [pre ->]. rewrite rev_app_distr, strip_prefix_app. reflexivity.
Qed.

(** X7. [findContractFiles] returns, without repetition, exactly the
    files added or modified by some commit of the push that end in
    [.sol] or [.vy] or contain [contract] or [Contract]. *)
Theorem findContractFiles_spec (commits : list WebhookPush.Commit) :
  NoDup (WebhookPush.findContractFiles commits)
  /\ (forall f,
        In f (WebhookPush.findContractFiles commits) <->
        exists commit,
          In commit commits
          /\ (In f (WebhookPush.or_empty (WebhookPush.added commit)) \/
              In f (WebhookPush.or_empty (WebhookPush.modified commit)))
          /\ ((exists pre, f = pre ++ js ".sol") \/
              (exists pre, f = pre ++ js ".vy") \/
              (exists pre post, f = pre ++ js "contract" ++ post) \/
              (exists pre post, f = pre ++ js "Contract" ++ post))).
Proof.
  unfold WebhookPush.findContractFiles, WebhookPush.Set_values.
  match goal with
  | |- context [fold_left _ ?l []] =>
      match l with
      | fold_left _ commits [] =>
          destruct (Set_values_fold l [] (NoDup_nil _)) as [Hnd Hin]
      end
  end.
  split; [exact Hnd|].
  intros f. rewrite Hin, contract_files_fold. simpl.
  assert (WebhookPush.is_contract_file f = true <->
          (exists pre, f = pre ++ js ".sol") \/
          (exists pre, f = pre ++ js ".vy") \/
          (exists pre post, f = pre ++ js "contract" ++ post) \/
          (exists pre post, f = pre ++ js "Contract" ++ post)) as Hfile.
  { unfold WebhookPush.is_contract_file.
    rewrite !orb_true_iff, !endsWith_iff, !includes_iff. tauto. }
  split.
  - intros [[]|[[]|(c & Hc & Hf & Hp)]].
    exists c. rewrite <- Hfile. auto.
  - intros (c & Hc & Hf & Hp). right. right. exists c.
    rewrite Hfile. auto.
Qed.

(** X8. [handlePush] never throws. A push without contract files makes
    no call; a push with contract files calls the gas analysis and then
    the deployment update, the second whether or not the first failed. *)
Theorem handlePush_calls {E : WebhookHandler.Env}
  (p : WebhookPush.PushPayload) (w : WebhookHandler.World) :
  WebhookPush.handlePush E p w =
  (Ok tt,
   {| WebhookHandler.calls :=
        WebhookHandler.calls w ++
        match WebhookPush.findContractFiles (WebhookPush.commits p) with
        | [] => []
        | _ :: _ =>
            [WebhookHandler.analyzeRepository (WebhookPush.owner p)
               (WebhookPush.repo p);
             WebhookHandler.updateDeployments (WebhookPush.owner p)
               (WebhookPush.repo p)]
        end;
      WebhookHandler.responses := WebhookHandler.responses w;
      WebhookHandler.dispatched := WebhookHandler.dispatched w |}).
Proof.
  unfold WebhookPush.handlePush.
  destruct (WebhookPush.findContractFiles (WebhookPush.commits p)).
  - rewrite app_nil_r. now destruct w.
  - unfold bind, try_catch, WebhookHandler.call, ret.
    destruct (WebhookHandler.call_result E _ _) as [[]|e1];
      cbn [WebhookHandler.calls WebhookHandler.responses
             WebhookHandler.dispatched];
      destruct (WebhookHandler.call_result E _ _) as [[]|e2];
      rewrite <- app_assoc; reflexivity.
Qed.


(** ** The built-in tasks *)

Section RunnerFacts.
Context {X : Type}.
Import ScheduledTasks.
Implicit Types (st : State X) (o : Outside X).

Lemma guarded_completes (work : M (Outside X) unit) (done failed : string) o :
  fst (guarded work done failed o) = Ok tt.
Proof.
  unfold guarded, try_catch, bind, logger, modify.
  destruct (work o) as [[[]|e] o1]; reflexivity.
Qed.

Lemma warn_unhealthy_completes (entries : list (str * HealthReport)) o :
  fst (warn_unhealthy entries o) = Ok tt.
Proof.
  revert o; induction entries as [|[name r] rest IH]; intros o;
    [reflexivity|].
  cbn [warn_unhealthy]. unfold bind.
  destruct (streq (status r) (js "error")); cbn; apply IH.
Qed.

Lemma health_check_task_completes (ops : Ops X) o :
  fst (health_check_task ops o) = Ok tt.
Proof.
  unfold health_check_task, try_catch, bind.
  destruct (getOverallStatus ops o) as [[s|e] o1]; [|reflexivity].
  cbn [logger modify].
  pose proof (warn_unhealthy_completes (ApiServices.services s)
                (snd (logger (LogInfo (js "Health check completed")) o1)))
    as H.
  cbn [logger modify snd] in H.
  destruct (warn_unhealthy _ _) as [[[]|e] o2]; [reflexivity|discriminate].
Qed.

End RunnerFacts.

(** X11. The bodies of the five tasks [start()] registers never reject,
    whatever the services they call do. The market-data task, moreover,
    never takes its failure branch: [updateMarketData] resolves whatever
    the two updates reject with, so the task logs that the update
    completed, and nothing else, after the two updates have settled. *)
Theorem builtin_tasks_never_reject {X : Type} (ops : ScheduledTasks.Ops X)
  (o : ScheduledTasks.Outside X) :
  Forall (fun kv => forall o',
            fst (ScheduledTasks.taskFunction (snd kv) o') = Ok tt)
         (ScheduledTasks.tasks
            (ScheduledTasks.start ops (ScheduledTasks.new_ScheduledTasks o)))
  /\ (exists task,
        JsMap.get (js "market-data")
          (ScheduledTasks.tasks
             (ScheduledTasks.start ops (ScheduledTasks.new_ScheduledTasks o)))
        = Some task
        /\ forall o',
             let settled := snd (ScheduledTasks.market_updates ops o') in
             ScheduledTasks.taskFunction task o'
             = (Ok tt,
                {| ScheduledTasks.clock := ScheduledTasks.clock settled;
                   ScheduledTasks.log :=
                     ScheduledTasks.log settled
                     ++ [ScheduledTasks.LogInfo
                           (js "Market data update completed")];
                   ScheduledTasks.services :=
                     ScheduledTasks.services settled |})).
Proof.
  split.
  - repeat constructor; intros o'; cbn [snd ScheduledTasks.taskFunction];
      first [apply guarded_completes | apply health_check_task_completes].
  - eexists. split; [reflexivity|].
    intros o'. cbn [ScheduledTasks.taskFunction ScheduledTasks.cron_schedule].
    unfold ScheduledTasks.guarded, ScheduledTasks.updateMarketData,
      try_catch, bind, ScheduledTasks.logger, modify.
    destruct (ScheduledTasks.market_updates ops o') as [rs o1].
    reflexivity.
Qed.


(** ** The cached getters *)

Section GetterFacts.
Context {E : Net.Env}.
Implicit Types (w : Net.World E) (s : Net.ServiceName).

Lemma Net_getCachedData_run s key maxAge w :
  let looked := Cache.getCachedData key maxAge (Net.clock w)
                  (Net.cache (Net.client_of s w)) in
  Net.getCachedData s key maxAge w =
  (Ok (fst looked),
   Net.with_client s
     {| Net.cache := snd looked;
        Net.rateLimitDelay := Net.rateLimitDelay (Net.client_of s w);
        Net.lastRequestTime := Net.lastRequestTime (Net.client_of s w) |} w).
Proof.
  unfold Net.getCachedData.
  destruct (Cache.getCachedData _ _ _ _); reflexivity.
Qed.

(** A lookup that serves a value has left the store as it was. *)
Lemma getCachedData_Some_same {V : Type} key maxAge now (c : CacheStore V) d :
  fst (Cache.getCachedData key maxAge now c) = Some d ->
  snd (Cache.getCachedData key maxAge now c) = c.
Proof.
  unfold Cache.getCachedData. destruct (JsMap.get key c) as [e|]; auto.
  destruct (maxAge <? now - timestamp e); [discriminate | reflexivity].
Qed.

Lemma issue_time_with_cache s w (c : CacheStore (Net.Data E)) :
  Pacing.issue_time s
    (Net.with_client s
       {| Net.cache := c;
          Net.rateLimitDelay := Net.rateLimitDelay (Net.client_of s w);
          Net.lastRequestTime := Net.lastRequestTime (Net.client_of s w) |} w)
  = Pacing.issue_time s w.
Proof. destruct s; reflexivity. Qed.

Lemma Net_setCachedData_run s key d w :
  fst (Net.setCachedData s key d w) = Ok tt
  /\ Net.sent (snd (Net.setCachedData s key d w)) = Net.sent w
  /\ Net.clock (snd (Net.setCachedData s key d w)) = Net.clock w
  /\ Net.cache (Net.client_of s (snd (Net.setCachedData s key d w)))
     = Cache.setCachedData (Net.policy_of s) key d (Net.clock w)
         (Net.cache (Net.client_of s w)).
Proof. destruct s; repeat split; reflexivity. Qed.

(** The shared body is a cache-aside read of its key. *)
Lemma cachedRequest_cache_aside s key maxAge endpoint :
  Getters.cache_aside (E := E) (Getters.cachedRequest s key maxAge endpoint)
    s key maxAge endpoint.
Proof.
  intros w. cbv zeta.
  set (looked := Cache.getCachedData key maxAge (Net.clock w)
                   (Net.cache (Net.client_of s w))).
  set (w0 := Net.with_client s
               {| Net.cache := snd looked;
                  Net.rateLimitDelay := Net.rateLimitDelay (Net.client_of s w);
                  Net.lastRequestTime := Net.lastRequestTime (Net.client_of s w) |}
               w).
  assert (Net.getCachedData s key maxAge w = (Ok (fst looked), w0)) as Hlook
    by apply Net_getCachedData_run.
  assert (let g := Getters.cachedRequest (E := E) s key maxAge endpoint in
          let t := Pacing.issue_time s w in
          let r := Net.http_get E s t endpoint in
          (match fst looked with
           | Some hit => Net.truthy E hit = false
           | None => True
           end) ->
          fst (g w) = Net.response_data r
          /\ Net.sent (snd (g w)) = Net.sent w ++ [(t, s, endpoint)]
          /\ Net.clock (snd (g w)) = t + Z.of_N (Net.latency r)
          /\ Net.cache (Net.client_of s (snd (g w)))
             = match Net.response_data r with
               | Ok d =>
                   Cache.setCachedData (Net.policy_of s) key d
                     (t + Z.of_N (Net.latency r)) (snd looked)
               | Thrown _ => snd looked
               end) as Hfetch.
  { cbv zeta. intros Hmiss.
    destruct (makeRequest_run s endpoint w0) as (Hr & Hs & Hc & _ & _ & Hca).
    cbv zeta in Hr, Hs, Hc.
    assert (Pacing.issue_time s w0 = Pacing.issue_time s w) as Hit
      by (unfold w0; apply issue_time_with_cache).
    rewrite Hit in Hr, Hs, Hc.
    assert (Net.sent w0 = Net.sent w) as Hs0 by (destruct s; reflexivity).
    assert (Net.cache (Net.client_of s w0) = snd looked) as Hc0
      by (unfold w0; now rewrite client_of_with_client).
    rewrite Hs0 in Hs. rewrite Hc0 in Hca.
    unfold Getters.cachedRequest, bind. rewrite Hlook.
    assert ((if match fst looked with
                | Some hit => Net.truthy E hit
                | None => false
                end then true else false) = false) as _ by
      (destruct (fst looked); [now rewrite Hmiss | reflexivity]).
    assert (forall fetch,
              match fst looked with
              | Some hit => if Net.truthy E hit then ret hit else fetch
              | None => fetch
              end w0 = fetch w0) as Hsel.
    { intros fetch. destruct (fst looked); [now rewrite Hmiss | reflexivity]. }
    rewrite Hsel. unfold try_catch, bind, throw, ret.
    destruct (Net.makeRequest s endpoint w0) as [[d|e] w1].
    - cbn [fst snd] in Hr, Hs, Hc, Hca. rewrite <- Hr.
      destruct (Net_setCachedData_run s key d w1) as (Hok & Hs1 & Hc1 & Hca1).
      destruct (Net.setCachedData s key d w1) as [[[]|e'] w2];
        [|discriminate].
      cbn [fst snd] in *. rewrite Hs1, Hc1, Hca1, Hs, Hc, Hca. auto.
    - cbn [fst snd] in Hr, Hs, Hc, Hca. rewrite <- Hr. auto. }
  cbv zeta in Hfetch.
  destruct (fst looked) as [hit|] eqn:Hhit; [|apply Hfetch; exact I].
  destruct (Net.truthy E hit) eqn:Htruthy; [|apply Hfetch; reflexivity].
  unfold Getters.cachedRequest, bind. rewrite Hlook, Htruthy.
  unfold ret. f_equal.
  unfold w0. unfold looked in Hhit |- *.
  rewrite (getCachedData_Some_same _ _ _ _ _ Hhit).
  apply with_client_same.
Qed.

End GetterFacts.

(** X12. Each cached getter of the two clients is a cache-aside read of
    its own key, window and endpoint: [getCoinData], [getTrendingCoins],
    [getGlobalMarketData], [getDefiData] and [getBitcoinPriceIndex]
    return a truthy cached value without a request and without changing
    anything; otherwise they send exactly one request at the paced
    moment, pass its outcome on, and store the answer only when there is
    one, so that a failure leaves the store as the lookup left it and a
    falsy value is stored but requested again next time. *)
Theorem getters_cache_aside {E : Net.Env} (coinId : str) :
  Getters.cache_aside (E := E) (Getters.getCoinData coinId) Net.CoinGecko
    (js "coin-" ++ coinId) 120000 (js "/coins/" ++ coinId)
  /\ Getters.cache_aside (E := E) Getters.getTrendingCoins Net.CoinGecko
       (js "trending-coins") 600000 (js "/search/trending")
  /\ Getters.cache_aside (E := E) Getters.getGlobalMarketData Net.CoinGecko
       (js "global-market") 300000 (js "/global")
  /\ Getters.cache_aside (E := E) Getters.getDefiData Net.CoinGecko
       (js "defi-data") 600000 (js "/global/decentralized_finance_defi")
  /\ Getters.cache_aside (E := E) Getters.getBitcoinPriceIndex Net.CoinDesk
       (js "btc-price-index") 300000 (js "/bpi/currentprice.json").
Proof. repeat split; apply cachedRequest_cache_aside. Qed.


(** A getter called twice within its window sends one request; called
    again after the window, it sends a second one. *)
Example getTrendingCoins_twice :
  let E := example_env 2000000 in
  let w1 := snd (Getters.getTrendingCoins (@Net.initial_world E 1000000)) in
  let w2 := snd (Getters.getTrendingCoins (Net.idle 300000 w1)) in
  let w3 := snd (Getters.getTrendingCoins (Net.idle 300001 w2)) in
  Net.sent w2 = [(1000000, Net.CoinGecko, js "/search/trending")]
  /\ Net.sent w3 = [(1000000, Net.CoinGecko, js "/search/trending");
                    (1600011, Net.CoinGecko, js "/search/trending")].
Proof. vm_compute. split; reflexivity. Qed.

(** ** Probes and initialisation *)

(** X13. The probes of the two paced clients never reject: each resolves
    to a report whose status is ['healthy'] or ['error']. Hence
    [initialize()], which only awaits the probe, never rejects either,
    whatever the upstream does. *)
Theorem healthCheck_never_rejects {E : Net.Env} (w : Net.World E) :
  (exists r, fst (CoinGecko.healthCheck w) = Ok r
             /\ (status r = js "healthy" \/ status r = js "error"))
  /\ (exists r, fst (CoinDesk.healthCheck w) = Ok r
                /\ (status r = js "healthy" \/ status r = js "error"))
  /\ fst (Getters.CoinGecko_initialize w) = Ok tt
  /\ fst (Getters.CoinDesk_initialize w) = Ok tt.
Proof.
  assert (forall (body : M (Net.World E) HealthReport) w',
            (forall r w1, body w' = (Ok r, w1) -> status r = js "healthy") ->
            exists r,
              fst (try_catch body (fun error => ret (error_report error)) w')
              = Ok r
              /\ (status r = js "healthy" \/ status r = js "error")) as Htry.
  { intros body w' Hbody. unfold try_catch, ret.
    destruct (body w') as [[r|e] w1] eqn:Hb.
    - exists r. split; [reflexivity|]. left. eapply Hbody; reflexivity.
    - eexists. split; [reflexivity|]. right. reflexivity. }
  assert (exists r, fst (CoinGecko.healthCheck w) = Ok r
                    /\ (status r = js "healthy" \/ status r = js "error"))
    as Hgecko.
  { apply Htry. intros r w1. unfold bind, Net.Date_now, gets, throw, ret.
    destruct (Net.makeRequest _ _ _) as [[d|e] w2]; [|discriminate].
    destruct (Net.nullish E d); [discriminate|].
    intros [= <- _]. reflexivity. }
  assert (exists r, fst (CoinDesk.healthCheck w) = Ok r
                    /\ (status r = js "healthy" \/ status r = js "error"))
    as Hdesk.
  { apply Htry. intros r w1. unfold bind, Net.Date_now, gets, throw, ret.
    destruct (CoinDesk.getCurrentBitcoinPrice _) as [[d|e] w2]; [|discriminate].
    destruct (Net.nullish E d); [discriminate|].
    intros [= <- _]. reflexivity. }
  split; [exact Hgecko|]. split; [exact Hdesk|].
  unfold Getters.CoinGecko_initialize, Getters.CoinDesk_initialize,
    Getters.initialize, try_catch, bind, ret.
  destruct Hgecko as (r1 & H1 & _). destruct Hdesk as (r2 & H2 & _).
  destruct (CoinGecko.healthCheck w) as [[?|?] ?]; [|discriminate].
  destruct (CoinDesk.healthCheck w) as [[?|?] ?]; [|discriminate].
  split; reflexivity.
Qed.

(** X14. [getCurrentBitcoinPrice] in full. A truthy value cached at most
    60 s ago is returned and nothing changes. Otherwise one request
    leaves at the paced moment; if it fails the error is passed on and
    the store is as the lookup left it; if it answers, the answer is
    stored, and returned unless it is a null body, for which the call
    throws a [TypeError] after having stored it. *)
Theorem getCurrentBitcoinPrice_spec {E : Net.Env} (w : Net.World E) :
  let key := js "btc-current-price" in
  let endpoint := js "/bpi/currentprice.json" in
  let looked :=
    Cache.getCachedData key 60000 (Net.clock w) (Net.cache (Net.coindesk w)) in
  let t := Pacing.issue_time Net.CoinDesk w in
  let r := Net.http_get E Net.CoinDesk t endpoint in
  let run := CoinDesk.getCurrentBitcoinPrice w in
  let fetched :=
    fst run = match Net.response_data r with
              | Ok d => if Net.nullish E d
                        then Thrown (type_error "bpi") else Ok d
              | Thrown error => Thrown error
              end
    /\ Net.sent (snd run) = Net.sent w ++ [(t, Net.CoinDesk, endpoint)]
    /\ Net.clock (snd run) = t + Z.of_N (Net.latency r)
    /\ Net.cache (Net.coindesk (snd run))
       = match Net.response_data r with
         | Ok d =>
             Cache.setCachedData coindesk_policy key d
               (t + Z.of_N (Net.latency r)) (snd looked)
         | Thrown _ => snd looked
         end in
  match fst looked with
  | Some hit => if Net.truthy E hit then run = (Ok hit, w) else fetched
  | None => fetched
  end.
Proof.
  cbv zeta.
  set (key := js "btc-current-price").
  set (endpoint := js "/bpi/currentprice.json").
  set (looked := Cache.getCachedData key 60000 (Net.clock w)
                   (Net.cache (Net.coindesk w))).
  set (w0 := Net.with_client Net.CoinDesk
               {| Net.cache := snd looked;
                  Net.rateLimitDelay := Net.rateLimitDelay (Net.coindesk w);
                  Net.lastRequestTime := Net.lastRequestTime (Net.coindesk w) |}
               w).
  assert (Net.getCachedData Net.CoinDesk key (60 * 1000) w
          = (Ok (fst looked), w0)) as Hlook
    by apply (Net_getCachedData_run Net.CoinDesk key 60000 w).
  destruct (makeRequest_run Net.CoinDesk endpoint w0)
    as (Hr & Hs & Hc & _ & _ & Hca).
  cbv zeta in Hr, Hs, Hc.
  change (Pacing.issue_time Net.CoinDesk w0)
    with (Pacing.issue_time Net.CoinDesk w) in Hr, Hs, Hc.
  change (Net.sent w0) with (Net.sent w) in Hs.
  change (Net.cache (Net.client_of Net.CoinDesk w0)) with (snd looked) in Hca.
  set (fetch := try_catch
                  (bind (Net.makeRequest Net.CoinDesk endpoint)
                     (fun data =>
                        bind (Net.setCachedData Net.CoinDesk key data)
                          (fun _ =>
                             bind (if Net.nullish E data
                                   then throw (type_error "bpi")
                                   else ret tt)
                               (fun _ => ret data))))
                  (fun error => throw error)).
  assert (CoinDesk.getCurrentBitcoinPrice w
          = match fst looked with
            | Some hit => if Net.truthy E hit then ret hit else fetch
            | None => fetch
            end w0) as Hrun.
  { change (CoinDesk.getCurrentBitcoinPrice w)
      with (match Net.getCachedData Net.CoinDesk key (60 * 1000) w with
            | (Ok cached, w') =>
                match cached with
                | Some hit => if Net.truthy E hit then ret hit else fetch
                | None => fetch
                end w'
            | (Thrown e, w') => (Thrown e, w')
            end).
    rewrite Hlook. reflexivity. }
  rewrite Hrun. clear Hrun.
  assert (
            fst (fetch w0)
            = match Net.response_data
                      (Net.http_get E Net.CoinDesk
                         (Pacing.issue_time Net.CoinDesk w) endpoint) with
              | Ok d => if Net.nullish E d
                        then Thrown (type_error "bpi") else Ok d
              | Thrown error => Thrown error
              end
            /\ Net.sent (snd (fetch w0))
               = Net.sent w ++ [(Pacing.issue_time Net.CoinDesk w,
                                 Net.CoinDesk, endpoint)]
            /\ Net.clock (snd (fetch w0))
               = Pacing.issue_time Net.CoinDesk w
                 + Z.of_N (Net.latency
                             (Net.http_get E Net.CoinDesk
                                (Pacing.issue_time Net.CoinDesk w) endpoint))
            /\ Net.cache (Net.coindesk (snd (fetch w0)))
               = match Net.response_data
                         (Net.http_get E Net.CoinDesk
                            (Pacing.issue_time Net.CoinDesk w) endpoint) with
                 | Ok d =>
                     Cache.setCachedData coindesk_policy key d
                       (Pacing.issue_time Net.CoinDesk w
                        + Z.of_N (Net.latency
                                    (Net.http_get E Net.CoinDesk
                                       (Pacing.issue_time Net.CoinDesk w)
                                       endpoint)))
                       (snd looked)
                 | Thrown _ => snd looked
                 end) as Hfetch.
  { unfold fetch, try_catch, bind, throw, ret.
    destruct (Net.makeRequest Net.CoinDesk endpoint w0) as [[d|e] w1].
    - cbn [fst snd] in Hr, Hs, Hc, Hca. rewrite <- Hr.
      destruct (Net_setCachedData_run Net.CoinDesk key d w1)
        as (Hok & Hs1 & Hc1 & Hca1).
      destruct (Net.setCachedData Net.CoinDesk key d w1) as [[[]|e'] w2];
        [|discriminate].
      cbn [fst snd] in *. change (Net.client_of Net.CoinDesk w2)
        with (Net.coindesk w2) in Hca1.
      change (Net.client_of Net.CoinDesk w1) with (Net.coindesk w1)
        in Hca1, Hca.
      destruct (Net.nullish E d); cbn [fst snd];
        rewrite Hs1, Hc1, Hca1, Hs, Hc, Hca; auto.
    - cbn [fst snd] in Hr, Hs, Hc, Hca. rewrite <- Hr.
      change (Net.client_of Net.CoinDesk w1) with (Net.coindesk w1) in Hca.
      auto. }
  destruct (fst looked) as [hit|] eqn:Hhit; [|exact Hfetch].
  destruct (Net.truthy E hit) eqn:Htruthy; [|exact Hfetch].
  unfold ret. f_equal. unfold w0. unfold looked in Hhit |- *.
  rewrite (getCachedData_Some_same _ _ _ _ _ Hhit).
  apply (with_client_same Net.CoinDesk).
Qed.


(** ** Pacing over any sequence of requests *)

Lemma spaced_snoc (delay : Z) (ts : list Z) (t : Z) :
  Getters.spaced delay ts ->
  (ts = [] \/ t - last ts 0 >= delay) ->
  Getters.spaced delay (ts ++ [t]).
Proof.
  induction ts as [|t1 rest IH]; intros Hsp Hlast.
  - simpl. auto.
  - destruct Hsp as [Hhead Hrest].
    destruct Hlast as [Hnil|Hlast]; [discriminate|].
    destruct rest as [|t2 rest'].
    + simpl in *. repeat split; auto.
    + change ((t1 :: t2 :: rest') ++ [t]) with (t1 :: (t2 :: rest') ++ [t]).
      split; [exact Hhead|].
      apply IH; [exact Hrest|]. right. exact Hlast.
Qed.

Lemma times_of_snoc (s s' : Net.ServiceName) sent (t : Z) (endpoint : str) :
  Getters.times_of s (sent ++ [(t, s', endpoint)])
  = Getters.times_of s sent
    ++ (if Getters.same_service s' s then [t] else []).
Proof.
  unfold Getters.times_of. rewrite filter_app, map_app. simpl.
  destruct (Getters.same_service s' s); reflexivity.
Qed.

Lemma issue_time_ge {E : Net.Env} (s : Net.ServiceName) (w : Net.World E) :
  Pacing.issue_time s w - Net.lastRequestTime (Net.client_of s w)
  >= Net.rateLimitDelay (Net.client_of s w)
     + Z.min 0 (Net.timer_lateness E (Net.clock w)).
Proof.
  unfold Pacing.issue_time. cbv zeta.
  destruct (_ <? _) eqn:Hlt.
  - apply Z.ltb_lt in Hlt. lia.
  - apply Z.ltb_ge in Hlt. lia.
Qed.

(** A request of one client leaves the other client as it was. *)
Lemma makeRequest_other_client {E : Net.Env} (s s' : Net.ServiceName)
  (endpoint : str) (w : Net.World E) :
  Getters.same_service s' s = false ->
  Net.client_of s (snd (Net.makeRequest s' endpoint w)) = Net.client_of s w.
Proof.
  intros Hne.
  unfold Net.makeRequest, Net.Date_now, Net.sleep, Net.set_lastRequestTime,
    Net.axios_get, bind, gets, modify, ret, try_catch, throw.
  simpl.
  destruct s, s'; try discriminate; simpl; destruct (_ <? _); simpl;
    match goal with
    | |- context [Net.response_data ?r] => destruct (Net.response_data r)
    end; reflexivity.
Qed.

Lemma same_service_true (a b : Net.ServiceName) :
  Getters.same_service a b = true -> a = b.
Proof. destruct a, b; simpl; congruence. Qed.

Lemma makeRequest_keeps_paced {E : Net.Env} (s s' : Net.ServiceName)
  (delay early : Z) (gap : N) (endpoint : str) (w : Net.World E) :
  (forall t, - early <= Net.timer_lateness E t) ->
  0 <= early ->
  paced_state s delay early w ->
  paced_state s delay early
    (snd (Net.makeRequest s' endpoint (Net.idle gap w))).
Proof.
  intros Hearly Hpos (Hsp & Hdelay & Hlast).
  set (w0 := Net.idle gap w).
  assert (Net.sent w0 = Net.sent w) as Hs0 by reflexivity.
  assert (Net.client_of s w0 = Net.client_of s w) as Hc0
    by (destruct s; reflexivity).
  destruct (makeRequest_run (E := E) s' endpoint w0)
    as (_ & Hs & _ & Hlrt & Hrd & _).
  cbv zeta in Hs. rewrite Hs0 in Hs.
  unfold paced_state. rewrite Hs, times_of_snoc.
  destruct (Getters.same_service s' s) eqn:Hsame.
  - apply same_service_true in Hsame. subst s'.
    rewrite Hc0 in Hrd.
    split; [|split].
    + apply spaced_snoc; [exact Hsp|].
      destruct Hlast as [Hnil|Hlast]; [left; exact Hnil|right].
      rewrite Hlast, <- Hdelay, <- Hc0.
      pose proof (issue_time_ge s w0) as Hge.
      pose proof (Hearly (Net.clock w0)). lia.
    + now rewrite Hrd.
    + right. rewrite last_last. symmetry. exact Hlrt.
  - rewrite app_nil_r.
    rewrite (makeRequest_other_client s s' endpoint w0 Hsame), Hc0.
    auto.
Qed.

Lemma run_requests_keeps_paced {E : Net.Env} (s : Net.ServiceName)
  (delay early : Z) reqs (w : Net.World E) :
  (forall t, - early <= Net.timer_lateness E t) ->
  0 <= early ->
  paced_state s delay early w ->
  paced_state s delay early (Getters.run_requests reqs w).
Proof.
  intros Hearly Hpos. revert w.
  induction reqs as [|[[gap s'] endpoint] reqs IH]; intros w Hw.
  - exact Hw.
  - apply IH. apply makeRequest_keeps_paced; assumption.
Qed.

Lemma run_requests_sent_length {E : Net.Env} reqs (w : Net.World E) :
  List.length (Net.sent (Getters.run_requests reqs w))
  = (List.length (Net.sent w) + List.length reqs)%nat.
Proof.
  revert w. induction reqs as [|[[gap s'] endpoint] reqs IH]; intros w.
  - simpl. lia.
  - simpl. rewrite IH.
    destruct (makeRequest_run (E := E) s' endpoint (Net.idle gap w))
      as (_ & Hs & _).
    cbv zeta in Hs. cbn [fst snd]. rewrite Hs, length_app. simpl. lia.
Qed.

(** X15. Pacing holds over any sequence, up to the earliness of the
    timers. Let the timers resolve at most [early] ms before the
    requested delay as [Date.now()] reads it ([early] is 0 when they are
    never early). Starting from a process that has sent nothing, let one
    caller make any requests on the two clients, in any order, each
    entered any time after the one before came back, whether they
    succeed or fail. Every request is sent, and the requests of each
    client leave at least that client's [rateLimitDelay] less [early]
    apart. *)
Theorem run_requests_spaced {E : Net.Env} (early : Z)
  (reqs : list (N * Net.ServiceName * str)) (w : Net.World E)
  (s : Net.ServiceName) :
  0 <= early ->
  (forall t, - early <= Net.timer_lateness E t) ->
  Net.sent w = [] ->
  Getters.spaced (Net.rateLimitDelay (Net.client_of s w) - early)
    (Getters.times_of s (Net.sent (Getters.run_requests reqs w)))
  /\ List.length (Net.sent (Getters.run_requests reqs w)) = List.length reqs.
Proof.
  intros Hpos Hearly Hsent. split.
  - apply (run_requests_keeps_paced s _ early reqs w Hearly Hpos).
    unfold paced_state. rewrite Hsent. simpl. auto.
  - rewrite run_requests_sent_length, Hsent. reflexivity.
Qed.

(** With timers that resolve 1 ms early and the paid key (delay 100 ms),
    the requests of the CoinGecko client leave at least 99 ms apart. *)
Lemma run_requests_spaced_witness :
  let E := early_timer_env in
  let w := @Net.initial_world E 1000000 in
  let reqs := [(0%N, Net.CoinGecko, js "/ping");
               (10%N, Net.CoinDesk, js "/bpi/currentprice.json");
               (5%N, Net.CoinGecko, js "/global");
               (2000%N, Net.CoinGecko, js "/search/trending")] in
  Getters.spaced (Net.rateLimitDelay (Net.client_of Net.CoinGecko w) - 1)
    (Getters.times_of Net.CoinGecko
       (Net.sent (Getters.run_requests reqs w)))
  /\ List.length (Net.sent (Getters.run_requests reqs w)) = List.length reqs.
Proof.
  cbv zeta. apply run_requests_spaced.
  - lia.
  - intros t. simpl. lia.
  - reflexivity.
Defined.

(** ** The two status reports *)

Lemma bot_probe_all_run_probes {W : Type} (api : ApiServices.Services W)
  (es : list (str * ApiServices.Service W)) (acc : JsMap.t HealthReport)
  (w : W) :
  (forall name service, In (name, service) es ->
     CryptoIntelBot.lookup api name = Some service) ->
  CryptoIntelBot.probe_all api (List.map fst es) acc w =
  (Ok (fold_left
         (fun m no => JsMap.set (fst no) (ApiServices.entry_of (snd no)) m)
         (fst (ApiServices.run_probes es w)) acc),
   snd (ApiServices.run_probes es w)).
Proof.
  revert acc w. induction es as [|[name service] rest IH]; intros acc w Hes.
  - reflexivity.
  - simpl. unfold bind.
    assert (CryptoIntelBot.probe api name acc w
            = (Ok (JsMap.set name
                     (ApiServices.entry_of
                        (fst (ApiServices.run_probe service w))) acc),
               snd (ApiServices.run_probe service w))) as Hprobe.
    { unfold CryptoIntelBot.probe, ApiServices.run_probe, try_catch, bind,
        ret.
      rewrite (Hes name service) by (left; reflexivity).
      destruct (ApiServices.healthCheck service) as [check|];
        [|reflexivity].
      destruct (check w) as [[r|e] w1]; reflexivity. }
    rewrite Hprobe, IH by (intros n sv Hin; apply Hes; right; exact Hin).
    destruct (ApiServices.run_probe service w) as [o w1]; simpl.
    destruct (ApiServices.run_probes rest w1) as [os w2]; reflexivity.
Qed.

Lemma failing_entry_of (o : option (Result HealthReport)) :
  ApiServices.failing o
  = streq (status (ApiServices.entry_of o)) (js "error").
Proof. destruct o as [[r|e]|]; reflexivity. Qed.

Lemma get_In_NoDup {V : Type} (m : JsMap.t V) (k : str) (v : V) :
  NoDup (JsMap.keys m) -> In (k, v) m -> JsMap.get k m = Some v.
Proof.
  induction m as [|[k' v'] r IH]; intros Hnd Hin; [destruct Hin|].
  simpl in *. inversion Hnd as [|? ? Hnot Hnd']; subst.
  destruct Hin as [[= -> ->]|Hin].
  - now rewrite streq_refl.
  - destruct (streq k' k) eqn:Heq.
    + apply streq_eq in Heq. subst k'. exfalso. apply Hnot.
      change k with (fst (k, v)). apply in_map. exact Hin.
    + apply IH; assumption.
Qed.

(** X16. The status endpoint and the aggregator agree. Run in the same
    state, [getApiStatus] and [getOverallStatus] both resolve, leave the
    same state behind and carry the same timestamp and the same entry
    for each of the six services; and [overall] is ['degraded'] exactly
    when one of these entries has status ['error'], ['healthy']
    otherwise. *)
Theorem getApiStatus_agrees_with_getOverallStatus {W : Type}
  (clock : W -> Z) (api : ApiServices.Services W) (w : W) :
  exists (st : CryptoIntelBot.ApiStatus) (full : ApiServices.Status) (w' : W),
    CryptoIntelBot.getApiStatus clock api w = (Ok st, w')
    /\ ApiServices.getOverallStatus clock api w = (Ok full, w')
    /\ CryptoIntelBot.timestamp st = ApiServices.timestamp full
    /\ CryptoIntelBot.services st = ApiServices.services full
    /\ JsMap.keys (CryptoIntelBot.services st)
       = CryptoIntelBot.service_names
    /\ ((exists name r,
           JsMap.get name (CryptoIntelBot.services st) = Some r
           /\ status r = js "error")
        <-> ApiServices.overall full = js "degraded")
    /\ (ApiServices.overall full = js "degraded"
        \/ ApiServices.overall full = js "healthy").
Proof.
  set (outcomes := fst (ApiServices.run_probes (ApiServices.entries api) w)).
  assert (List.map fst outcomes = List.map fst (ApiServices.entries api))
    as Hnames by apply run_probes_names.
  assert (NoDup (List.map fst outcomes)) as Hnd
    by (rewrite Hnames; apply entries_names_NoDup).
  set (entries_out :=
         List.map (fun no => (fst no, ApiServices.entry_of (snd no)))
           outcomes).
  assert (JsMap.keys entries_out = List.map fst outcomes) as Hkeys.
  { unfold entries_out, JsMap.keys. rewrite map_map. reflexivity. }
  exists {| CryptoIntelBot.timestamp := clock w;
            CryptoIntelBot.services := entries_out |}.
  exists {| ApiServices.timestamp := clock w;
            ApiServices.services := entries_out;
            ApiServices.overall :=
              if existsb (fun no => ApiServices.failing (snd no)) outcomes
              then js "degraded" else js "healthy" |}.
  exists (snd (ApiServices.run_probes (ApiServices.entries api) w)).
  split; [|split; [|split; [|split; [|split; [|split]]]]].
  - unfold CryptoIntelBot.getApiStatus, bind, gets, ret.
    change (@CryptoIntelBot.service_names)
      with (List.map fst (ApiServices.entries api)).
    rewrite bot_probe_all_run_probes.
    + fold outcomes.
      rewrite (fold_set_fresh ApiServices.entry_of outcomes JsMap.empty)
        by exact Hnd.
      reflexivity.
    + intros name service Hin. unfold CryptoIntelBot.lookup.
      apply get_In_NoDup; [apply entries_names_NoDup | exact Hin].
  - unfold ApiServices.getOverallStatus, bind, gets, ret.
    rewrite probe_all_run_probes. fold outcomes. simpl.
    rewrite (fold_set_fresh ApiServices.entry_of outcomes JsMap.empty)
      by exact Hnd.
    reflexivity.
  - reflexivity.
  - reflexivity.
  - cbn [CryptoIntelBot.services]. rewrite Hkeys, Hnames. reflexivity.
  - cbn [CryptoIntelBot.services ApiServices.overall].
    split.
    + intros (name & r & Hget & Hstatus).
      assert (existsb (fun no => ApiServices.failing (snd no)) outcomes
              = true) as ->; [|reflexivity].
      apply existsb_exists.
      apply get_In_pair in Hget. destruct Hget as (k & Hget).
      unfold entries_out in Hget.
      apply in_map_iff in Hget. destruct Hget as ([n o] & Heq & Hin).
      cbn [fst snd] in Heq.
      assert (r = ApiServices.entry_of o) as -> by congruence.
      exists (n, o). split; [exact Hin|].
      cbn [snd]. rewrite failing_entry_of, Hstatus. apply streq_refl.
    + destruct (existsb _ outcomes) eqn:Hex; [|discriminate].
      intros _. apply existsb_exists in Hex.
      destruct Hex as ([n o] & Hin & Hfail). cbn [snd] in Hfail.
      exists n, (ApiServices.entry_of o). split.
      * apply get_In_NoDup; [rewrite Hkeys; exact Hnd|].
        unfold entries_out.
        apply (in_map (fun no => (fst no, ApiServices.entry_of (snd no)))
                 outcomes (n, o) Hin).
      * rewrite failing_entry_of in Hfail. apply streq_eq. exact Hfail.
  - cbn [ApiServices.overall]. destruct (existsb _ outcomes); auto.
Qed.


(** ** The uncached getter *)

(** X17. [getBitcoinPriceForDate] never looks at the cache and never
    fills it: every call sends a request, at the paced moment, its
    outcome is the outcome of the call, and the store is left as it
    was. Two calls for the same date therefore send two requests, the
    second at least [rateLimitDelay] after the first less the time by
    which the timer of its wait resolves early. *)
Theorem getBitcoinPriceForDate_uncached {E : Net.Env} (date : str)
  (gap : N) (w : Net.World E) :
  let endpoint := js "/bpi/historical/close/" ++ date ++ js ".json" in
  let t1 := Pacing.issue_time Net.CoinDesk w in
  let run1 := Getters.getBitcoinPriceForDate date w in
  let w1 := Net.idle gap (snd run1) in
  let t2 := Pacing.issue_time Net.CoinDesk w1 in
  let run2 := Getters.getBitcoinPriceForDate date w1 in
  fst run1 = Net.response_data (Net.http_get E Net.CoinDesk t1 endpoint)
  /\ fst run2 = Net.response_data (Net.http_get E Net.CoinDesk t2 endpoint)
  /\ Net.sent (snd run2)
     = Net.sent w ++ [(t1, Net.CoinDesk, endpoint);
                      (t2, Net.CoinDesk, endpoint)]
  /\ t2 - t1 >= Net.rateLimitDelay (Net.coindesk w)
                + Z.min 0 (Net.timer_lateness E (Net.clock w1))
  /\ Net.cache (Net.coindesk (snd run2)) = Net.cache (Net.coindesk w).
Proof.
  cbv zeta.
  set (endpoint := js "/bpi/historical/close/" ++ date ++ js ".json").
  assert (forall w0 : Net.World E,
            Getters.getBitcoinPriceForDate date w0
            = Net.makeRequest Net.CoinDesk endpoint w0) as Hrun.
  { intros w0. unfold Getters.getBitcoinPriceForDate, try_catch, throw.
    fold endpoint.
    destruct (Net.makeRequest Net.CoinDesk endpoint w0) as [[d|e] w1];
      reflexivity. }
  rewrite !Hrun.
  destruct (makeRequest_run (E := E) Net.CoinDesk endpoint w)
    as (Hr1 & Hs1 & _ & Hl1 & Hd1 & Hc1).
  set (w1 := Net.idle gap (snd (Net.makeRequest Net.CoinDesk endpoint w))).
  destruct (makeRequest_run (E := E) Net.CoinDesk endpoint w1)
    as (Hr2 & Hs2 & _ & _ & _ & Hc2).
  cbv zeta in Hr1, Hs1, Hr2, Hs2.
  change (Net.client_of Net.CoinDesk) with (@Net.coindesk E) in *.
  split; [exact Hr1|]. split; [exact Hr2|]. split; [|split].
  - rewrite Hs2. change (Net.sent w1)
      with (Net.sent (snd (Net.makeRequest Net.CoinDesk endpoint w))).
    rewrite Hs1, <- app_assoc. reflexivity.
  - pose proof (issue_time_ge Net.CoinDesk w1) as Hge.
    change (Net.client_of Net.CoinDesk w1)
      with (Net.coindesk (snd (Net.makeRequest Net.CoinDesk endpoint w)))
      in Hge.
    rewrite Hl1, Hd1 in Hge. exact Hge.
  - rewrite Hc2. exact Hc1.
Qed.

(** ** The bounded stores *)

Lemma run_wf {V : Type} (p : TrimPolicy) (ops : list (Z * CacheOp V))
  (c : CacheStore V) :
  JsMap.wf c -> JsMap.wf (Cache.run p ops c).
Proof.
  revert c. unfold Cache.run.
  induction ops as [|[t op] ops IH]; intros c Hwf; [exact Hwf|].
  simpl. apply IH. destruct op as [k w|k d]; simpl.
  - unfold getCachedData. destruct (JsMap.get k c) as [e|]; [|exact Hwf].
    destruct (w <? t - timestamp e); [|exact Hwf].
    simpl. apply wf_delete. exact Hwf.
  - apply setCachedData_wf. exact Hwf.
Qed.

(** X18. The ceiling is kept by every history. A store that trims (all
    but the one of [DeFiMonitoringService]) and holds at most [ceiling]
    entries still holds at most [ceiling] entries after any sequence of
    [getCachedData] and [setCachedData] calls, at any clock readings;
    and a key just written is found again, so a write never evicts
    itself. *)
Theorem cache_history_within_ceiling {V : Type} (ceiling count : nat)
  (ops : list (Z * CacheOp V)) (c : CacheStore V) (k : str) (v : V)
  (now : Z) :
  (0 < count <= ceiling)%nat ->
  JsMap.wf c ->
  (JsMap.size c <= ceiling)%nat ->
  let c' := Cache.run (Trim ceiling count) ops c in
  (JsMap.size c' <= ceiling)%nat
  /\ JsMap.wf c'
  /\ JsMap.get k (setCachedData (Trim ceiling count) k v now c')
     = Some {| data := v; timestamp := now |}
  /\ (JsMap.size (setCachedData (Trim ceiling count) k v now c')
      <= ceiling)%nat.
Proof.
  intros Hcount Hwf Hsize c'.
  assert (JsMap.size c' <= ceiling)%nat as Hsize'
    by (apply run_size_le_ceiling; [lia | exact Hsize]).
  split; [exact Hsize'|]. split; [apply run_wf; exact Hwf|]. split.
  - apply get_setCachedData_same. simpl. split; [exact Hsize' | exact Hcount].
  - apply setCachedData_size_le_ceiling; [lia | exact Hsize'].
Qed.

Lemma cache_history_within_ceiling_witness :
  let c := @JsMap.empty (CacheEntry Z) in
  let ops := [(0, OpSet (js "a") 1); (10, OpGet (js "a") 5);
              (20, OpSet (js "b") 2)] in
  let c' := Cache.run (Trim 50 10) ops c in
  (JsMap.size c' <= 50)%nat
  /\ JsMap.wf c'
  /\ JsMap.get (js "a") (setCachedData (Trim 50 10) (js "a") 3 30 c')
     = Some {| data := 3; timestamp := 30 |}
  /\ (JsMap.size (setCachedData (Trim 50 10) (js "a") 3%Z 30%Z c') <= 50)%nat.
Proof.
  cbv zeta. apply cache_history_within_ceiling.
  - lia.
  - constructor.
  - simpl. lia.
Defined.

(** X19. Eviction goes by first insertion, not by use. Writing a key the
    store already holds leaves the key sequence as it was, so the key
    keeps its place in the eviction order; writing a new key appends it;
    and when that makes the store exceed the ceiling, the first [count]
    keys of the sequence are the ones dropped. *)
Theorem setCachedData_key_order {V : Type} (ceiling count : nat)
  (k : str) (v : V) (now : Z) (c : CacheStore V) :
  JsMap.wf c ->
  (JsMap.size c <= ceiling)%nat ->
  JsMap.keys (setCachedData (Trim ceiling count) k v now c)
  = if JsMap.has k c then JsMap.keys c
    else if (JsMap.size c <? ceiling)%nat then JsMap.keys c ++ [k]
         else skipn count (JsMap.keys c ++ [k]).
Proof.
  intros Hwf Hsize.
  set (stored := JsMap.set k {| data := v; timestamp := now |} c).
  pose proof (keys_set k {| data := v; timestamp := now |} c) as Hkeys.
  pose proof (size_set k {| data := v; timestamp := now |} c) as Hsz.
  fold stored in Hkeys, Hsz.
  destruct (JsMap.has k c) eqn:Hhas.
  - unfold setCachedData. fold stored.
    assert ((ceiling <? JsMap.size stored)%nat = false) as ->
      by (apply Nat.ltb_ge; lia).
    exact Hkeys.
  - destruct (JsMap.size c <? ceiling)%nat eqn:Hlt.
    + apply Nat.ltb_lt in Hlt. unfold setCachedData. fold stored.
      assert ((ceiling <? JsMap.size stored)%nat = false) as ->
        by (apply Nat.ltb_ge; lia).
      exact Hkeys.
    + apply Nat.ltb_ge in Hlt.
      rewrite (setCachedData_evicts_oldest ceiling count k v now c Hwf)
        by (fold stored; lia).
      fold stored. rewrite <- Hkeys. unfold JsMap.keys.
      symmetry. apply skipn_map.
Qed.

Lemma setCachedData_key_order_witness :
  let c : CacheStore Z :=
    [(js "a", {| data := 1; timestamp := 0 |});
     (js "b", {| data := 2; timestamp := 5 |})] in
  JsMap.keys (setCachedData (Trim 2 1) (js "a") 3 10 c) = [js "a"; js "b"]
  /\ JsMap.keys
       (setCachedData (Trim 2 1) (js "c") 4 20
          (setCachedData (Trim 2 1) (js "a") 3 10 c))
     = [js "b"; js "c"].
Proof.
  cbv zeta. split.
  - apply (setCachedData_key_order 2 1 (js "a") 3 10).
    + repeat constructor; simpl; intuition discriminate.
    + simpl. lia.
  - apply (setCachedData_key_order 2 1 (js "c") 4 20).
    + repeat constructor; simpl; intuition discriminate.
    + simpl. lia.
Defined.


(** ** Authentication at the endpoint *)

(** C1. The endpoint answers 401 and calls no handler when the signature
    header is missing, when no secret is at hand, and when the header is
    not the digest of the delivered body. In the application as built
    this is so for every delivery and every event: [handle] reads the
    secret from [githubApp.webhooks.secret], which the application
    object does not carry, so the guard of [verifySignature] rejects
    before any digest is computed, whatever secret is configured. Handed
    a secret it can read, [handle] answers 401 and calls no handler for
    a missing or empty header, for a missing or empty secret, and for a
    header of the digest's length that is not the digest, so also for
    the digest of another body. *)
Theorem webhook_rejects_unauthenticated {E : WebhookHandler.Env}
  (req : WebhookHandler.Request E) (webhookSecret secret : option str)
  (w : WebhookHandler.World) :
  let rejected :=
    (@Ok unit tt,
     {| WebhookHandler.calls := WebhookHandler.calls w;
        WebhookHandler.responses :=
          WebhookHandler.responses w
          ++ [{| WebhookHandler.code := 401;
                 WebhookHandler.json :=
                   WebhookHandler.error_body (js "Invalid signature") |}];
        WebhookHandler.dispatched := WebhookHandler.dispatched w |}) in
  GithubApp.webhooks_github webhookSecret req w = rejected
  /\ (truthy_ostr (WebhookHandler.x_hub_signature_256 req) = false ->
      WebhookHandler.post_webhooks_github req secret w = rejected)
  /\ (truthy_ostr secret = false ->
      WebhookHandler.post_webhooks_github req secret w = rejected)
  /\ (forall signature key,
        WebhookHandler.x_hub_signature_256 req = Some signature ->
        secret = Some key ->
        List.length (Crypto.utf8 signature) = 71%nat ->
        signature
        <> sign key (WebhookHandler.JSON_stringify E (WebhookHandler.body req)) ->
        WebhookHandler.post_webhooks_github req secret w = rejected)
  /\ (forall key other,
        WebhookHandler.x_hub_signature_256 req = Some (sign key other) ->
        secret = Some key ->
        sign key other
        <> sign key (WebhookHandler.JSON_stringify E (WebhookHandler.body req)) ->
        WebhookHandler.post_webhooks_github req secret w = rejected).
Proof.
  intros rejected.
  assert (forall signature key,
            WebhookHandler.x_hub_signature_256 req = Some signature ->
            secret = Some key ->
            List.length (Crypto.utf8 signature) = 71%nat ->
            signature
            <> sign key
                 (WebhookHandler.JSON_stringify E (WebhookHandler.body req)) ->
            WebhookHandler.post_webhooks_github req secret w = rejected)
    as Hmismatch.
  { intros signature key Hsig -> Hlen Hne.
    apply handle_rejects. apply verifySignature_false.
    right; right. exists signature, key.
    repeat split; [exact Hsig | exact Hlen |].
    destruct (Crypto.bytes_eqb _ _) eqn:Heq; [|reflexivity].
    exfalso. apply Hne. apply bytes_eqb_eq in Heq.
    apply utf8_eq_ascii; [apply sign_ascii|].
    rewrite Heq. apply utf8_ascii. apply sign_ascii. }
  split; [|split; [|split; [|split]]].
  - apply handle_rejects. unfold WebhookHandler.verifySignature.
    destruct (WebhookHandler.x_hub_signature_256 req); reflexivity.
  - intros H. apply handle_rejects. apply verifySignature_false. auto.
  - intros H. apply handle_rejects. apply verifySignature_false. auto.
  - exact Hmismatch.
  - intros key other Hsig Hkey Hne.
    apply (Hmismatch (sign key other) key Hsig Hkey); [|exact Hne].
    apply digest_string_length.
Qed.

(** In the application as built a delivery that carries the digest of
    its own body under the configured secret is answered 401 as well,
    and the comment handler does not run. *)
Example webhooks_github_rejects_signed :
  let text := js "@crypto-intel-bot status" in
  let w := snd (GithubApp.webhooks_github (Some (js "s3cret"))
                  (example_request
                     (Some (sign (js "s3cret")
                              (example_stringify (example_comment text))))
                     text)
                  WebhookHandler.new_world) in
  List.map WebhookHandler.code (WebhookHandler.responses w) = [401]
  /\ WebhookHandler.dispatched w = []
  /\ WebhookHandler.calls w = [].
Proof. vm_compute. repeat split. Qed.

(** Deliveries, signed under a secret the route can read, whose event
    header names a member of [Object.prototype]: [toString] is answered
    200 as processed, [__proto__] and [valueOf] are answered 500, and an
    event that names nothing is acknowledged. *)
Example inherited_event_names :
  let text := js "@crypto-intel-bot status" in
  let E := example_webhook_env example_status_value in
  let answer := fun event =>
    WebhookHandler.responses
      (snd (WebhookHandler.post_webhooks_github
              (@WebhookHandler.Build_Request E
                 (Some (sign (js "s3cret")
                          (example_stringify (example_comment text))))
                 (Some event) (Some (js "d-1")) (example_comment text))
              (Some (js "s3cret")) WebhookHandler.new_world)) in
  answer (js "toString")
  = [{| WebhookHandler.code := 200;
        WebhookHandler.json :=
          WebhookHandler.message_body (js "Webhook processed successfully") |}]
  /\ answer (js "__proto__")
     = [{| WebhookHandler.code := 500;
           WebhookHandler.json :=
             WebhookHandler.error_body (js "Internal server error") |}]
  /\ answer (js "valueOf")
     = [{| WebhookHandler.code := 500;
           WebhookHandler.json :=
             WebhookHandler.error_body (js "Internal server error") |}]
  /\ answer (js "ping")
     = [{| WebhookHandler.code := 200;
           WebhookHandler.json :=
             WebhookHandler.message_body
               (js "Event acknowledged but not processed") |}].
Proof. vm_compute. repeat split. Qed.


(** ** Every store stays bounded *)

Lemma run_app {V : Type} (p : TrimPolicy) (a b : list (Z * CacheOp V))
  (c : CacheStore V) :
  Cache.run p (a ++ b) c = Cache.run p b (Cache.run p a c).
Proof. unfold Cache.run. apply fold_left_app. Qed.

(** A store without a trim whose writes all go to keys of a given list
    keeps its keys within that list. *)
Lemma run_keys_within {V : Type} (allowed : list str)
  (ops : list (Z * CacheOp V)) (c : CacheStore V) :
  (forall t k d, In (t, OpSet k d) ops -> In k allowed) ->
  JsMap.wf c -> incl (JsMap.keys c) allowed ->
  JsMap.wf (Cache.run NoTrim ops c)
  /\ incl (JsMap.keys (Cache.run NoTrim ops c)) allowed.
Proof.
  revert c. unfold Cache.run.
  induction ops as [|[t op] ops IH]; intros c Hsets Hwf Hincl;
    [split; assumption|].
  cbn [fold_left fst snd]. apply IH.
  - intros t' k d Hin. apply (Hsets t' k d). right. exact Hin.
  - destruct op as [k w|k d]; cbn [Cache.apply_op].
    + unfold Cache.getCachedData. destruct (JsMap.get k c) as [e|]; [|exact Hwf].
      destruct (w <? t - timestamp e); [|exact Hwf].
      apply wf_delete. exact Hwf.
    + apply setCachedData_wf. exact Hwf.
  - destruct op as [k w|k d]; cbn [Cache.apply_op].
    + unfold Cache.getCachedData. destruct (JsMap.get k c) as [e|]; [|exact Hincl].
      destruct (w <? t - timestamp e); [|exact Hincl].
      intros x Hx. apply Hincl. cbn [snd] in Hx.
      apply keys_delete_incl in Hx. exact Hx.
    + cbn [Cache.setCachedData]. rewrite keys_set.
      destruct (JsMap.has k c); [exact Hincl|].
      intros x Hx. apply in_app_or in Hx. destruct Hx as [Hx|[<-|[]]].
      * apply Hincl. exact Hx.
      * apply (Hsets t k d). left. reflexivity.
Qed.

(** What one call of [getProtocolData] does to the store: a read of the
    protocol's key and, for one of the three protocols whose data
    arrived, a write under that key. *)
Lemma getProtocolData_cache_ops {E : DeFi.Env} (protocolName : str)
  (w : DeFi.World E) :
  exists ops,
    DeFi.cache (snd (DeFi.getProtocolData protocolName w))
    = Cache.run defiMonitoring_policy ops (DeFi.cache w)
    /\ (forall t k d, In (t, OpSet k d) ops -> In k DeFi.protocol_keys).
Proof.
  set (key := js "protocol-" ++ protocolName).
  set (looked := Cache.getCachedData key (5 * 60 * 1000) (DeFi.clock w)
                   (DeFi.cache w)).
  set (w0 := {| DeFi.clock := DeFi.clock w; DeFi.cache := snd looked;
                DeFi.posts := DeFi.posts w |}).
  set (read := [(DeFi.clock w, OpGet (V := DeFi.ProtocolData E) key
                                 (5 * 60 * 1000))]).
  assert (snd looked = Cache.run defiMonitoring_policy read (DeFi.cache w))
    as Hread by reflexivity.
  assert (forall fetch : M (DeFi.World E) (DeFi.ProtocolData E),
            DeFi.getProtocolData protocolName w
            = match fst looked with
              | Some hit => if DeFi.is_truthy hit then ret hit else fetch
              | None => fetch
              end w0 ->
            (exists ops,
               DeFi.cache (snd (fetch w0))
               = Cache.run defiMonitoring_policy ops (DeFi.cache w)
               /\ (forall t k d, In (t, OpSet k d) ops ->
                                 In k DeFi.protocol_keys)) ->
            exists ops,
              DeFi.cache (snd (DeFi.getProtocolData protocolName w))
              = Cache.run defiMonitoring_policy ops (DeFi.cache w)
              /\ (forall t k d, In (t, OpSet k d) ops ->
                                In k DeFi.protocol_keys)) as Hcases.
  { intros fetch -> Hfetch.
    assert (exists ops,
              DeFi.cache w0
              = Cache.run defiMonitoring_policy ops (DeFi.cache w)
              /\ (forall t k d, In (t, OpSet k d) ops ->
                                In k DeFi.protocol_keys)) as Hhit.
    { exists read. split; [exact Hread|].
      intros t k d [Hin|[]]. discriminate Hin. }
    destruct (fst looked) as [hit|]; [|exact Hfetch].
    destruct (DeFi.is_truthy hit); [exact Hhit | exact Hfetch]. }
  eapply Hcases.
  - unfold DeFi.getProtocolData, bind, DeFi.getCachedData. fold key looked.
    destruct looked as [r cache'] eqn:Hlooked. cbn [fst snd]. reflexivity.
  - assert (forall (data : DeFi.ProtocolData E) (w1 : DeFi.World E),
              DeFi.cache w1 = snd looked ->
              In key DeFi.protocol_keys ->
              exists ops,
                DeFi.cache (snd (DeFi.setCachedData key data w1))
                = Cache.run defiMonitoring_policy ops (DeFi.cache w)
                /\ (forall t k d, In (t, OpSet k d) ops ->
                                  In k DeFi.protocol_keys)) as Hstore.
    { intros data w1 Hw1 Hkey.
      exists (read ++ [(DeFi.clock w1, OpSet key data)]). split.
      - rewrite run_app, <- Hread, <- Hw1. reflexivity.
      - intros t k d Hin. apply in_app_or in Hin.
        destruct Hin as [[Hin|[]]|[Hin|[]]]; [discriminate Hin|].
        inversion Hin; subst. exact Hkey. }
    assert (exists ops,
              snd looked = Cache.run defiMonitoring_policy ops (DeFi.cache w)
              /\ (forall t k d, In (t, OpSet k d) ops ->
                                In k DeFi.protocol_keys)) as Hkept.
    { exists read. split; [exact Hread|].
      intros t k d [Hin|[]]. discriminate Hin. }
    unfold try_catch, bind, throw, ret.
    destruct (streq protocolName (js "uniswap")) eqn:Hu.
    + apply streq_eq in Hu.
      unfold DeFi.getUniswapData.
      destruct (Net.response_data (DeFi.post_subgraph E (DeFi.clock w0)))
        as [d|e]; cbn [fst snd].
      * destruct (Hstore (DeFi.Uniswap d)
                    {| DeFi.clock :=
                         DeFi.clock w0
                         + Z.of_N (Net.latency
                                     (DeFi.post_subgraph E (DeFi.clock w0)));
                       DeFi.cache := DeFi.cache w0;
                       DeFi.posts := DeFi.posts w0 ++ [DeFi.clock w0] |})
          as (ops & Hops & Hsets).
        -- reflexivity.
        -- unfold key. rewrite Hu. left. reflexivity.
        -- exists ops. split; [exact Hops | exact Hsets].
      * exact Hkept.
    + destruct (streq protocolName (js "aave")) eqn:Ha.
      * apply streq_eq in Ha.
        destruct (Hstore DeFi.Aave w0) as (ops & Hops & Hsets).
        -- reflexivity.
        -- unfold key. rewrite Ha. right. left. reflexivity.
        -- exists ops. split; [exact Hops | exact Hsets].
      * destruct (streq protocolName (js "compound")) eqn:Hc.
        -- apply streq_eq in Hc.
           destruct (Hstore DeFi.Compound w0) as (ops & Hops & Hsets).
           ++ reflexivity.
           ++ unfold key. rewrite Hc. right. right. left. reflexivity.
           ++ exists ops. split; [exact Hops | exact Hsets].
        -- exact Hkept.
Qed.

Lemma run_calls_keys_within {E : DeFi.Env} (calls : list (N * str))
  (w : DeFi.World E) :
  JsMap.wf (DeFi.cache w) ->
  incl (JsMap.keys (DeFi.cache w)) DeFi.protocol_keys ->
  JsMap.wf (DeFi.cache (DeFi.run_calls calls w))
  /\ incl (JsMap.keys (DeFi.cache (DeFi.run_calls calls w)))
          DeFi.protocol_keys.
Proof.
  revert w. unfold DeFi.run_calls.
  induction calls as [|[gap name] calls IH]; intros w Hwf Hincl;
    [split; assumption|].
  cbn [fold_left fst snd].
  match goal with
  | |- context [DeFi.getProtocolData name ?w1] =>
      destruct (getProtocolData_cache_ops name w1) as (ops & Hops & Hsets)
  end.
  cbn [DeFi.cache] in Hops.
  destruct (run_keys_within DeFi.protocol_keys ops (DeFi.cache w)
              Hsets Hwf Hincl) as [Hwf' Hincl'].
  apply IH; rewrite Hops; assumption.
Qed.

Lemma size_within {V : Type} (allowed : list str) (c : JsMap.t V) :
  JsMap.wf c -> incl (JsMap.keys c) allowed ->
  (JsMap.size c <= List.length allowed)%nat.
Proof.
  intros Hwf Hincl. unfold JsMap.size.
  replace (List.length c) with (List.length (JsMap.keys c))
    by apply length_map.
  apply NoDup_incl_length; assumption.
Qed.

(** C6. No store grows beyond a bound, and no write raises an error.
    In the five stores whose [setCachedData] trims (ceilings 100, 50,
    100, 50 and 100), any history of reads and writes from the empty
    store leaves at most the ceiling; a write that makes the store
    exceed it drops the first [count] entries in order of insertion,
    whatever was read or rewritten since, and any other write drops
    nothing. The store of [DeFiMonitoringService] has no trim and needs
    none: its request path writes under the keys of the three protocols
    only, so through any calls of [getProtocolData], for any names, and
    through any history whose writes are under these keys, it holds at
    most three entries and a write drops nothing. *)
Theorem cache_stores_stay_bounded :
  (forall p,
     In p [coingecko_policy; coindesk_policy; arkhamIntel_policy;
           gasEstimation_policy; networkMonitoring_policy] ->
     exists ceiling count,
       p = Trim ceiling count
       /\ In (ceiling, count) [(100, 20); (50, 10)]%nat
       /\ forall (V : Type) (ops : list (Z * CacheOp V)) (k : str) (v : V)
                 (now : Z),
            let c := Cache.run p ops JsMap.empty in
            let stored := JsMap.set k {| data := v; timestamp := now |} c in
            (JsMap.size c <= ceiling)%nat
            /\ (JsMap.size (setCachedData p k v now c) <= ceiling)%nat
            /\ setCachedData p k v now c
               = (if (ceiling <? JsMap.size stored)%nat
                  then skipn count stored else stored))
  /\ (forall (E : DeFi.Env) (start : Z) (calls : list (N * str))
             (k : str) (d : DeFi.ProtocolData E) (now : Z),
        let c := DeFi.cache
                   (DeFi.run_calls calls
                      (DeFi.new_DeFiMonitoringService start)) in
        (JsMap.size c <= 3)%nat
        /\ incl (JsMap.keys c)
                [js "protocol-uniswap"; js "protocol-aave";
                 js "protocol-compound"]
        /\ setCachedData defiMonitoring_policy k d now c
           = JsMap.set k {| data := d; timestamp := now |} c)
  /\ (forall (E : DeFi.Env) (protocolName : str) (w : DeFi.World E),
        exists ops,
          DeFi.cache (snd (DeFi.getProtocolData protocolName w))
          = Cache.run defiMonitoring_policy ops (DeFi.cache w)
          /\ (forall t k d, In (t, OpSet k d) ops ->
                In k [js "protocol-uniswap"; js "protocol-aave";
                      js "protocol-compound"]))
  /\ (forall (V : Type) (ops : list (Z * CacheOp V)),
        (forall t k d, In (t, OpSet k d) ops ->
           In k [js "protocol-uniswap"; js "protocol-aave";
                 js "protocol-compound"]) ->
        (JsMap.size (Cache.run defiMonitoring_policy ops JsMap.empty) <= 3)%nat).
Proof.
  split; [|split; [|split]].
  - assert (forall ceiling count,
              (0 < count)%nat ->
              forall (V : Type) (ops : list (Z * CacheOp V)) (k : str) (v : V)
                     (now : Z),
                let c := Cache.run (Trim ceiling count) ops JsMap.empty in
                let stored :=
                  JsMap.set k {| data := v; timestamp := now |} c in
                (JsMap.size c <= ceiling)%nat
                /\ (JsMap.size (setCachedData (Trim ceiling count) k v now c)
                    <= ceiling)%nat
                /\ setCachedData (Trim ceiling count) k v now c
                   = (if (ceiling <? JsMap.size stored)%nat
                      then skipn count stored else stored)) as Htrim.
    { intros ceiling count Hcount V ops k v now c stored.
      assert (JsMap.size c <= ceiling)%nat as Hsize
        by (apply run_size_le_ceiling; [exact Hcount | simpl; lia]).
      assert (JsMap.wf c) as Hwf by (apply run_wf; constructor).
      split; [exact Hsize|]. split.
      - apply setCachedData_size_le_ceiling; assumption.
      - destruct (ceiling <? JsMap.size stored)%nat eqn:Hover.
        + apply setCachedData_evicts_oldest; [exact Hwf|].
          apply Nat.ltb_lt. exact Hover.
        + unfold setCachedData. fold stored. rewrite Hover. reflexivity. }
    intros p [<-|[<-|[<-|[<-|[<-|[]]]]]].
    + exists 100%nat, 20%nat. split; [reflexivity|].
      split; [left; reflexivity|]. apply Htrim. lia.
    + exists 50%nat, 10%nat. split; [reflexivity|].
      split; [right; left; reflexivity|]. apply Htrim. lia.
    + exists 100%nat, 20%nat. split; [reflexivity|].
      split; [left; reflexivity|]. apply Htrim. lia.
    + exists 50%nat, 10%nat. split; [reflexivity|].
      split; [right; left; reflexivity|]. apply Htrim. lia.
    + exists 100%nat, 20%nat. split; [reflexivity|].
      split; [left; reflexivity|]. apply Htrim. lia.
  - intros E start calls k d now c.
    destruct (run_calls_keys_within calls
                (DeFi.new_DeFiMonitoringService (E := E) start))
      as [Hwf Hincl].
    + constructor.
    + intros x [].
    + split; [|split; [exact Hincl | reflexivity]].
      apply (size_within DeFi.protocol_keys); assumption.
  - intros E protocolName w. apply getProtocolData_cache_ops.
  - intros V ops Hsets.
    destruct (run_keys_within DeFi.protocol_keys ops JsMap.empty Hsets)
      as [Hwf Hincl].
    + constructor.
    + intros x [].
    + apply (size_within DeFi.protocol_keys); assumption.
Qed.


(** Five calls of [getProtocolData], one of them for a protocol the
    service does not know and one after the cached entry has expired,
    leave the three protocol keys in the store. *)
Lemma cache_stores_stay_bounded_witness :
  let c := DeFi.cache
             (DeFi.run_calls
                [(0%N, js "uniswap"); (0%N, js "aave"); (0%N, js "sushi");
                 (400000%N, js "uniswap"); (0%N, js "compound")]
                (@DeFi.new_DeFiMonitoringService example_defi_env 0)) in
  (JsMap.size c <= 3)%nat
  /\ JsMap.keys c
     = [js "protocol-aave"; js "protocol-uniswap"; js "protocol-compound"].
Proof.
  intros c. split.
  - destruct cache_stores_stay_bounded as (_ & Hdefi & _).
    apply (Hdefi example_defi_env 0
             [(0%N, js "uniswap"); (0%N, js "aave"); (0%N, js "sushi");
              (400000%N, js "uniswap"); (0%N, js "compound")]
             (js "k") DeFi.Aave 0).
  - vm_compute. reflexivity.
Defined.

(** A delivery that carries the digest of another body under the secret
    [s3cret]: rejected by a route that reads the secret, and by the
    endpoint as built. *)
Lemma webhook_rejects_unauthenticated_witness :
  let E := example_webhook_env example_status_value in
  let text := js "@crypto-intel-bot status" in
  let other := example_stringify (example_comment (js "@crypto-intel-bot analyze")) in
  let req := example_request (Some (sign (js "s3cret") other)) text in
  let rejected :=
    (@Ok unit tt,
     {| WebhookHandler.calls := [];
        WebhookHandler.responses :=
          [{| WebhookHandler.code := 401;
              WebhookHandler.json :=
                WebhookHandler.error_body (js "Invalid signature") |}];
        WebhookHandler.dispatched := [] |}) in
  WebhookHandler.post_webhooks_github req (Some (js "s3cret"))
    WebhookHandler.new_world = rejected
  /\ GithubApp.webhooks_github (Some (js "s3cret")) req
       WebhookHandler.new_world = rejected.
Proof.
  intros E text other req rejected.
  destruct (webhook_rejects_unauthenticated req (Some (js "s3cret"))
              (Some (js "s3cret")) WebhookHandler.new_world)
    as (Hbuilt & _ & _ & _ & Hother).
  split; [|exact Hbuilt].
  apply (Hother (js "s3cret") other).
  - reflexivity.
  - reflexivity.
  - intros H. vm_compute in H. discriminate H.
Defined.
